(** * CSV_test_SOMANET_v42: cyclic control loop and link supervisor

    A shallow embedding of [src/EtherCAT/SOEM/CSV_test_SOMANET_v42.c]:
    the cyclic process-data loop of [simpletest] with its CiA-402 power
    state machine, the bounded wait for the operational state, and the
    iterations of the supervisor thread [ecatcheck].

    The SOEM master stack (ethercat.h) is not part of the sources.  Its
    entry points and the [EC_STATE_*] / [EC_TIMEOUT*] constants are the
    fields of the class [Master]; its hidden state (sockets, the devices
    behind the wire) is the abstract type [Ext].

    Every call into the stack, every [printf], every store into the
    output process image and every sleep is recorded, in program order,
    in the ghost field [trace] of the world. *)

From Stdlib Require Import ZArith String Lia Bool.
From stdpp Require Import base list.

Local Open Scope string_scope.
Local Open Scope list_scope.
Local Open Scope Z_scope.

(** ** Machine integers *)

Definition to_uint16 (z : Z) : Z := z mod 65536.

Definition to_int32 (z : Z) : Z := (z + 2147483648) mod 4294967296 - 2147483648.

Arguments to_uint16 : simpl never.
Arguments to_int32 : simpl never.

(** ** Process images (the two PACKED structs) *)

Record in_somanet_42t := {
  Statusword : Z;
  OpModeDisplay : Z;
  PositionValue : Z;
  VelocityValue : Z;
  TorqueValue : Z;
  SecPositionValue : Z;
  SecVelocityValue : Z;
  AnalogInput1 : Z;
  AnalogInput2 : Z;
  AnalogInput3 : Z;
  AnalogInput4 : Z;
  TuningStatus : Z;
  DigitalInput1 : Z;
  DigitalInput2 : Z;
  DigitalInput3 : Z;
  DigitalInput4 : Z;
  UserMISO : Z;
  Timestamp : Z;
  PositionDemandInternalValue : Z;
  VelocityDemandValue : Z;
  TorqueDemand : Z
}.

Record out_somanet_42t := {
  Controlword : Z;
  OpMode : Z;
  TargetTorque : Z;
  TargetPosition : Z;
  TargetVelocity : Z;
  TorqueOffset : Z;
  TuningCommand : Z;
  DigitalOutput1 : Z;
  DigitalOutput2 : Z;
  DigitalOutput3 : Z;
  DigitalOutput4 : Z;
  UserMOSI : Z;
  VelocityOffset : Z
}.

Definition with_Controlword (v : Z) (o : out_somanet_42t) : out_somanet_42t :=
  {| Controlword := v; OpMode := OpMode o; TargetTorque := TargetTorque o;
     TargetPosition := TargetPosition o; TargetVelocity := TargetVelocity o;
     TorqueOffset := TorqueOffset o; TuningCommand := TuningCommand o;
     DigitalOutput1 := DigitalOutput1 o; DigitalOutput2 := DigitalOutput2 o;
     DigitalOutput3 := DigitalOutput3 o; DigitalOutput4 := DigitalOutput4 o;
     UserMOSI := UserMOSI o; VelocityOffset := VelocityOffset o |}.

Definition with_OpMode (v : Z) (o : out_somanet_42t) : out_somanet_42t :=
  {| Controlword := Controlword o; OpMode := v; TargetTorque := TargetTorque o;
     TargetPosition := TargetPosition o; TargetVelocity := TargetVelocity o;
     TorqueOffset := TorqueOffset o; TuningCommand := TuningCommand o;
     DigitalOutput1 := DigitalOutput1 o; DigitalOutput2 := DigitalOutput2 o;
     DigitalOutput3 := DigitalOutput3 o; DigitalOutput4 := DigitalOutput4 o;
     UserMOSI := UserMOSI o; VelocityOffset := VelocityOffset o |}.

Definition with_TargetVelocity (v : Z) (o : out_somanet_42t) : out_somanet_42t :=
  {| Controlword := Controlword o; OpMode := OpMode o; TargetTorque := TargetTorque o;
     TargetPosition := TargetPosition o; TargetVelocity := v;
     TorqueOffset := TorqueOffset o; TuningCommand := TuningCommand o;
     DigitalOutput1 := DigitalOutput1 o; DigitalOutput2 := DigitalOutput2 o;
     DigitalOutput3 := DigitalOutput3 o; DigitalOutput4 := DigitalOutput4 o;
     UserMOSI := UserMOSI o; VelocityOffset := VelocityOffset o |}.

(** ** Device and group records of the master stack

    Only the members the program touches: [ec_slave[i].state],
    [.ALstatuscode], [.group], [.islost]; [ec_group[g].outputsWKC],
    [.inputsWKC], [.docheckstate], [.nsegments], [.IOsegment]. *)

Record ec_slavet := {
  state : Z;
  ALstatuscode : Z;
  group : Z;
  islost : bool
}.

Record ec_groupt := {
  outputsWKC : Z;
  inputsWKC : Z;
  docheckstate : bool;
  nsegments : Z;
  IOsegment : list Z
}.

(** The part of a device record the stack refreshes from the wire. *)
Record link := { l_state : Z; l_ALstatuscode : Z }.

Definition link_of (s : ec_slavet) : link :=
  {| l_state := state s; l_ALstatuscode := ALstatuscode s |}.

Definition with_link (l : link) (s : ec_slavet) : ec_slavet :=
  {| state := l_state l; ALstatuscode := l_ALstatuscode l;
     group := group s; islost := islost s |}.

Definition with_state (v : Z) (s : ec_slavet) : ec_slavet :=
  {| state := v; ALstatuscode := ALstatuscode s; group := group s; islost := islost s |}.

Definition with_islost (b : bool) (s : ec_slavet) : ec_slavet :=
  {| state := state s; ALstatuscode := ALstatuscode s; group := group s; islost := b |}.

Definition with_docheckstate (b : bool) (g : ec_groupt) : ec_groupt :=
  {| outputsWKC := outputsWKC g; inputsWKC := inputsWKC g; docheckstate := b;
     nsegments := nsegments g; IOsegment := IOsegment g |}.

Definition slave0 : ec_slavet :=
  {| state := 0; ALstatuscode := 0; group := 0; islost := false |}.

Definition group0 : ec_groupt :=
  {| outputsWKC := 0; inputsWKC := 0; docheckstate := false;
     nsegments := 0; IOsegment := [] |}.

(** What [ec_config_init] leaves behind in the stack's globals. *)
Record config := {
  cfg_slavecount : Z;
  cfg_slave : list ec_slavet;
  cfg_group : list ec_groupt
}.

(** What one [ec_receive_processdata] delivers: the working counter it
    returns, the input image it leaves in the IOmap, and [ec_DCtime]. *)
Record rx := {
  rx_wkc : Z;
  rx_inputs : in_somanet_42t;
  rx_DCtime : Z
}.

(** ** The master stack as an interface *)

Class Master := {
  Ext : Type;
  EC_STATE_NONE : Z;
  EC_STATE_INIT : Z;
  EC_STATE_SAFE_OP : Z;
  EC_STATE_OPERATIONAL : Z;
  EC_STATE_ACK : Z;
  EC_STATE_ERROR : Z;
  EC_TIMEOUTRET : Z;
  EC_TIMEOUTSTATE : Z;
  ec_init : string -> Ext -> Z * Ext;
  ec_config_init : bool -> Ext -> (Z * config) * Ext;
  ec_config_map : config -> Ext -> config * Ext;
  ec_configdc : Ext -> Ext;
  ec_close : Ext -> Ext;
  ec_send_processdata : out_somanet_42t -> Ext -> Ext;
  ec_receive_processdata : Z -> in_somanet_42t -> Ext -> rx * Ext;
  ec_statecheck : nat -> Z -> Z -> link -> Ext -> link * Ext;
  ec_readstate : Ext -> (nat -> link) * Ext;
  ec_writestate : nat -> Z -> Ext -> Ext;
  ec_reconfig_slave : nat -> Z -> link -> Ext -> (Z * link) * Ext;
  ec_recover_slave : nat -> Z -> link -> Ext -> (Z * link) * Ext;
  ec_ALstatuscode2string : Z -> string
}.

(** ** Observable events *)

Inductive arg :=
| AInt (z : Z)
| AStr (s : string).

Inductive event :=
| Printf (fmt : string) (args : list arg)
| Store_OpMode (v : Z)
| Store_Controlword (v : Z)
| Store_TargetVelocity (v : Z)
| Call_init (ifname : string)
| Call_config_init
| Call_config_map
| Call_configdc
| Call_close
| Call_send_processdata
| Call_receive_processdata (timeout : Z)
| Call_statecheck (slave : nat) (reqstate : Z) (timeout : Z)
| Call_readstate
| Call_writestate (slave : nat) (reqstate : Z)
| Call_reconfig_slave (slave : nat) (timeout : Z)
| Call_recover_slave (slave : nat) (timeout : Z)
| Usleep (usec : Z).

Definition EC_TIMEOUTMON : Z := 500.

Definition currentgroup : Z := 0.

Section Program.

Context {M : Master}.

(** ** The world: program globals, stack globals, process images

    [inputs] and [outputs] are the two regions of [IOmap] behind
    [in_somanet_1] and [out_somanet_1]; they are taken to be disjoint.
    The local counter [j] of [simpletest] is passed explicitly. *)

Record World := {
  expectedWKC : Z;
  needlf : bool;
  wkc : Z;
  inOP : bool;
  ec_slavecount : Z;
  ec_slave : list ec_slavet;
  ec_group : list ec_groupt;
  ec_DCtime : Z;
  inputs : in_somanet_42t;
  outputs : out_somanet_42t;
  ext : Ext;
  trace : list event
}.

Definition set_expectedWKC (v : Z) (w : World) : World :=
  {| expectedWKC := v; needlf := needlf w; wkc := wkc w; inOP := inOP w;
     ec_slavecount := ec_slavecount w; ec_slave := ec_slave w; ec_group := ec_group w;
     ec_DCtime := ec_DCtime w; inputs := inputs w; outputs := outputs w;
     ext := ext w; trace := trace w |}.

Definition set_needlf (v : bool) (w : World) : World :=
  {| expectedWKC := expectedWKC w; needlf := v; wkc := wkc w; inOP := inOP w;
     ec_slavecount := ec_slavecount w; ec_slave := ec_slave w; ec_group := ec_group w;
     ec_DCtime := ec_DCtime w; inputs := inputs w; outputs := outputs w;
     ext := ext w; trace := trace w |}.

Definition set_wkc (v : Z) (w : World) : World :=
  {| expectedWKC := expectedWKC w; needlf := needlf w; wkc := v; inOP := inOP w;
     ec_slavecount := ec_slavecount w; ec_slave := ec_slave w; ec_group := ec_group w;
     ec_DCtime := ec_DCtime w; inputs := inputs w; outputs := outputs w;
     ext := ext w; trace := trace w |}.

Definition set_inOP (v : bool) (w : World) : World :=
  {| expectedWKC := expectedWKC w; needlf := needlf w; wkc := wkc w; inOP := v;
     ec_slavecount := ec_slavecount w; ec_slave := ec_slave w; ec_group := ec_group w;
     ec_DCtime := ec_DCtime w; inputs := inputs w; outputs := outputs w;
     ext := ext w; trace := trace w |}.

Definition set_config (c : config) (w : World) : World :=
  {| expectedWKC := expectedWKC w; needlf := needlf w; wkc := wkc w; inOP := inOP w;
     ec_slavecount := cfg_slavecount c; ec_slave := cfg_slave c; ec_group := cfg_group c;
     ec_DCtime := ec_DCtime w; inputs := inputs w; outputs := outputs w;
     ext := ext w; trace := trace w |}.

Definition set_ec_slave (v : list ec_slavet) (w : World) : World :=
  {| expectedWKC := expectedWKC w; needlf := needlf w; wkc := wkc w; inOP := inOP w;
     ec_slavecount := ec_slavecount w; ec_slave := v; ec_group := ec_group w;
     ec_DCtime := ec_DCtime w; inputs := inputs w; outputs := outputs w;
     ext := ext w; trace := trace w |}.

Definition set_ec_group (v : list ec_groupt) (w : World) : World :=
  {| expectedWKC := expectedWKC w; needlf := needlf w; wkc := wkc w; inOP := inOP w;
     ec_slavecount := ec_slavecount w; ec_slave := ec_slave w; ec_group := v;
     ec_DCtime := ec_DCtime w; inputs := inputs w; outputs := outputs w;
     ext := ext w; trace := trace w |}.

Definition set_rx (r : rx) (w : World) : World :=
  {| expectedWKC := expectedWKC w; needlf := needlf w; wkc := wkc w; inOP := inOP w;
     ec_slavecount := ec_slavecount w; ec_slave := ec_slave w; ec_group := ec_group w;
     ec_DCtime := rx_DCtime r; inputs := rx_inputs r; outputs := outputs w;
     ext := ext w; trace := trace w |}.

Definition set_outputs (v : out_somanet_42t) (w : World) : World :=
  {| expectedWKC := expectedWKC w; needlf := needlf w; wkc := wkc w; inOP := inOP w;
     ec_slavecount := ec_slavecount w; ec_slave := ec_slave w; ec_group := ec_group w;
     ec_DCtime := ec_DCtime w; inputs := inputs w; outputs := v;
     ext := ext w; trace := trace w |}.

Definition set_ext (v : Ext) (w : World) : World :=
  {| expectedWKC := expectedWKC w; needlf := needlf w; wkc := wkc w; inOP := inOP w;
     ec_slavecount := ec_slavecount w; ec_slave := ec_slave w; ec_group := ec_group w;
     ec_DCtime := ec_DCtime w; inputs := inputs w; outputs := outputs w;
     ext := v; trace := trace w |}.

Definition emit (e : event) (w : World) : World :=
  {| expectedWKC := expectedWKC w; needlf := needlf w; wkc := wkc w; inOP := inOP w;
     ec_slavecount := ec_slavecount w; ec_slave := ec_slave w; ec_group := ec_group w;
     ec_DCtime := ec_DCtime w; inputs := inputs w; outputs := outputs w;
     ext := ext w; trace := trace w ++ [e] |}.

Definition printf (fmt : string) (args : list arg) (w : World) : World :=
  emit (Printf fmt args) w.

(** Array accesses.  [ec_slave] and [ec_group] are fixed-size arrays of
    the stack; an index past the modelled list reads [slave0] / [group0]
    and a store there is dropped. *)

Definition get_slave (i : nat) (w : World) : ec_slavet :=
  default slave0 (ec_slave w !! i).

Definition upd_slave (i : nat) (f : ec_slavet -> ec_slavet) (w : World) : World :=
  set_ec_slave (alter f i (ec_slave w)) w.

Definition get_group (g : Z) (w : World) : ec_groupt :=
  default group0 (ec_group w !! Z.to_nat g).

Definition upd_group (g : Z) (f : ec_groupt -> ec_groupt) (w : World) : World :=
  set_ec_group (alter f (Z.to_nat g) (ec_group w)) w.

(** Stores through [out_somanet_1]. *)

Definition store_OpMode (v : Z) (w : World) : World :=
  emit (Store_OpMode v) (set_outputs (with_OpMode v (outputs w)) w).

Definition store_Controlword (v : Z) (w : World) : World :=
  emit (Store_Controlword v) (set_outputs (with_Controlword v (outputs w)) w).

Definition store_TargetVelocity (v : Z) (w : World) : World :=
  emit (Store_TargetVelocity v) (set_outputs (with_TargetVelocity v (outputs w)) w).

(** Calls into the stack.  Each wrapper threads the hidden state through
    the entry point, stores what the entry point hands back where SOEM
    stores it, and records the call.  What the stack may touch is fixed
    by the types of the class fields: the device and group tables at
    configuration; afterwards the [state] / [ALstatuscode] members of
    device records, the input image and [ec_DCtime].  It never writes
    the output image, [islost], [group], [docheckstate] or a global of
    the program.  [ec_statecheck], [ec_reconfig_slave] and
    [ec_recover_slave] refresh the link of the one device they are
    called for; [ec_readstate] refreshes devices 0 .. [ec_slavecount];
    [ec_writestate] sends the [state] member of the device record. *)

Definition do_init (ifname : string) (w : World) : Z * World :=
  let '(r, e) := ec_init ifname (ext w) in
  (r, emit (Call_init ifname) (set_ext e w)).

Definition do_config_init (usetable : bool) (w : World) : Z * World :=
  let '((r, c), e) := ec_config_init usetable (ext w) in
  (r, emit Call_config_init (set_config c (set_ext e w))).

Definition do_config_map (w : World) : World :=
  let c := {| cfg_slavecount := ec_slavecount w; cfg_slave := ec_slave w;
              cfg_group := ec_group w |} in
  let '(c', e) := ec_config_map c (ext w) in
  emit Call_config_map (set_config c' (set_ext e w)).

Definition do_configdc (w : World) : World :=
  emit Call_configdc (set_ext (ec_configdc (ext w)) w).

Definition do_close (w : World) : World :=
  emit Call_close (set_ext (ec_close (ext w)) w).

Definition do_send (w : World) : World :=
  emit Call_send_processdata (set_ext (ec_send_processdata (outputs w) (ext w)) w).

Definition do_receive (timeout : Z) (w : World) : Z * World :=
  let '(r, e) := ec_receive_processdata timeout (inputs w) (ext w) in
  (rx_wkc r, emit (Call_receive_processdata timeout) (set_rx r (set_ext e w))).

Definition do_statecheck (slave : nat) (reqstate timeout : Z) (w : World) : World :=
  let '(l, e) := ec_statecheck slave reqstate timeout (link_of (get_slave slave w)) (ext w) in
  emit (Call_statecheck slave reqstate timeout)
       (upd_slave slave (with_link l) (set_ext e w)).

Definition do_readstate (w : World) : World :=
  let '(f, e) := ec_readstate (ext w) in
  emit Call_readstate
       (set_ec_slave
          (imap (fun i s => if Z.of_nat i <=? ec_slavecount w then with_link (f i) s else s)
                (ec_slave w))
          (set_ext e w)).

Definition do_writestate (slave : nat) (w : World) : World :=
  let req := state (get_slave slave w) in
  emit (Call_writestate slave req) (set_ext (ec_writestate slave req (ext w)) w).

Definition do_reconfig_slave (slave : nat) (timeout : Z) (w : World) : Z * World :=
  let '((r, l), e) := ec_reconfig_slave slave timeout (link_of (get_slave slave w)) (ext w) in
  (r, emit (Call_reconfig_slave slave timeout)
           (upd_slave slave (with_link l) (set_ext e w))).

Definition do_recover_slave (slave : nat) (timeout : Z) (w : World) : Z * World :=
  let '((r, l), e) := ec_recover_slave slave timeout (link_of (get_slave slave w)) (ext w) in
  (r, emit (Call_recover_slave slave timeout)
           (upd_slave slave (with_link l) (set_ext e w))).

(** ** [simpletest]: the power state machine (lines 159-176)

    [in_somanet_1->Statusword] is an [int16]; promoted to [int] and
    masked with a positive constant, only its low bits survive, which is
    what [Z.land] gives on a signed [Z]. *)

Definition DriveStateMachine (w : World) : World :=
  let sw := Statusword (inputs w) in
  if Z.land sw 0x004f =? 0x0008 then store_Controlword 0x80 w
  else if Z.land sw 0x004f =? 0x0040 then store_Controlword 0x06 w
  else if Z.land sw 0x006f =? 0x0021 then store_Controlword 0x07 w
  else if Z.land sw 0x006f =? 0x0023 then store_Controlword 0x0f w
  else if Z.land sw 0x006f =? 0x0027 then store_TargetVelocity 100 w
  else w.

(** The seven [printf]s of one accepted cycle (lines 179-191). *)
Definition print_status (i : Z) (w : World) : World :=
  let w := printf "Processdata cycle %4d , WKC %d ," [AInt i; AInt (wkc w)] w in
  let w := printf " Statusword: %X ," [AInt (Statusword (inputs w))] w in
  let w := printf " Op Mode Display: %d ," [AInt (OpModeDisplay (inputs w))] w in
  let w := printf " ActualPos: %PRId32 ," [AInt (PositionValue (inputs w))] w in
  let w := printf " ActualVel: %PRId32 ," [AInt (VelocityValue (inputs w))] w in
  let w := printf " DemandVel: %PRId32 ," [AInt (VelocityDemandValue (inputs w))] w in
  printf " T:%PRId64\r" [AInt (ec_DCtime w)] w.

(** The body of [if(wkc >= expectedWKC)] (lines 140-192). *)
Definition accepted (i j : Z) (w : World) : Z * World :=
  let j := to_int32 (j + 1) in
  let w := if j =? 1 then store_OpMode 9 w else w in
  let w := DriveStateMachine w in
  let w := print_status i w in
  (j, set_needlf true w).

(** One iteration of the cyclic loop (lines 135-194). *)
Definition cycle (i j : Z) (w : World) : Z * World :=
  let w := do_send w in
  let '(r, w) := do_receive EC_TIMEOUTRET w in
  let w := set_wkc r w in
  let '(j, w) := if expectedWKC w <=? wkc w then accepted i j w else (j, w) in
  (j, emit (Usleep 5000) w).

(** [for(i = ...; ...; i++)] with [n] iterations left. *)
Fixpoint cyclic_loop (n : nat) (i j : Z) (w : World) : Z * World :=
  match n with
  | O => (j, w)
  | S n' => let '(j', w') := cycle i j w in cyclic_loop n' (i + 1) j' w'
  end.

(** The [do ... while (chk-- && ...)] of lines 112-118; [chk] is the
    value the post-decrement tests. *)
Fixpoint wait_operational (chk : nat) (w : World) : World :=
  let w := do_send w in
  let '(_, w) := do_receive EC_TIMEOUTRET w in
  let w := do_statecheck 0 EC_STATE_OPERATIONAL 50000 w in
  match chk with
  | O => w
  | S chk' =>
      if negb (state (get_slave 0 w) =? EC_STATE_OPERATIONAL)
      then wait_operational chk' w
      else w
  end.

(** The diagnostic loop of lines 202-209, [n] iterations left. *)
Fixpoint report_slaves (n : nat) (i : nat) (w : World) : World :=
  match n with
  | O => w
  | S n' =>
      let s := get_slave i w in
      let w :=
        if negb (state s =? EC_STATE_OPERATIONAL)
        then printf "Slave %d State=0x%2.2x StatusCode=0x%4.4x : %s\n"
                    [AInt (Z.of_nat i); AInt (state s); AInt (ALstatuscode s);
                     AStr (ec_ALstatuscode2string (ALstatuscode s))] w
        else w in
      report_slaves n' (S i) w
  end.

(** Lines 121-196. *)
Definition cyclic_phase (w : World) : World :=
  let w := printf "Operational state reached for all slaves.\n" [] w in
  let w := set_inOP true w in
  let '(_, w) := cyclic_loop (Z.to_nat 10000) 1 0 w in
  set_inOP false w.

(** Lines 200-209. *)
Definition operational_timeout (w : World) : World :=
  let w := printf "Not all slaves reached operational state.\n" [] w in
  let w := do_readstate w in
  report_slaves (Z.to_nat (ec_slavecount w)) 1 w.

(** Lines 211-214. *)
Definition request_init (w : World) : World :=
  let w := printf "\nRequest init state for all slaves\n" [] w in
  let w := upd_slave 0 (with_state (to_uint16 EC_STATE_INIT)) w in
  do_writestate 0 w.

(** Lines 89-99: mapping, up to the wait for SAFE_OP. *)
Definition map_slaves (w : World) : World :=
  let w := printf "%d slaves found and configured.\n" [AInt (ec_slavecount w)] w in
  let w := do_config_map w in
  let w := do_configdc w in
  let w := printf "Slaves mapped, state to SAFE_OP.\n" [] w in
  let w := do_statecheck 0 EC_STATE_SAFE_OP (EC_TIMEOUTSTATE * 4) w in
  let g := get_group 0 w in
  printf "segments : %d : %d %d %d %d\n"
         [AInt (nsegments g); AInt (nth 0 (IOsegment g) 0);
          AInt (nth 1 (IOsegment g) 0); AInt (nth 2 (IOsegment g) 0);
          AInt (nth 3 (IOsegment g) 0)] w.

(** Lines 101-109: the expected working counter and the request for OP. *)
Definition request_operational (w : World) : World :=
  let w := printf "Request operational state for all slaves\n" [] w in
  let w := set_expectedWKC
             (to_int32 (outputsWKC (get_group 0 w) * 2 + inputsWKC (get_group 0 w))) w in
  let w := printf "Calculated workcounter %d\n" [AInt (expectedWKC w)] w in
  let w := upd_slave 0 (with_state (to_uint16 EC_STATE_OPERATIONAL)) w in
  let w := do_send w in
  let '(_, w) := do_receive EC_TIMEOUTRET w in
  do_writestate 0 w.

(** Lines 110-214: the wait for OP, then either the cyclic phase or the
    diagnostics, then the request for INIT. *)
Definition control (w : World) : World :=
  let w := wait_operational 200 w in
  let w :=
    if state (get_slave 0 w) =? EC_STATE_OPERATIONAL
    then cyclic_phase w
    else operational_timeout w in
  request_init w.

(** Lines 89-214: the branch taken when slaves were found. *)
Definition configured (w : World) : World :=
  control (request_operational (map_slaves w)).

(** Lines 75-227. *)
Definition simpletest (ifname : string) (w : World) : World :=
  let w := set_needlf false w in
  let w := set_inOP false w in
  let w := printf "Starting simple test\n" [] w in
  let '(r, w) := do_init ifname w in
  if negb (r =? 0) then
    let w := printf "ec_init on %s succeeded.\n" [AStr ifname] w in
    let '(n, w) := do_config_init false w in
    let w :=
      if 0 <? n then configured w
      else printf "No slaves found!\n" [] w in
    let w := printf "End simple test, close socket\n" [] w in
    do_close w
  else
    printf "No socket connection on %s\nExcecute as root\n" [AStr ifname] w.

(** ** [ecatcheck]: the supervisor *)

(** The condition of line 237. *)
Definition wake (w : World) : bool :=
  inOP w && ((wkc w <? expectedWKC w) || docheckstate (get_group currentgroup w)).

(** Lines 249-282: the action for a device of the group that is not
    operational. *)
Definition primary_action (slave : nat) (w : World) : World :=
  let w := upd_group currentgroup (with_docheckstate true) w in
  if state (get_slave slave w) =? EC_STATE_SAFE_OP + EC_STATE_ERROR then
    let w := printf "ERROR : slave %d is in SAFE_OP + ERROR, attempting ack.\n"
                    [AInt (Z.of_nat slave)] w in
    let w := upd_slave slave (with_state (to_uint16 (EC_STATE_SAFE_OP + EC_STATE_ACK))) w in
    do_writestate slave w
  else if state (get_slave slave w) =? EC_STATE_SAFE_OP then
    let w := printf "WARNING : slave %d is in SAFE_OP, change to OPERATIONAL.\n"
                    [AInt (Z.of_nat slave)] w in
    let w := upd_slave slave (with_state (to_uint16 EC_STATE_OPERATIONAL)) w in
    do_writestate slave w
  else if EC_STATE_NONE <? state (get_slave slave w) then
    let '(r, w) := do_reconfig_slave slave EC_TIMEOUTMON w in
    if negb (r =? 0) then
      let w := upd_slave slave (with_islost false) w in
      printf "MESSAGE : slave %d reconfigured\n" [AInt (Z.of_nat slave)] w
    else w
  else if negb (islost (get_slave slave w)) then
    let w := do_statecheck slave EC_STATE_OPERATIONAL EC_TIMEOUTRET w in
    if state (get_slave slave w) =? EC_STATE_NONE then
      let w := upd_slave slave (with_islost true) w in
      printf "ERROR : slave %d lost\n" [AInt (Z.of_nat slave)] w
    else w
  else w.

(** Lines 283-298: the action for a device marked lost. *)
Definition lost_action (slave : nat) (w : World) : World :=
  if state (get_slave slave w) =? EC_STATE_NONE then
    let '(r, w) := do_recover_slave slave EC_TIMEOUTMON w in
    if negb (r =? 0) then
      let w := upd_slave slave (with_islost false) w in
      printf "MESSAGE : slave %d recovered\n" [AInt (Z.of_nat slave)] w
    else w
  else
    let w := upd_slave slave (with_islost false) w in
    printf "MESSAGE : slave %d found\n" [AInt (Z.of_nat slave)] w.

(** The body of the [for] loop over the devices (lines 249-298). *)
Definition check_slave (slave : nat) (w : World) : World :=
  let w :=
    if (group (get_slave slave w) =? currentgroup)
       && negb (state (get_slave slave w) =? EC_STATE_OPERATIONAL)
    then primary_action slave w
    else w in
  if islost (get_slave slave w) then lost_action slave w else w.

(** [for (slave = ...; slave <= ec_slavecount; slave++)], [n] iterations left. *)
Fixpoint check_slaves (n : nat) (slave : nat) (w : World) : World :=
  match n with
  | O => w
  | S n' => check_slaves n' (S slave) (check_slave slave w)
  end.

(** The body of the [if] of line 237 (lines 239-301). *)
Definition sweep (w : World) : World :=
  let w := if needlf w then printf "\n" [] (set_needlf false w) else w in
  let w := upd_group currentgroup (with_docheckstate false) w in
  let w := do_readstate w in
  let w := check_slaves (Z.to_nat (ec_slavecount w)) 1 w in
  if negb (docheckstate (get_group currentgroup w))
  then printf "OK : all slaves resumed OPERATIONAL.\n" [] w
  else w.

(** One iteration of [while(1)] (lines 237-303). *)
Definition ecatcheck_iter (w : World) : World :=
  let w := if wake w then sweep w else w in
  emit (Usleep 10000) w.

(** The first [n] iterations of the supervisor. *)
Fixpoint ecatcheck (n : nat) (w : World) : World :=
  match n with
  | O => w
  | S n' => ecatcheck n' (ecatcheck_iter w)
  end.

(** ** Vocabulary of the properties *)

(** The state machine as the ordered table of section 4.1:
    (mask, expected pattern, command). *)
Inductive command :=
| SetControlword (v : Z)
| SetTargetVelocity (v : Z).

Definition transitions : list (Z * Z * command) :=
  [ (0x004f, 0x0008, SetControlword 0x0080);
    (0x004f, 0x0040, SetControlword 0x0006);
    (0x006f, 0x0021, SetControlword 0x0007);
    (0x006f, 0x0023, SetControlword 0x000f);
    (0x006f, 0x0027, SetTargetVelocity 100) ].

Definition matches (sw : Z) (t : Z * Z * command) : bool :=
  Z.land sw (fst (fst t)) =? snd (fst t).

Definition first_match (sw : Z) : option (Z * Z * command) :=
  List.find (matches sw) transitions.

Definition apply_command (c : command) (w : World) : World :=
  match c with
  | SetControlword v => store_Controlword v w
  | SetTargetVelocity v => store_TargetVelocity v w
  end.

(** The store a command makes, and the stores of the state machine on
    status word [sw]: that of the first matching entry, if any. *)
Definition command_event (c : command) : event :=
  match c with
  | SetControlword v => Store_Controlword v
  | SetTargetVelocity v => Store_TargetVelocity v
  end.

Definition machine_stores (sw : Z) : list event :=
  match first_match sw with
  | Some t => [command_event (snd t)]
  | None => []
  end.

(** The chain of lines 159-176 with every [else] removed. *)
Definition DriveStateMachine_ifs (w : World) : World :=
  let w := if Z.land (Statusword (inputs w)) 0x004f =? 0x0008
           then store_Controlword 0x80 w else w in
  let w := if Z.land (Statusword (inputs w)) 0x004f =? 0x0040
           then store_Controlword 0x06 w else w in
  let w := if Z.land (Statusword (inputs w)) 0x006f =? 0x0021
           then store_Controlword 0x07 w else w in
  let w := if Z.land (Statusword (inputs w)) 0x006f =? 0x0023
           then store_Controlword 0x0f w else w in
  if Z.land (Statusword (inputs w)) 0x006f =? 0x0027
  then store_TargetVelocity 100 w else w.

(** The working counter the exchange of the coming cycle returns. *)
Definition observed_wkc (w : World) : Z :=
  rx_wkc (fst (ec_receive_processdata EC_TIMEOUTRET (inputs w)
                 (ec_send_processdata (outputs w) (ext w)))).

(** The world after the exchange of a cycle (lines 135-136). *)
Definition exchanged (w : World) : World :=
  let w := do_send w in
  let '(r, w) := do_receive EC_TIMEOUTRET w in
  set_wkc r w.

(** A step that leaves the program's globals, the output image, the
    group table and the size of the device table alone and appends
    [evs] to the trace. *)
Definition stack_step (evs : list event) (w w' : World) : Prop :=
  expectedWKC w' = expectedWKC w
  /\ inOP w' = inOP w
  /\ needlf w' = needlf w
  /\ outputs w' = outputs w
  /\ ec_slavecount w' = ec_slavecount w
  /\ length (ec_slave w') = length (ec_slave w)
  /\ ec_group w' = ec_group w
  /\ trace w' = trace w ++ evs.

(** One pass through the body of the [do ... while] of lines 112-118. *)
Definition attempt (w : World) : World :=
  let w := do_send w in
  let '(_, w) := do_receive EC_TIMEOUTRET w in
  do_statecheck 0 EC_STATE_OPERATIONAL 50000 w.

(** The events of [k] passes through that body. *)
Definition attempts (k : nat) : list event :=
  concat (replicate k [Call_send_processdata;
                       Call_receive_processdata EC_TIMEOUTRET;
                       Call_statecheck 0 EC_STATE_OPERATIONAL 50000]).


(** The diagnostic line of device [i] (lines 206-207). *)
Definition diagnostic_line (w : World) (i : nat) : event :=
  Printf "Slave %d State=0x%2.2x StatusCode=0x%4.4x : %s\n"
         [AInt (Z.of_nat i); AInt (state (get_slave i w));
          AInt (ALstatuscode (get_slave i w));
          AStr (ec_ALstatuscode2string (ALstatuscode (get_slave i w)))].

(** One line per device, among [first .. first + n - 1], that is not
    operational. *)
Definition diagnostics_from (w : World) (first n : nat) : list event :=
  map (diagnostic_line w)
      (List.filter (fun i => negb (state (get_slave i w) =? EC_STATE_OPERATIONAL))
                   (seq first n)).

Definition diagnostics (w : World) : list event :=
  diagnostics_from w 1 (Z.to_nat (ec_slavecount w)).

(** The values stored into [OpMode], in order. *)
Fixpoint opmode_stores (t : list event) : list Z :=
  match t with
  | [] => []
  | Store_OpMode v :: t' => v :: opmode_stores t'
  | _ :: t' => opmode_stores t'
  end.

(** The stores into the output image, in order. *)
Fixpoint stores (t : list event) : list event :=
  match t with
  | [] => []
  | Store_OpMode v :: t' => Store_OpMode v :: stores t'
  | Store_Controlword v :: t' => Store_Controlword v :: stores t'
  | Store_TargetVelocity v :: t' => Store_TargetVelocity v :: stores t'
  | _ :: t' => stores t'
  end.

(** The lines printed, in order. *)
Fixpoint prints (t : list event) : list event :=
  match t with
  | [] => []
  | Printf f a :: t' => Printf f a :: prints t'
  | _ :: t' => prints t'
  end.

(** How many of the first [n] cycles met the expected working counter. *)
Fixpoint accepted_cycles (n : nat) (i j : Z) (w : World) : nat :=
  match n with
  | O => O
  | S n' =>
      let '(j', w') := cycle i j w in
      let a := expectedWKC w <=? observed_wkc w in
      ((if a then 1 else 0) + accepted_cycles n' (i + 1) j' w')%nat
  end.

(** *** The supervisor *)

(** The wake condition in the words of section 4.3. *)
Definition must_act (w : World) : Prop :=
  inOP w = true
  /\ (wkc w < expectedWKC w \/ docheckstate (get_group currentgroup w) = true).

(** A device of the active group that is not operational. *)
Definition handled (s : ec_slavet) : bool :=
  (group s =? currentgroup) && negb (state s =? EC_STATE_OPERATIONAL).

(** The recovery actions, and their selection by priority. *)
Inductive recovery :=
| Acknowledge
| Promote
| Reconfigure
| Reverify
| Nothing.

Definition select_recovery (s : ec_slavet) : recovery :=
  if state s =? EC_STATE_SAFE_OP + EC_STATE_ERROR then Acknowledge
  else if state s =? EC_STATE_SAFE_OP then Promote
  else if EC_STATE_NONE <? state s then Reconfigure
  else if negb (islost s) then Reverify
  else Nothing.

(** What the stack answers when asked about device [slave] in world [w]. *)
Definition reconfig_result (slave : nat) (w : World) : Z * link :=
  fst (ec_reconfig_slave slave EC_TIMEOUTMON (link_of (get_slave slave w)) (ext w)).

Definition recover_result (slave : nat) (w : World) : Z * link :=
  fst (ec_recover_slave slave EC_TIMEOUTMON (link_of (get_slave slave w)) (ext w)).

Definition rechecked_link (slave : nat) (w : World) : link :=
  fst (ec_statecheck slave EC_STATE_OPERATIONAL EC_TIMEOUTRET
         (link_of (get_slave slave w)) (ext w)).

(** The events of the selected action. *)
Definition primary_events (slave : nat) (w : World) : list event :=
  match select_recovery (get_slave slave w) with
  | Acknowledge =>
      [Printf "ERROR : slave %d is in SAFE_OP + ERROR, attempting ack.\n"
              [AInt (Z.of_nat slave)];
       Call_writestate slave (to_uint16 (EC_STATE_SAFE_OP + EC_STATE_ACK))]
  | Promote =>
      [Printf "WARNING : slave %d is in SAFE_OP, change to OPERATIONAL.\n"
              [AInt (Z.of_nat slave)];
       Call_writestate slave (to_uint16 EC_STATE_OPERATIONAL)]
  | Reconfigure =>
      Call_reconfig_slave slave EC_TIMEOUTMON
      :: (if fst (reconfig_result slave w) =? 0 then []
          else [Printf "MESSAGE : slave %d reconfigured\n" [AInt (Z.of_nat slave)]])
  | Reverify =>
      Call_statecheck slave EC_STATE_OPERATIONAL EC_TIMEOUTRET
      :: (if l_state (rechecked_link slave w) =? EC_STATE_NONE
          then [Printf "ERROR : slave %d lost\n" [AInt (Z.of_nat slave)]]
          else [])
  | Nothing => []
  end.

(** What the selected action does to the record of the device. *)
Definition primary_update (slave : nat) (w : World) : ec_slavet -> ec_slavet :=
  match select_recovery (get_slave slave w) with
  | Acknowledge => with_state (to_uint16 (EC_STATE_SAFE_OP + EC_STATE_ACK))
  | Promote => with_state (to_uint16 EC_STATE_OPERATIONAL)
  | Reconfigure =>
      fun s => let s := with_link (snd (reconfig_result slave w)) s in
               if fst (reconfig_result slave w) =? 0 then s else with_islost false s
  | Reverify =>
      fun s => let s := with_link (rechecked_link slave w) s in
               if state s =? EC_STATE_NONE then with_islost true s else s
  | Nothing => fun s => s
  end.

(** The events of the handling of a device marked lost, and what it
    does to the record. *)
Definition lost_events (slave : nat) (w : World) : list event :=
  if state (get_slave slave w) =? EC_STATE_NONE then
    Call_recover_slave slave EC_TIMEOUTMON
    :: (if fst (recover_result slave w) =? 0 then []
        else [Printf "MESSAGE : slave %d recovered\n" [AInt (Z.of_nat slave)]])
  else [Printf "MESSAGE : slave %d found\n" [AInt (Z.of_nat slave)]].

Definition lost_update (slave : nat) (w : World) : ec_slavet -> ec_slavet :=
  if state (get_slave slave w) =? EC_STATE_NONE then
    fun s => let s := with_link (snd (recover_result slave w)) s in
             if fst (recover_result slave w) =? 0 then s else with_islost false s
  else with_islost false.

(** The state of the stack after the selected action: the one call the
    action makes, applied to the state before it. *)
Definition primary_ext (slave : nat) (w : World) : Ext :=
  match select_recovery (get_slave slave w) with
  | Acknowledge =>
      ec_writestate slave (to_uint16 (EC_STATE_SAFE_OP + EC_STATE_ACK)) (ext w)
  | Promote => ec_writestate slave (to_uint16 EC_STATE_OPERATIONAL) (ext w)
  | Reconfigure =>
      snd (ec_reconfig_slave slave EC_TIMEOUTMON (link_of (get_slave slave w)) (ext w))
  | Reverify =>
      snd (ec_statecheck slave EC_STATE_OPERATIONAL EC_TIMEOUTRET
             (link_of (get_slave slave w)) (ext w))
  | Nothing => ext w
  end.

(** The state of the stack after the handling of a device marked lost. *)
Definition lost_ext (slave : nat) (w : World) : Ext :=
  if state (get_slave slave w) =? EC_STATE_NONE
  then snd (ec_recover_slave slave EC_TIMEOUTMON (link_of (get_slave slave w)) (ext w))
  else ext w.

(** The trace of [w'] continues the trace of [w]. *)
Definition extends (w w' : World) : Prop :=
  exists evs : list event, trace w' = trace w ++ evs.

(** A step that rewrites the record of device [i] by [f], leaves the
    other records alone and appends [evs] to the trace. *)
Definition slave_step (i : nat) (f : ec_slavet -> ec_slavet) (evs : list event)
    (w w' : World) : Prop :=
  ec_slave w' = alter f i (ec_slave w)
  /\ ec_slavecount w' = ec_slavecount w
  /\ trace w' = trace w ++ evs.

(** *** A steady environment

    No device changes its link state and the recovery calls keep their
    outcomes: whenever asked, the stack reports the link [rep i] for
    device [i], and reconfiguring / recovering it returns [rc i] /
    [rv i]. *)
Definition steady (rep : nat -> link) (rc rv : nat -> Z) : Prop :=
  (forall e i, fst (ec_readstate e) i = rep i)
  /\ (forall i r t l e, fst (ec_statecheck i r t l e) = rep i)
  /\ (forall i t l e, fst (ec_reconfig_slave i t l e) = (rc i, rep i))
  /\ (forall i t l e, fst (ec_recover_slave i t l e) = (rv i, rep i)).

(** What a sweep makes of the record [x] of device [i] in a steady
    environment: the refresh by [ec_readstate], then lines 249-282,
    then lines 283-298. *)
Definition refresh (rep : nat -> link) (n : Z) (i : nat) (x : ec_slavet) : ec_slavet :=
  if Z.of_nat i <=? n then with_link (rep i) x else x.

Definition settle_primary (rep : nat -> link) (rc : nat -> Z) (i : nat) (x : ec_slavet)
    : ec_slavet :=
  if handled x then
    match select_recovery x with
    | Acknowledge => with_state (to_uint16 (EC_STATE_SAFE_OP + EC_STATE_ACK)) x
    | Promote => with_state (to_uint16 EC_STATE_OPERATIONAL) x
    | Reconfigure =>
        if rc i =? 0 then with_link (rep i) x else with_islost false (with_link (rep i) x)
    | Reverify =>
        if l_state (rep i) =? EC_STATE_NONE
        then with_islost true (with_link (rep i) x) else with_link (rep i) x
    | Nothing => x
    end
  else x.

Definition settle_lost (rep : nat -> link) (rv : nat -> Z) (i : nat) (x : ec_slavet)
    : ec_slavet :=
  if islost x then
    if state x =? EC_STATE_NONE then
      if rv i =? 0 then with_link (rep i) x else with_islost false (with_link (rep i) x)
    else with_islost false x
  else x.

Definition settle (rep : nat -> link) (rc rv : nat -> Z) (i : nat) (x : ec_slavet)
    : ec_slavet :=
  settle_lost rep rv i (settle_primary rep rc i x).

Definition swept (rep : nat -> link) (rc rv : nat -> Z) (n : Z) (i : nat) (x : ec_slavet)
    : ec_slavet :=
  if Nat.leb 1 i && Nat.leb i (Z.to_nat n)
  then settle rep rc rv i (refresh rep n i x)
  else refresh rep n i x.

(** A state request fits the record of its device when it is the
    acknowledge sent to a device in SAFE_OP + ERROR or the promotion
    sent to a device in SAFE_OP. *)
Definition fitting_request (x : ec_slavet) (r : Z) : Prop :=
  state x <> EC_STATE_OPERATIONAL
  /\ ((state x = EC_STATE_SAFE_OP + EC_STATE_ERROR
       /\ r = to_uint16 (EC_STATE_SAFE_OP + EC_STATE_ACK))
      \/ (state x = EC_STATE_SAFE_OP /\ r = to_uint16 EC_STATE_OPERATIONAL)).

(** Some device among [first .. first + n - 1] of the table [l] is one
    the sweep handles. *)
Definition any_handled (l : list ec_slavet) (first n : nat) : bool :=
  existsb (fun i => handled (default slave0 (l !! i))) (seq first n).

(** *** After the control phase *)

(** What [simpletest] still does once the cyclic loop is over and [inOP]
    is cleared (lines 211-222), one store or call at a time. *)
Definition after_control : list (World -> World) :=
  [ printf "\nRequest init state for all slaves\n" [];
    upd_slave 0 (with_state (to_uint16 EC_STATE_INIT));
    do_writestate 0;
    printf "End simple test, close socket\n" [];
    do_close ].

Definition run (steps : list (World -> World)) (w : World) : World :=
  fold_left (fun w f => f w) steps w.

(** *** The supervisor, statement by statement

    [ecatcheck] runs in a thread of its own, beside [simpletest].  To
    interleave the two, an iteration of its loop is cut at its
    statements: the test of line 237, the line feed (lines 239-243),
    the clearing of the re-check flag (line 245), the refresh (line
    246), the test of the [for] of line 247 together with the turn of
    one device (lines 249-298), the verdict (lines 300-301) and the
    sleep (line 303).  [sup_pc] names the statement that comes next. *)
Inductive sup_pc :=
| AtTest
| AtLinefeed
| AtClear
| AtRead
| AtDevice (slave : nat)
| AtVerdict
| AtSleep.

Definition sup_step (p : sup_pc * World) : sup_pc * World :=
  let w := snd p in
  match fst p with
  | AtTest => (if wake w then AtLinefeed else AtSleep, w)
  | AtLinefeed => (AtClear, if needlf w then printf "\n" [] (set_needlf false w) else w)
  | AtClear => (AtRead, upd_group currentgroup (with_docheckstate false) w)
  | AtRead => (AtDevice 1, do_readstate w)
  | AtDevice slave =>
      if Z.of_nat slave <=? ec_slavecount w
      then (AtDevice (S slave), check_slave slave w)
      else (AtVerdict, w)
  | AtVerdict =>
      (AtSleep,
       if negb (docheckstate (get_group currentgroup w))
       then printf "OK : all slaves resumed OPERATIONAL.\n" [] w
       else w)
  | AtSleep => (AtTest, emit (Usleep 10000) w)
  end.

Fixpoint sup_steps (k : nat) (p : sup_pc * World) : sup_pc * World :=
  match k with
  | O => p
  | S k' => sup_steps k' (sup_step p)
  end.

(** The supervisor is not inside a sweep. *)
Definition idle (pc : sup_pc) : bool :=
  match pc with
  | AtTest | AtSleep => true
  | _ => false
  end.

(** The cyclic phase up to the end of its [n]-th cycle (lines 121-195):
    the notice, [inOP = TRUE], then [n] cycles. *)
Definition cyclic_prefix (n : nat) (w : World) : World :=
  let w := printf "Operational state reached for all slaves.\n" [] w in
  let w := set_inOP true w in
  snd (cyclic_loop n 1 0 w).

(** Line 196 and what follows it in [simpletest]. *)
Definition closing : list (World -> World) := set_inOP false :: after_control.

(** The two threads interleaved: [true] lets the supervisor make its
    next step, [false] lets [simpletest] make its next step; when the
    schedule is used up [simpletest] runs to its end. *)
Fixpoint interleave (sched : list bool) (steps : list (World -> World))
    (p : sup_pc * World) : sup_pc * World :=
  match sched with
  | [] => (fst p, run steps (snd p))
  | true :: sched' => interleave sched' steps (sup_step p)
  | false :: sched' =>
      match steps with
      | [] => interleave sched' [] p
      | f :: steps' => interleave sched' steps' (fst p, f (snd p))
      end
  end.

(** A trace without its sleeps. *)
Fixpoint awake (t : list event) : list event :=
  match t with
  | [] => []
  | Usleep _ :: t' => awake t'
  | e :: t' => e :: awake t'
  end.

(** Two worlds that differ at most in when the threads slept. *)
Definition same_but_sleep (w w' : World) : Prop :=
  expectedWKC w' = expectedWKC w
  /\ needlf w' = needlf w
  /\ wkc w' = wkc w
  /\ inOP w' = inOP w
  /\ ec_slavecount w' = ec_slavecount w
  /\ ec_slave w' = ec_slave w
  /\ ec_group w' = ec_group w
  /\ ec_DCtime w' = ec_DCtime w
  /\ inputs w' = inputs w
  /\ outputs w' = outputs w
  /\ ext w' = ext w
  /\ awake (trace w') = awake (trace w).

(** *** The rest of the program *)

(** [main] (lines 307-326).  [osal_thread_create] starts [ecatcheck] in
    a thread of its own; the result records whether it was called,
    beside the exit status and the world [main] leaves. *)
Record exit := {
  exit_status : Z;
  thread_created : bool;
  exit_world : World
}.

Definition main (argv : list string) (w : World) : exit :=
  let w := printf "SOEM (Simple Open EtherCAT Master)\nSimple test\n" [] w in
  if 1 <? Z.of_nat (length argv) then
    let w := simpletest (nth 1 argv EmptyString) w in
    {| exit_status := 0; thread_created := true;
       exit_world := printf "End program\n" [] w |}
  else
    let w := printf "Usage: simple_test ifname1\nifname = eth0 for example\n" [] w in
    {| exit_status := 0; thread_created := false;
       exit_world := printf "End program\n" [] w |}.

(** The calls into the stack, in order. *)
Definition is_call (e : event) : bool :=
  match e with
  | Printf _ _ | Store_OpMode _ | Store_Controlword _ | Store_TargetVelocity _
  | Usleep _ => false
  | _ => true
  end.

Definition calls (t : list event) : list event := List.filter is_call t.

(** The process-data exchanges, in order. *)
Definition is_exchange (e : event) : bool :=
  match e with
  | Call_send_processdata | Call_receive_processdata _ => true
  | _ => false
  end.

Definition exchanges (t : list event) : list event := List.filter is_exchange t.

(** What the exchange of the coming cycle delivers. *)
Definition received (w : World) : rx :=
  fst (ec_receive_processdata EC_TIMEOUTRET (inputs w)
         (ec_send_processdata (outputs w) (ext w))).

(** The status line of cycle [i] for the delivery [r] (lines 179-191). *)
Definition status_line (i : Z) (r : rx) : list event :=
  [ Printf "Processdata cycle %4d , WKC %d ," [AInt i; AInt (rx_wkc r)];
    Printf " Statusword: %X ," [AInt (Statusword (rx_inputs r))];
    Printf " Op Mode Display: %d ," [AInt (OpModeDisplay (rx_inputs r))];
    Printf " ActualPos: %PRId32 ," [AInt (PositionValue (rx_inputs r))];
    Printf " ActualVel: %PRId32 ," [AInt (VelocityValue (rx_inputs r))];
    Printf " DemandVel: %PRId32 ," [AInt (VelocityDemandValue (rx_inputs r))];
    Printf " T:%PRId64\r" [AInt (rx_DCtime r)] ].

(** The members of the output image that the program never assigns
    keep their values from [o] to [o']. *)
Definition other_members_kept (o o' : out_somanet_42t) : Prop :=
  TargetTorque o' = TargetTorque o
  /\ TargetPosition o' = TargetPosition o
  /\ TorqueOffset o' = TorqueOffset o
  /\ TuningCommand o' = TuningCommand o
  /\ DigitalOutput1 o' = DigitalOutput1 o
  /\ DigitalOutput2 o' = DigitalOutput2 o
  /\ DigitalOutput3 o' = DigitalOutput3 o
  /\ DigitalOutput4 o' = DigitalOutput4 o
  /\ UserMOSI o' = UserMOSI o
  /\ VelocityOffset o' = VelocityOffset o.

(** What the cyclic loop may have done to the output image [o] by the
    time it is [o']: the mode set to 9, the control word set to one of
    the four commands, the target velocity set to 100; nothing else. *)
Definition commanded (o o' : out_somanet_42t) : Prop :=
  (OpMode o' = OpMode o \/ OpMode o' = 9)
  /\ (Controlword o' = Controlword o \/ In (Controlword o') [0x80; 0x06; 0x07; 0x0f])
  /\ (TargetVelocity o' = TargetVelocity o \/ TargetVelocity o' = 100)
  /\ TargetTorque o' = TargetTorque o
  /\ TargetPosition o' = TargetPosition o
  /\ TorqueOffset o' = TorqueOffset o
  /\ TuningCommand o' = TuningCommand o
  /\ DigitalOutput1 o' = DigitalOutput1 o
  /\ DigitalOutput2 o' = DigitalOutput2 o
  /\ DigitalOutput3 o' = DigitalOutput3 o
  /\ DigitalOutput4 o' = DigitalOutput4 o
  /\ UserMOSI o' = UserMOSI o
  /\ VelocityOffset o' = VelocityOffset o.

(** The device and group tables are as before. *)
Definition same_tables (w w' : World) : Prop :=
  ec_slave w' = ec_slave w
  /\ ec_group w' = ec_group w
  /\ ec_slavecount w' = ec_slavecount w.

(** What the supervisor has no business with is as before: the globals
    of the cyclic loop, both process images, the stores into the output
    image and the exchanges on the trace. *)
Definition cyclic_side_kept (w w' : World) : Prop :=
  expectedWKC w' = expectedWKC w
  /\ wkc w' = wkc w
  /\ inOP w' = inOP w
  /\ inputs w' = inputs w
  /\ outputs w' = outputs w
  /\ ec_DCtime w' = ec_DCtime w
  /\ ec_slavecount w' = ec_slavecount w
  /\ stores (trace w') = stores (trace w)
  /\ exchanges (trace w') = exchanges (trace w).

(** The same, and [needlf] is as before too. *)
Definition recovery_step_kept (w w' : World) : Prop :=
  cyclic_side_kept w w' /\ needlf w' = needlf w.

End Program.

(** ** A simulated stack

    A master with SOEM's constants whose devices keep reporting the
    links [rep], whose reconfigure / recover calls return [rc] / [rv],
    and whose exchange returns the working counter [wk] and the status
    word [sw]. *)

Definition sim_inputs (sw : Z) : in_somanet_42t :=
  {| Statusword := sw; OpModeDisplay := 0; PositionValue := 0; VelocityValue := 0;
     TorqueValue := 0; SecPositionValue := 0; SecVelocityValue := 0;
     AnalogInput1 := 0; AnalogInput2 := 0; AnalogInput3 := 0; AnalogInput4 := 0;
     TuningStatus := 0; DigitalInput1 := 0; DigitalInput2 := 0; DigitalInput3 := 0;
     DigitalInput4 := 0; UserMISO := 0; Timestamp := 0;
     PositionDemandInternalValue := 0; VelocityDemandValue := 0; TorqueDemand := 0 |}.

Definition sim_outputs : out_somanet_42t :=
  {| Controlword := 0; OpMode := 0; TargetTorque := 0; TargetPosition := 0;
     TargetVelocity := 0; TorqueOffset := 0; TuningCommand := 0;
     DigitalOutput1 := 0; DigitalOutput2 := 0; DigitalOutput3 := 0;
     DigitalOutput4 := 0; UserMOSI := 0; VelocityOffset := 0 |}.

Definition sim_master (rep : nat -> link) (rc rv : nat -> Z) (wk sw : Z) : Master :=
  {| Ext := unit;
     EC_STATE_NONE := 0x00;
     EC_STATE_INIT := 0x01;
     EC_STATE_SAFE_OP := 0x04;
     EC_STATE_OPERATIONAL := 0x08;
     EC_STATE_ACK := 0x10;
     EC_STATE_ERROR := 0x10;
     EC_TIMEOUTRET := 2000;
     EC_TIMEOUTSTATE := 2000000;
     ec_init := fun _ e => (1, e);
     ec_config_init := fun _ e =>
       ((1, {| cfg_slavecount := 1;
               cfg_slave := [with_link (rep 0%nat) slave0; with_link (rep 1%nat) slave0];
               cfg_group := [group0] |}), e);
     ec_config_map := fun c e => (c, e);
     ec_configdc := fun e => e;
     ec_close := fun e => e;
     ec_send_processdata := fun _ e => e;
     ec_receive_processdata := fun _ _ e =>
       ({| rx_wkc := wk; rx_inputs := sim_inputs sw; rx_DCtime := 0 |}, e);
     ec_statecheck := fun i _ _ _ e => (rep i, e);
     ec_readstate := fun e => (rep, e);
     ec_writestate := fun _ _ e => e;
     ec_reconfig_slave := fun i _ _ e => ((rc i, rep i), e);
     ec_recover_slave := fun i _ _ e => ((rv i, rep i), e);
     ec_ALstatuscode2string := fun _ => EmptyString |}.

Definition sim_group (o i : Z) : ec_groupt :=
  {| outputsWKC := o; inputsWKC := i; docheckstate := false;
     nsegments := 1; IOsegment := [] |}.

Definition sim_world (M : Master) (e : @Ext M) (expected : Z) (sw : Z)
    (slaves : list ec_slavet) (g : ec_groupt) : @World M :=
  {| expectedWKC := expected; needlf := false; wkc := 0; inOP := true;
     ec_slavecount := Z.of_nat (length slaves) - 1;
     ec_slave := slaves; ec_group := [g]; ec_DCtime := 0;
     inputs := sim_inputs sw; outputs := sim_outputs;
     ext := e; trace := [] |}.

(** Concrete stacks and worlds on which the properties are exercised. *)

Definition op_link : link := {| l_state := 0x08; l_ALstatuscode := 0 |}.

Definition safeop_link : link := {| l_state := 0x04; l_ALstatuscode := 0 |}.

(** All devices operational; the exchange returns working counter 3 and
    status word 0x0008. *)
Definition sim_ok : Master :=
  sim_master (fun _ => op_link) (fun _ => 0) (fun _ => 0) 3 0x0008.

(** The same, with status word 0x0040. *)
Definition sim_disabled : Master :=
  sim_master (fun _ => op_link) (fun _ => 0) (fun _ => 0) 3 0x0040.

(** The exchange returns working counter 6. *)
Definition sim_low : Master :=
  sim_master (fun _ => op_link) (fun _ => 0) (fun _ => 0) 6 0x0008.

(** The devices stay in SAFE_OP; reconfiguring and recovering fail. *)
Definition sim_stuck : Master :=
  sim_master (fun _ => safeop_link) (fun _ => 0) (fun _ => 0) 3 0x0008.

Definition two_slaves : list ec_slavet := [slave0; with_link op_link slave0].

Definition w_fault : @World sim_ok :=
  sim_world sim_ok tt 3 0x0008 two_slaves (sim_group 1 1).

Definition w_disabled : @World sim_disabled :=
  sim_world sim_disabled tt 3 0x0040 two_slaves (sim_group 1 1).

Definition w_low : @World sim_low :=
  sim_world sim_low tt 7 0x0008 two_slaves (sim_group 2 3).

Definition w_stuck : @World sim_stuck :=
  sim_world sim_stuck tt 3 0x0008 two_slaves (sim_group 1 1).

Definition w_error : @World sim_ok :=
  sim_world sim_ok tt 3 0x0008
    [slave0; {| state := 0x14; ALstatuscode := 0; group := 0; islost := true |}]
    (sim_group 1 1).

(** A stack whose [ec_init] returns [init] and whose [ec_config_init]
    returns [found]; the rest as in [sim_ok]. *)
Definition sim_startup (init found : Z) : Master :=
  {| Ext := unit;
     EC_STATE_NONE := 0x00;
     EC_STATE_INIT := 0x01;
     EC_STATE_SAFE_OP := 0x04;
     EC_STATE_OPERATIONAL := 0x08;
     EC_STATE_ACK := 0x10;
     EC_STATE_ERROR := 0x10;
     EC_TIMEOUTRET := 2000;
     EC_TIMEOUTSTATE := 2000000;
     ec_init := fun _ e => (init, e);
     ec_config_init := fun _ e =>
       ((found, {| cfg_slavecount := found; cfg_slave := [slave0];
                   cfg_group := [group0] |}), e);
     ec_config_map := fun c e => (c, e);
     ec_configdc := fun e => e;
     ec_close := fun e => e;
     ec_send_processdata := fun _ e => e;
     ec_receive_processdata := fun _ _ e =>
       ({| rx_wkc := 3; rx_inputs := sim_inputs 0x0008; rx_DCtime := 0 |}, e);
     ec_statecheck := fun _ _ _ _ e => (op_link, e);
     ec_readstate := fun e => (fun _ => op_link, e);
     ec_writestate := fun _ _ e => e;
     ec_reconfig_slave := fun _ _ _ e => ((0, op_link), e);
     ec_recover_slave := fun _ _ _ e => ((0, op_link), e);
     ec_ALstatuscode2string := fun _ => EmptyString |}.

(** No socket. *)
Definition w_closed : @World (sim_startup 0 0) :=
  sim_world (sim_startup 0 0) tt 0 0 [slave0] group0.

(** A socket, and no slave on the bus. *)
Definition w_empty : @World (sim_startup 1 0) :=
  sim_world (sim_startup 1 0) tt 0 0 [slave0] group0.

Definition none_link : link := {| l_state := 0x00; l_ALstatuscode := 0 |}.

(** The devices do not answer; reconfiguring and recovering fail. *)
Definition sim_gone : Master :=
  sim_master (fun _ => none_link) (fun _ => 0) (fun _ => 0) 3 0x0008.

Definition w_gone : @World sim_gone :=
  sim_world sim_gone tt 3 0x0008 [slave0; slave0] (sim_group 1 1).

(** Worlds whose input image shows a drive switched on, and one with
    operation enabled. *)
Definition w_switched_on : @World sim_ok :=
  sim_world sim_ok tt 3 0x0023 two_slaves (sim_group 1 1).

Definition w_enabled : @World sim_ok :=
  sim_world sim_ok tt 3 0x0027 two_slaves (sim_group 1 1).

(** * Properties *)

Section StateMachine.

Context {M : Master}.

Lemma land_4f_of_6f (sw : Z) : Z.land sw 0x4f = Z.land (Z.land sw 0x6f) 0x4f.
Proof. rewrite <- Z.land_assoc. reflexivity. Qed.

(** The five conditions, as booleans over the two masked views. *)
Lemma masked_views (sw : Z) :
  exists a b : Z,
    Z.land sw 0x4f = a /\ Z.land sw 0x6f = b /\ a = Z.land b 0x4f.
Proof. exists (Z.land sw 0x4f), (Z.land sw 0x6f). auto using land_4f_of_6f. Qed.

Ltac split_views sw :=
  destruct (masked_views sw) as (a & b & -> & -> & Hab);
  destruct (Z.eqb_spec a 8); destruct (Z.eqb_spec a 64);
  destruct (Z.eqb_spec b 33); destruct (Z.eqb_spec b 35);
  destruct (Z.eqb_spec b 39); subst; simpl in *;
  try discriminate; try lia.

Lemma at_most_one_match (sw : Z) :
  (length (List.filter (matches sw) transitions) <= 1)%nat.
Proof.
  unfold transitions, matches; simpl.
  split_views sw.
Qed.

Lemma inputs_store_Controlword v (w : World) :
  inputs (store_Controlword v w) = inputs w.
Proof. reflexivity. Qed.

Lemma DriveStateMachine_table (w : World) :
  DriveStateMachine w =
    match first_match (Statusword (inputs w)) with
    | Some t => apply_command (snd t) w
    | None => w
    end.
Proof.
  unfold DriveStateMachine, first_match, transitions, matches; simpl.
  repeat match goal with
         | |- context [Z.eqb ?x ?y] => destruct (Z.eqb x y)
         end; reflexivity.
Qed.

(** C9.  For every status word at most one of the five conditions
    holds, so the chain without its [else]s computes the same world as
    the chain of [simpletest]. *)
Theorem DriveStateMachine_conditions_exclusive (w : World) :
  (length (List.filter (matches (Statusword (inputs w))) transitions) <= 1)%nat
  /\ (forall sw : Z, (length (List.filter (matches sw) transitions) <= 1)%nat)
  /\ DriveStateMachine_ifs w = DriveStateMachine w.
Proof.
  split; [apply at_most_one_match|].
  split; [apply at_most_one_match|].
  unfold DriveStateMachine_ifs, DriveStateMachine; cbv zeta.
  destruct (masked_views (Statusword (inputs w))) as (a & b & Ha & Hb & Hab).
  rewrite Ha, Hb.
  destruct (a =? 8) eqn:E1; destruct (a =? 64) eqn:E2;
    destruct (b =? 33) eqn:E3; destruct (b =? 35) eqn:E4;
    destruct (b =? 39) eqn:E5;
    repeat (cbv iota;
            rewrite ?inputs_store_Controlword, ?Ha, ?Hb, ?E1, ?E2, ?E3, ?E4, ?E5);
    try reflexivity; exfalso; clear Ha Hb;
    rewrite ?Z.eqb_eq in *; subst; simpl in *; try discriminate; try lia.
Qed.

End StateMachine.

Section CyclicLoop.

Context {M : Master}.

Lemma opmode_stores_app (t u : list event) :
  opmode_stores (t ++ u) = opmode_stores t ++ opmode_stores u.
Proof.
  induction t as [|e t IH]; simpl; [reflexivity|].
  destruct e; simpl; rewrite IH; reflexivity.
Qed.

Lemma stores_app (t u : list event) : stores (t ++ u) = stores t ++ stores u.
Proof.
  induction t as [|e t IH]; simpl; [reflexivity|].
  destruct e; simpl; rewrite IH; reflexivity.
Qed.

Lemma prints_app (t u : list event) : prints (t ++ u) = prints t ++ prints u.
Proof.
  induction t as [|e t IH]; simpl; [reflexivity|].
  destruct e; simpl; rewrite IH; reflexivity.
Qed.

Lemma exchanged_facts (w : World) :
  wkc (exchanged w) = observed_wkc w
  /\ expectedWKC (exchanged w) = expectedWKC w
  /\ outputs (exchanged w) = outputs w
  /\ needlf (exchanged w) = needlf w
  /\ inOP (exchanged w) = inOP w
  /\ trace (exchanged w)
     = trace w ++ [Call_send_processdata; Call_receive_processdata EC_TIMEOUTRET].
Proof.
  unfold exchanged, observed_wkc, do_receive, do_send; simpl.
  destruct (ec_receive_processdata _ _ _) as [r e]; simpl.
  rewrite <- app_assoc. repeat split.
Qed.

Lemma cycle_exchanged (i j : Z) (w : World) :
  cycle i j w =
    if expectedWKC w <=? observed_wkc w
    then (fst (accepted i j (exchanged w)),
          emit (Usleep 5000) (snd (accepted i j (exchanged w))))
    else (j, emit (Usleep 5000) (exchanged w)).
Proof.
  destruct (exchanged_facts w) as (Hw & He & _).
  rewrite <- Hw, <- He.
  unfold cycle, exchanged.
  destruct (do_receive _ _) as [r w1]; simpl.
  destruct (_ <=? _); reflexivity.
Qed.

Lemma DriveStateMachine_frame (w : World) :
  expectedWKC (DriveStateMachine w) = expectedWKC w
  /\ inOP (DriveStateMachine w) = inOP w
  /\ opmode_stores (trace (DriveStateMachine w)) = opmode_stores (trace w)
  /\ prints (trace (DriveStateMachine w)) = prints (trace w).
Proof.
  unfold DriveStateMachine.
  repeat match goal with
         | |- context [Z.eqb ?x ?y] => destruct (Z.eqb x y)
         end; simpl; rewrite ?opmode_stores_app, ?prints_app; simpl;
    rewrite ?app_nil_r; auto.
Qed.

Lemma print_status_frame (i : Z) (w : World) :
  expectedWKC (print_status i w) = expectedWKC w
  /\ inOP (print_status i w) = inOP w
  /\ outputs (print_status i w) = outputs w
  /\ opmode_stores (trace (print_status i w)) = opmode_stores (trace w)
  /\ exists l1 l2 l3 l4 l5 l6 l7,
       trace (print_status i w)
       = trace w ++ [Printf "Processdata cycle %4d , WKC %d ," l1;
                     Printf " Statusword: %X ," l2;
                     Printf " Op Mode Display: %d ," l3;
                     Printf " ActualPos: %PRId32 ," l4;
                     Printf " ActualVel: %PRId32 ," l5;
                     Printf " DemandVel: %PRId32 ," l6;
                     Printf " T:%PRId64\r" l7].
Proof.
  unfold print_status, printf; simpl.
  repeat split.
  - rewrite !opmode_stores_app; simpl. rewrite !app_nil_r. reflexivity.
  - do 7 eexists. rewrite <- !app_assoc. simpl. reflexivity.
Qed.

Lemma emit_frame (e : event) (w : World) :
  expectedWKC (emit e w) = expectedWKC w
  /\ inOP (emit e w) = inOP w
  /\ outputs (emit e w) = outputs w
  /\ needlf (emit e w) = needlf w
  /\ trace (emit e w) = trace w ++ [e].
Proof. repeat split. Qed.

Lemma set_needlf_frame (b : bool) (w : World) :
  expectedWKC (set_needlf b w) = expectedWKC w
  /\ inOP (set_needlf b w) = inOP w
  /\ outputs (set_needlf b w) = outputs w
  /\ trace (set_needlf b w) = trace w.
Proof. repeat split. Qed.

Lemma store_OpMode_frame (v : Z) (w : World) :
  expectedWKC (store_OpMode v w) = expectedWKC w
  /\ inOP (store_OpMode v w) = inOP w
  /\ trace (store_OpMode v w) = trace w ++ [Store_OpMode v].
Proof. repeat split. Qed.

Lemma accepted_eq (i j : Z) (w : World) :
  accepted i j w =
    (to_int32 (j + 1),
     set_needlf true
       (print_status i
          (DriveStateMachine (if to_int32 (j + 1) =? 1 then store_OpMode 9 w else w)))).
Proof. reflexivity. Qed.

Lemma accepted_facts (i j : Z) (w : World) :
  fst (accepted i j w) = to_int32 (j + 1)
  /\ expectedWKC (snd (accepted i j w)) = expectedWKC w
  /\ inOP (snd (accepted i j w)) = inOP w
  /\ opmode_stores (trace (snd (accepted i j w)))
     = opmode_stores (trace w) ++ (if to_int32 (j + 1) =? 1 then [9] else [])
  /\ length (prints (trace (snd (accepted i j w)))) = (length (prints (trace w)) + 7)%nat.
Proof.
  rewrite accepted_eq.
  set (w1 := if to_int32 (j + 1) =? 1 then store_OpMode 9 w else w).
  cbn [fst snd].
  destruct (set_needlf_frame true (print_status i (DriveStateMachine w1)))
    as (N1 & N2 & _ & N3).
  destruct (print_status_frame i (DriveStateMachine w1)) as (P1 & P2 & _ & P3 & P4).
  destruct (DriveStateMachine_frame w1) as (D1 & D2 & D3 & D4).
  destruct P4 as (l1 & l2 & l3 & l4 & l5 & l6 & l7 & P4).
  rewrite N1, N2, N3, P1, P2, P3, P4, D1, D2, D3, prints_app, D4, length_app.
  assert (W : expectedWKC w1 = expectedWKC w /\ inOP w1 = inOP w
              /\ opmode_stores (trace w1)
                 = opmode_stores (trace w) ++ (if to_int32 (j + 1) =? 1 then [9] else [])
              /\ prints (trace w1) = prints (trace w)).
  { subst w1. destruct (to_int32 (j + 1) =? 1).
    - destruct (store_OpMode_frame 9 w) as (S1 & S2 & S3).
      rewrite S1, S2, S3, opmode_stores_app, prints_app.
      cbn [opmode_stores prints]. rewrite app_nil_r. repeat split.
    - rewrite app_nil_r. repeat split. }
  destruct W as (W1 & W2 & W3 & W4).
  rewrite W1, W2, W3, W4. repeat split.
Qed.

Lemma degraded_cycle_facts (i j : Z) (w : World) :
  observed_wkc w < expectedWKC w ->
  outputs (snd (cycle i j w)) = outputs w
  /\ fst (cycle i j w) = j
  /\ needlf (snd (cycle i j w)) = needlf w
  /\ trace (snd (cycle i j w))
     = trace w ++ [Call_send_processdata; Call_receive_processdata EC_TIMEOUTRET;
                   Usleep 5000]
  /\ stores (trace (snd (cycle i j w))) = stores (trace w)
  /\ prints (trace (snd (cycle i j w))) = prints (trace w).
Proof.
  intros H. rewrite cycle_exchanged.
  apply Z.leb_gt in H. rewrite H; cbn [fst snd].
  destruct (emit_frame (Usleep 5000) (exchanged w)) as (_ & _ & Eo & En & Et).
  destruct (exchanged_facts w) as (_ & _ & Ho & Hn & _ & Ht).
  rewrite Eo, En, Et, Ho, Hn, Ht, <- app_assoc.
  rewrite stores_app, prints_app; cbn [stores prints app].
  rewrite !app_nil_r. repeat split.
Qed.

(** C2.  In a cycle whose exchange returns a working counter strictly
    below the expected one, the output image is left as it was, the
    counter [j] of accepted cycles keeps its value, and the only events
    of the cycle are the exchange itself and the sleep: no store (the
    state machine is not evaluated) and no [printf]. *)
Theorem degraded_cycle_untouched (i j : Z) (w : World) :
  observed_wkc w < expectedWKC w ->
  outputs (snd (cycle i j w)) = outputs w
  /\ fst (cycle i j w) = j
  /\ needlf (snd (cycle i j w)) = needlf w
  /\ trace (snd (cycle i j w))
     = trace w ++ [Call_send_processdata; Call_receive_processdata EC_TIMEOUTRET;
                   Usleep 5000]
  /\ stores (trace (snd (cycle i j w))) = stores (trace w)
  /\ prints (trace (snd (cycle i j w))) = prints (trace w).
Proof. exact (degraded_cycle_facts i j w). Qed.

Lemma to_int32_small (z : Z) : -2147483648 <= z < 2147483648 -> to_int32 z = z.
Proof. intros H. unfold to_int32. rewrite Z.mod_small; lia. Qed.

Lemma cycle_facts (i j : Z) (w : World) :
  fst (cycle i j w) = (if expectedWKC w <=? observed_wkc w then to_int32 (j + 1) else j)
  /\ expectedWKC (snd (cycle i j w)) = expectedWKC w
  /\ inOP (snd (cycle i j w)) = inOP w
  /\ opmode_stores (trace (snd (cycle i j w)))
     = opmode_stores (trace w)
       ++ (if (expectedWKC w <=? observed_wkc w) && (to_int32 (j + 1) =? 1)
           then [9] else [])
  /\ (length (prints (trace (snd (cycle i j w))))
      = length (prints (trace w))
        + (if (expectedWKC w <=? observed_wkc w)%Z then 7 else 0))%nat.
Proof.
  rewrite cycle_exchanged.
  destruct (exchanged_facts w) as (_ & He & _ & _ & Hi & Ht).
  destruct (accepted_facts i j (exchanged w)) as (A1 & A2 & A3 & A4 & A5).
  destruct (accepted i j (exchanged w)) as [ja wa]; cbn [fst snd] in *.
  revert He Hi Ht A2 A3 A4 A5. generalize (exchanged w) as we. intros.
  destruct (emit_frame (Usleep 5000) wa) as (E1 & E2 & _ & _ & E3).
  destruct (emit_frame (Usleep 5000) we) as (F1 & F2 & _ & _ & F3).
  destruct (expectedWKC w <=? observed_wkc w); cbn [fst snd andb].
  - rewrite A1, E1, E2, E3, A2, A3, He, Hi, opmode_stores_app, prints_app, A4, length_app, A5.
    rewrite Ht, opmode_stores_app, prints_app, length_app.
    cbn [opmode_stores prints length app].
    rewrite ?app_nil_r. repeat split; lia.
  - rewrite F1, F2, F3, He, Hi, Ht, !opmode_stores_app, !prints_app, !length_app.
    cbn [opmode_stores prints length app].
    rewrite ?app_nil_r. repeat split; lia.
Qed.

Lemma cyclic_loop_S (n : nat) (i j : Z) (w : World) :
  cyclic_loop (S n) i j w
  = cyclic_loop n (i + 1) (fst (cycle i j w)) (snd (cycle i j w)).
Proof. cbn [cyclic_loop]. destruct (cycle i j w); reflexivity. Qed.

Lemma accepted_cycles_S (n : nat) (i j : Z) (w : World) :
  accepted_cycles (S n) i j w
  = ((if (expectedWKC w <=? observed_wkc w)%Z then 1 else 0)
     + accepted_cycles n (i + 1)%Z (fst (cycle i j w)) (snd (cycle i j w)))%nat.
Proof. cbn [accepted_cycles]. destruct (cycle i j w); reflexivity. Qed.

Lemma accepted_cycles_le (n : nat) :
  forall (i j : Z) (w : World), (accepted_cycles n i j w <= n)%nat.
Proof.
  induction n as [|n IH]; intros i j w; [reflexivity|].
  rewrite accepted_cycles_S.
  specialize (IH (i + 1) (fst (cycle i j w)) (snd (cycle i j w))).
  destruct (expectedWKC w <=? observed_wkc w); lia.
Qed.

Lemma cyclic_loop_snoc (n : nat) :
  forall (i j : Z) (w : World),
    cyclic_loop (S n) i j w
    = cycle (i + Z.of_nat n) (fst (cyclic_loop n i j w)) (snd (cyclic_loop n i j w)).
Proof.
  induction n as [|n IH]; intros i j w.
  - rewrite cyclic_loop_S. cbn [cyclic_loop fst snd].
    replace (i + Z.of_nat 0) with i by lia.
    destruct (cycle i j w); reflexivity.
  - rewrite cyclic_loop_S, IH, <- cyclic_loop_S.
    f_equal. lia.
Qed.

Lemma cyclic_loop_frame (n : nat) :
  forall (i j : Z) (w : World),
    expectedWKC (snd (cyclic_loop n i j w)) = expectedWKC w
    /\ inOP (snd (cyclic_loop n i j w)) = inOP w.
Proof.
  induction n as [|n IH]; intros i j w.
  - split; reflexivity.
  - rewrite cyclic_loop_S.
    destruct (IH (i + 1) (fst (cycle i j w)) (snd (cycle i j w))) as (-> & ->).
    destruct (cycle_facts i j w) as (_ & -> & -> & _). split; reflexivity.
Qed.

Lemma cyclic_loop_counts (n : nat) :
  forall (i j : Z) (w : World),
    0 <= j -> j + Z.of_nat n < 2147483648 ->
    fst (cyclic_loop n i j w) = j + Z.of_nat (accepted_cycles n i j w)
    /\ opmode_stores (trace (snd (cyclic_loop n i j w)))
       = opmode_stores (trace w)
         ++ (if (j =? 0) && negb (Nat.eqb (accepted_cycles n i j w) 0)
             then [9] else []).
Proof.
  induction n as [|n IH]; intros i j w Hj Hn.
  - cbn [cyclic_loop accepted_cycles fst snd Nat.eqb negb].
    rewrite andb_false_r, app_nil_r. split; [lia | reflexivity].
  - rewrite cyclic_loop_S, accepted_cycles_S.
    destruct (cycle_facts i j w) as (C1 & _ & _ & C3 & _).
    destruct (expectedWKC w <=? observed_wkc w) eqn:A; cbn [andb] in C3.
    + rewrite to_int32_small in C1, C3 by lia.
      destruct (IH (i + 1) (fst (cycle i j w)) (snd (cycle i j w)))
        as (I1 & I2); [lia | lia |].
      rewrite I1, I2, C3, C1.
      replace (j + 1 =? 0) with false by (symmetry; apply Z.eqb_neq; lia).
      cbn [andb plus Nat.eqb negb]. rewrite app_nil_r, andb_true_r.
      split; [lia|].
      replace (j + 1 =? 1) with (j =? 0); [reflexivity|].
      destruct (Z.eqb_spec j 0); [subst; reflexivity|].
      symmetry; apply Z.eqb_neq; lia.
    + destruct (IH (i + 1) (fst (cycle i j w)) (snd (cycle i j w)))
        as (I1 & I2); [lia | lia |].
      rewrite I1, I2, C3, C1, app_nil_r. cbn [plus]. split; [lia | reflexivity].
Qed.

(** The output image after the state machine, condition by condition. *)
Lemma DriveStateMachine_writes (w : World) :
  let sw := Statusword (inputs w) in
  (Z.land sw 0x004f = 0x0008 -> DriveStateMachine w = store_Controlword 0x80 w)
  /\ (Z.land sw 0x004f = 0x0040 -> DriveStateMachine w = store_Controlword 0x06 w)
  /\ (Z.land sw 0x006f = 0x0021 -> DriveStateMachine w = store_Controlword 0x07 w)
  /\ (Z.land sw 0x006f = 0x0023 -> DriveStateMachine w = store_Controlword 0x0f w)
  /\ (Z.land sw 0x006f = 0x0027 -> DriveStateMachine w = store_TargetVelocity 100 w)
  /\ (Z.land sw 0x004f <> 0x0008 -> Z.land sw 0x004f <> 0x0040 ->
      Z.land sw 0x006f <> 0x0021 -> Z.land sw 0x006f <> 0x0023 ->
      Z.land sw 0x006f <> 0x0027 -> DriveStateMachine w = w).
Proof.
  cbv zeta. unfold DriveStateMachine.
  rewrite (land_4f_of_6f (Statusword (inputs w))).
  generalize (Z.land (Statusword (inputs w)) 0x6f) as b. intros b.
  repeat split.
  - intros H. rewrite H. reflexivity.
  - intros H. rewrite H. reflexivity.
  - intros H. rewrite H. reflexivity.
  - intros H. rewrite H. reflexivity.
  - intros H. rewrite H. reflexivity.
  - intros H1 H2 H3 H4 H5.
    apply Z.eqb_neq in H1, H2, H3, H4, H5.
    rewrite H1, H2, H3, H4, H5. reflexivity.
Qed.

Lemma store_Controlword_image (v : Z) (w : World) :
  Controlword (outputs (store_Controlword v w)) = v
  /\ TargetVelocity (outputs (store_Controlword v w)) = TargetVelocity (outputs w)
  /\ OpMode (outputs (store_Controlword v w)) = OpMode (outputs w)
  /\ other_members_kept (outputs w) (outputs (store_Controlword v w)).
Proof. unfold other_members_kept. repeat split. Qed.

Lemma store_TargetVelocity_image (v : Z) (w : World) :
  TargetVelocity (outputs (store_TargetVelocity v w)) = v
  /\ Controlword (outputs (store_TargetVelocity v w)) = Controlword (outputs w)
  /\ OpMode (outputs (store_TargetVelocity v w)) = OpMode (outputs w)
  /\ other_members_kept (outputs w) (outputs (store_TargetVelocity v w)).
Proof. unfold other_members_kept. repeat split. Qed.

Lemma store_OpMode_image (v : Z) (w : World) :
  OpMode (outputs (store_OpMode v w)) = v
  /\ Controlword (outputs (store_OpMode v w)) = Controlword (outputs w)
  /\ TargetVelocity (outputs (store_OpMode v w)) = TargetVelocity (outputs w)
  /\ other_members_kept (outputs w) (outputs (store_OpMode v w))
  /\ inputs (store_OpMode v w) = inputs w.
Proof. unfold other_members_kept. repeat split. Qed.

Lemma other_members_kept_refl (o : out_somanet_42t) : other_members_kept o o.
Proof. unfold other_members_kept. repeat split. Qed.

Lemma other_members_kept_trans (o o1 o2 : out_somanet_42t) :
  other_members_kept o o1 -> other_members_kept o1 o2 -> other_members_kept o o2.
Proof.
  unfold other_members_kept.
  intros (A1 & A2 & A3 & A4 & A5 & A6 & A7 & A8 & A9 & A10)
         (B1 & B2 & B3 & B4 & B5 & B6 & B7 & B8 & B9 & B10).
  rewrite B1, B2, B3, B4, B5, B6, B7, B8, B9, B10.
  repeat split; assumption.
Qed.

(** The state machine writes [Controlword] or [TargetVelocity] and
    nothing else; what it writes depends on the input image alone. *)
Lemma DriveStateMachine_image (w : World) :
  OpMode (outputs (DriveStateMachine w)) = OpMode (outputs w)
  /\ other_members_kept (outputs w) (outputs (DriveStateMachine w))
  /\ (forall w' : World,
        inputs w' = inputs w ->
        Controlword (outputs w') = Controlword (outputs w) ->
        TargetVelocity (outputs w') = TargetVelocity (outputs w) ->
        Controlword (outputs (DriveStateMachine w'))
        = Controlword (outputs (DriveStateMachine w))
        /\ TargetVelocity (outputs (DriveStateMachine w'))
           = TargetVelocity (outputs (DriveStateMachine w))).
Proof.
  split; [|split].
  - unfold DriveStateMachine.
    repeat match goal with
           | |- context [Z.eqb ?x ?y] => destruct (Z.eqb x y)
           end; reflexivity.
  - unfold DriveStateMachine.
    repeat match goal with
           | |- context [Z.eqb ?x ?y] => destruct (Z.eqb x y)
           end;
      first [apply other_members_kept_refl
            | apply store_Controlword_image
            | apply store_TargetVelocity_image].
  - intros w' Hi Hc Ht. unfold DriveStateMachine. rewrite Hi.
    repeat match goal with
           | |- context [Z.eqb ?x ?y] => destruct (Z.eqb x y)
           end;
      unfold store_Controlword, store_TargetVelocity;
      cbn [emit set_outputs outputs with_Controlword with_TargetVelocity
           Controlword TargetVelocity];
      auto.
Qed.

(** The output image after an accepted cycle. *)
Lemma accepted_image (i j : Z) (w : World) :
  Controlword (outputs (snd (accepted i j w)))
  = Controlword (outputs (DriveStateMachine w))
  /\ TargetVelocity (outputs (snd (accepted i j w)))
     = TargetVelocity (outputs (DriveStateMachine w))
  /\ OpMode (outputs (snd (accepted i j w)))
     = (if to_int32 (j + 1) =? 1 then 9 else OpMode (outputs w))
  /\ other_members_kept (outputs w) (outputs (snd (accepted i j w))).
Proof.
  rewrite accepted_eq. cbn [snd].
  assert (W : inputs (if to_int32 (j + 1) =? 1 then store_OpMode 9 w else w) = inputs w
              /\ Controlword (outputs (if to_int32 (j + 1) =? 1
                                       then store_OpMode 9 w else w))
                 = Controlword (outputs w)
              /\ TargetVelocity (outputs (if to_int32 (j + 1) =? 1
                                          then store_OpMode 9 w else w))
                 = TargetVelocity (outputs w)
              /\ OpMode (outputs (if to_int32 (j + 1) =? 1 then store_OpMode 9 w else w))
                 = (if to_int32 (j + 1) =? 1 then 9 else OpMode (outputs w))
              /\ other_members_kept (outputs w)
                   (outputs (if to_int32 (j + 1) =? 1 then store_OpMode 9 w else w))).
  { destruct (to_int32 (j + 1) =? 1).
    - destruct (store_OpMode_image 9 w) as (A1 & A2 & A3 & A4 & A5). auto.
    - repeat split. }
  revert W. generalize (if to_int32 (j + 1) =? 1 then store_OpMode 9 w else w) as w1.
  intros w1 (W1 & W2 & W3 & W4 & W5).
  destruct (DriveStateMachine_image w) as (_ & _ & D3).
  destruct (D3 w1 W1 W2 W3) as (D4 & D5).
  destruct (DriveStateMachine_image w1) as (D1 & D2 & _).
  revert D1 D2 D4 D5. generalize (DriveStateMachine w1) as w2. intros w2 D1 D2 D4 D5.
  destruct (set_needlf_frame true (print_status i w2)) as (_ & _ & N & _).
  destruct (print_status_frame i w2) as (_ & _ & P & _).
  rewrite N, P, D4, D5, D1, W4.
  split; [reflexivity|]. split; [reflexivity|]. split; [reflexivity|].
  exact (other_members_kept_trans _ _ _ W5 D2).
Qed.

Lemma cycle_image (i j : Z) (w : World) :
  outputs (snd (cycle i j w))
  = (if expectedWKC w <=? observed_wkc w
     then outputs (snd (accepted i j (exchanged w)))
     else outputs w)
  /\ outputs (exchanged w) = outputs w
  /\ inputs (exchanged w) = rx_inputs (received w).
Proof.
  rewrite cycle_exchanged.
  destruct (exchanged_facts w) as (_ & _ & O & _).
  assert (I : inputs (exchanged w) = rx_inputs (received w)).
  { unfold exchanged, received, do_receive, do_send.
    cbn [emit set_ext ext inputs outputs].
    destruct (ec_receive_processdata _ _ _) as [r e]. reflexivity. }
  split; [|split; [exact O | exact I]].
  revert O. generalize (accepted i j (exchanged w)) as a. generalize (exchanged w) as w1.
  intros w1 a O.
  destruct (_ <=? _); cbn [snd].
  - destruct (emit_frame (Usleep 5000) (snd a)) as (_ & _ & E & _). exact E.
  - destruct (emit_frame (Usleep 5000) w1) as (_ & _ & E & _). rewrite E. exact O.
Qed.

Lemma cycle_OpMode (i j : Z) (w : World) :
  OpMode (outputs (snd (cycle i j w)))
  = (if (expectedWKC w <=? observed_wkc w) && (to_int32 (j + 1) =? 1)
     then 9 else OpMode (outputs w)).
Proof.
  destruct (cycle_image i j w) as (C & O & _). rewrite C.
  destruct (accepted_image i j (exchanged w)) as (_ & _ & A & _).
  destruct (_ <=? _); cbn [andb]; [|reflexivity].
  rewrite A, O. reflexivity.
Qed.

Lemma cyclic_loop_OpMode (n : nat) :
  forall (i j : Z) (w : World),
    0 <= j -> j + Z.of_nat n < 2147483648 ->
    OpMode (outputs (snd (cyclic_loop n i j w)))
    = (if (j =? 0) && negb (Nat.eqb (accepted_cycles n i j w) 0)
       then 9 else OpMode (outputs w)).
Proof.
  induction n as [|n IH]; intros i j w Hj Hn.
  - cbn [cyclic_loop accepted_cycles snd Nat.eqb negb].
    rewrite andb_false_r. reflexivity.
  - rewrite cyclic_loop_S, accepted_cycles_S.
    destruct (cycle_facts i j w) as (C1 & _).
    pose proof (cycle_OpMode i j w) as C2.
    destruct (expectedWKC w <=? observed_wkc w) eqn:A; cbn [andb] in C2.
    + rewrite to_int32_small in C1, C2 by lia.
      rewrite IH by lia. rewrite C1, C2.
      replace (j + 1 =? 0) with false by (symmetry; apply Z.eqb_neq; lia).
      cbn [andb plus Nat.eqb negb]. rewrite andb_true_r.
      replace (j + 1 =? 1) with (j =? 0); [reflexivity|].
      destruct (Z.eqb_spec j 0); [subst; reflexivity|].
      symmetry; apply Z.eqb_neq; lia.
    + rewrite IH by lia. rewrite C1, C2. cbn [plus]. reflexivity.
Qed.

(** C3.  Along the cyclic loop, the counter [j] equals the number of
    cycles accepted so far; a cycle writes [OpMode] exactly when it is
    accepted and [j] was still 0 before it (so [j] reaches 1 in it):
    that cycle makes the one store, of the value 9, and leaves 9 in the
    [OpMode] member of the output image, every other cycle makes no
    such store and leaves the member as it found it.  Over the whole
    loop of 10000 cycles [OpMode] is stored exactly once and ends as 9
    if some cycle is accepted; otherwise it is never stored and keeps
    the value it had before the loop. *)
Theorem OpMode_stored_once (w : World) (k : nat) :
  Z.of_nat k < 10000 ->
  let jk := fst (cyclic_loop k 1 0 w) in
  let wk := snd (cyclic_loop k 1 0 w) in
  let w' := snd (cycle (1 + Z.of_nat k) jk wk) in
  let total := accepted_cycles (Z.to_nat 10000) 1 0 w in
  let w_end := snd (cyclic_loop (Z.to_nat 10000) 1 0 w) in
  cyclic_loop (S k) 1 0 w = cycle (1 + Z.of_nat k) jk wk
  /\ jk = Z.of_nat (accepted_cycles k 1 0 w)
  /\ opmode_stores (trace w')
     = opmode_stores (trace wk)
       ++ (if (expectedWKC wk <=? observed_wkc wk) && (jk =? 0) then [9] else [])
  /\ OpMode (outputs w')
     = (if (expectedWKC wk <=? observed_wkc wk) && (jk =? 0)
        then 9 else OpMode (outputs wk))
  /\ opmode_stores (trace w_end)
     = opmode_stores (trace w) ++ (if Nat.eqb total 0 then [] else [9])
  /\ OpMode (outputs w_end) = (if Nat.eqb total 0 then OpMode (outputs w) else 9).
Proof.
  intros Hk jk wk w' total w_end.
  destruct (cyclic_loop_counts k 1 0 w) as (K1 & _); [lia | lia |].
  fold jk in K1.
  pose proof (accepted_cycles_le k 1 0 w) as Kle.
  assert (J : (if (expectedWKC wk <=? observed_wkc wk) && (to_int32 (jk + 1) =? 1)
               then true else false)
              = (expectedWKC wk <=? observed_wkc wk) && (jk =? 0)).
  { destruct (expectedWKC wk <=? observed_wkc wk); cbn [andb]; [|reflexivity].
    rewrite to_int32_small by lia.
    destruct (Z.eqb_spec jk 0) as [->|N]; [reflexivity|].
    replace (jk + 1 =? 1) with false; [reflexivity|].
    symmetry; apply Z.eqb_neq; lia. }
  split; [apply cyclic_loop_snoc|].
  split; [lia|].
  split.
  { subst w'. destruct (cycle_facts (1 + Z.of_nat k) jk wk) as (_ & _ & _ & C & _).
    rewrite C, <- J. destruct (_ && _); reflexivity. }
  split.
  { subst w'. rewrite cycle_OpMode, <- J. destruct (_ && _); reflexivity. }
  split.
  { subst w_end.
    destruct (cyclic_loop_counts (Z.to_nat 10000) 1 0 w) as (_ & T); [lia | lia |].
    rewrite T. fold total. cbn [Z.eqb andb].
    destruct (Nat.eqb total 0); reflexivity. }
  subst w_end. rewrite cyclic_loop_OpMode by lia. fold total. cbn [Z.eqb andb].
  destruct (Nat.eqb total 0); reflexivity.
Qed.

Lemma DriveStateMachine_trace (w : World) :
  trace (DriveStateMachine w) = trace w ++ machine_stores (Statusword (inputs w)).
Proof.
  rewrite DriveStateMachine_table. unfold machine_stores.
  destruct (first_match (Statusword (inputs w))) as [[[m p] c]|].
  - destruct c; reflexivity.
  - rewrite app_nil_r. reflexivity.
Qed.

Lemma machine_stores_short (sw : Z) :
  (length (machine_stores sw) <= 1)%nat /\ stores (machine_stores sw) = machine_stores sw.
Proof.
  unfold machine_stores.
  destruct (first_match sw) as [[[m p] c]|]; [destruct c|]; cbn; split; auto.
Qed.

Lemma accepted_stores (i j : Z) (w : World) :
  stores (trace (snd (accepted i j w)))
  = stores (trace w)
    ++ (if to_int32 (j + 1) =? 1 then [Store_OpMode 9] else [])
    ++ machine_stores (Statusword (inputs w)).
Proof.
  rewrite accepted_eq. cbn [snd].
  set (w1 := if to_int32 (j + 1) =? 1 then store_OpMode 9 w else w).
  destruct (set_needlf_frame true (print_status i (DriveStateMachine w1)))
    as (_ & _ & _ & N).
  destruct (print_status_frame i (DriveStateMachine w1)) as (_ & _ & _ & _ & P).
  destruct P as (l1 & l2 & l3 & l4 & l5 & l6 & l7 & P).
  rewrite N, P, stores_app, DriveStateMachine_trace, stores_app.
  cbn [stores]. rewrite app_nil_r.
  rewrite (proj2 (machine_stores_short _)).
  assert (W : inputs w1 = inputs w
              /\ stores (trace w1)
                 = stores (trace w)
                   ++ (if to_int32 (j + 1) =? 1 then [Store_OpMode 9] else [])).
  { subst w1. destruct (to_int32 (j + 1) =? 1).
    - destruct (store_OpMode_frame 9 w) as (_ & _ & T).
      rewrite T, stores_app. split; reflexivity.
    - rewrite app_nil_r. split; reflexivity. }
  destruct W as (W1 & W2). rewrite W1, W2, <- app_assoc. reflexivity.
Qed.

(** C1.  For every status word the chain of [simpletest] does what the
    ordered table of (mask, pattern) pairs prescribes for its first
    matching entry (fault reset, shutdown, switch on, enable operation,
    target velocity, in this order) and nothing when no entry matches;
    it appends at most one event, a single store, to the trace, so the
    stores of an accepted cycle are the one-time store into [OpMode],
    if due, and at most one store of the state machine.  The write
    reaches the output image: for each of the five conditions the
    member written holds the value of the command afterwards (control
    word 0x0080, 0x0006, 0x0007, 0x000F, target velocity 100) and the
    other of the two members is as before; with no condition met the
    image is unchanged; [OpMode] and the members the program never
    assigns are unchanged in all cases; and the accepted cycle that runs
    the chain ends with the control word and target velocity the chain
    left. *)
Theorem DriveStateMachine_first_match (i j : Z) (w : World) :
  let sw := Statusword (inputs w) in
  let o := outputs w in
  let o' := outputs (DriveStateMachine w) in
  let oa := outputs (snd (accepted i j w)) in
  DriveStateMachine w =
    match first_match sw with
    | Some t => apply_command (snd t) w
    | None => w
    end
  /\ trace (DriveStateMachine w) = trace w ++ machine_stores sw
  /\ (length (machine_stores sw) <= 1)%nat
  /\ stores (trace (snd (accepted i j w)))
     = stores (trace w)
       ++ (if to_int32 (j + 1) =? 1 then [Store_OpMode 9] else [])
       ++ machine_stores sw
  /\ (Z.land sw 0x004f = 0x0008 ->
      DriveStateMachine w = store_Controlword 0x0080 w
      /\ Controlword o' = 0x0080 /\ TargetVelocity o' = TargetVelocity o)
  /\ (Z.land sw 0x004f = 0x0040 ->
      DriveStateMachine w = store_Controlword 0x0006 w
      /\ Controlword o' = 0x0006 /\ TargetVelocity o' = TargetVelocity o)
  /\ (Z.land sw 0x006f = 0x0021 ->
      DriveStateMachine w = store_Controlword 0x0007 w
      /\ Controlword o' = 0x0007 /\ TargetVelocity o' = TargetVelocity o)
  /\ (Z.land sw 0x006f = 0x0023 ->
      DriveStateMachine w = store_Controlword 0x000f w
      /\ Controlword o' = 0x000f /\ TargetVelocity o' = TargetVelocity o)
  /\ (Z.land sw 0x006f = 0x0027 ->
      DriveStateMachine w = store_TargetVelocity 100 w
      /\ TargetVelocity o' = 100 /\ Controlword o' = Controlword o)
  /\ (Z.land sw 0x004f <> 0x0008 -> Z.land sw 0x004f <> 0x0040 ->
      Z.land sw 0x006f <> 0x0021 -> Z.land sw 0x006f <> 0x0023 ->
      Z.land sw 0x006f <> 0x0027 -> o' = o)
  /\ OpMode o' = OpMode o
  /\ other_members_kept o o'
  /\ Controlword oa = Controlword o'
  /\ TargetVelocity oa = TargetVelocity o'
  /\ other_members_kept o oa.
Proof.
  intros sw o o' oa.
  destruct (DriveStateMachine_writes w) as (W1 & W2 & W3 & W4 & W5 & W6).
  fold sw in W1, W2, W3, W4, W5, W6.
  destruct (DriveStateMachine_image w) as (D1 & D2 & _).
  destruct (accepted_image i j w) as (A1 & A2 & _ & A4).
  split; [apply DriveStateMachine_table|].
  split; [apply DriveStateMachine_trace|].
  split; [apply machine_stores_short|].
  split; [apply accepted_stores|].
  split.
  { intros H. subst o'. rewrite (W1 H).
    split; [reflexivity|]. split; apply store_Controlword_image. }
  split.
  { intros H. subst o'. rewrite (W2 H).
    split; [reflexivity|]. split; apply store_Controlword_image. }
  split.
  { intros H. subst o'. rewrite (W3 H).
    split; [reflexivity|]. split; apply store_Controlword_image. }
  split.
  { intros H. subst o'. rewrite (W4 H).
    split; [reflexivity|]. split; apply store_Controlword_image. }
  split.
  { intros H. subst o'. rewrite (W5 H).
    split; [reflexivity|]. split; apply store_TargetVelocity_image. }
  split.
  { intros H1 H2 H3 H4 H5. subst o'. rewrite (W6 H1 H2 H3 H4 H5). reflexivity. }
  split; [exact D1|].
  split; [exact D2|].
  split; [exact A1|].
  split; [exact A2 | exact A4].
Qed.

End CyclicLoop.

Section ControlPhase.

Context {M : Master}.

Lemma stack_step_refl (w : World) : stack_step [] w w.
Proof. unfold stack_step. rewrite app_nil_r. repeat split. Qed.

Lemma stack_step_trans (e1 e2 : list event) (w w1 w2 : World) :
  stack_step e1 w w1 -> stack_step e2 w1 w2 -> stack_step (e1 ++ e2) w w2.
Proof.
  unfold stack_step.
  intros (A1 & A2 & A3 & A4 & A5 & A6 & A7 & A8) (B1 & B2 & B3 & B4 & B5 & B6 & B7 & B8).
  rewrite B1, B2, B3, B4, B5, B6, B7, B8, A1, A2, A3, A4, A5, A6, A7, A8, app_assoc.
  repeat split.
Qed.

Lemma emit_step (e : event) (w : World) : stack_step [e] w (emit e w).
Proof. repeat split. Qed.

Lemma printf_step (f : string) (a : list arg) (w : World) :
  stack_step [Printf f a] w (printf f a w).
Proof. repeat split. Qed.

Lemma do_send_step (w : World) : stack_step [Call_send_processdata] w (do_send w).
Proof. repeat split. Qed.

Lemma do_receive_step (t : Z) (w : World) :
  stack_step [Call_receive_processdata t] w (snd (do_receive t w)).
Proof.
  unfold do_receive. destruct (ec_receive_processdata _ _ _) as [r e].
  repeat split.
Qed.


Lemma do_statecheck_step (i : nat) (r t : Z) (w : World) :
  stack_step [Call_statecheck i r t] w (do_statecheck i r t w).
Proof.
  unfold do_statecheck. destruct (ec_statecheck _ _ _ _ _) as [l e].
  unfold stack_step, upd_slave; cbn. rewrite length_alter. repeat split.
Qed.

Lemma do_readstate_step (w : World) : stack_step [Call_readstate] w (do_readstate w).
Proof.
  unfold do_readstate. destruct (ec_readstate _) as [f e].
  unfold stack_step; cbn. rewrite length_imap. repeat split.
Qed.

Lemma do_writestate_step (i : nat) (w : World) :
  stack_step [Call_writestate i (state (get_slave i w))] w (do_writestate i w).
Proof. repeat split. Qed.

Lemma get_slave_upd_eq (i : nat) (f : ec_slavet -> ec_slavet) (w : World) :
  (i < length (ec_slave w))%nat -> get_slave i (upd_slave i f w) = f (get_slave i w).
Proof.
  intros H. unfold get_slave, upd_slave; cbn.
  rewrite list_lookup_alter_eq.
  destruct (lookup_lt_is_Some_2 _ _ H) as [x ->]. reflexivity.
Qed.

Lemma attempts_S (k : nat) : attempts (S k) = attempts 1 ++ attempts k.
Proof. reflexivity. Qed.

Lemma attempt_step (w : World) : stack_step (attempts 1) w (attempt w).
Proof.
  unfold attempt.
  pose proof (do_send_step w) as S1.
  pose proof (do_receive_step EC_TIMEOUTRET (do_send w)) as S2.
  destruct (do_receive EC_TIMEOUTRET (do_send w)) as [r w2]; cbn [snd] in S2.
  pose proof (do_statecheck_step 0 EC_STATE_OPERATIONAL 50000 w2) as S3.
  exact (stack_step_trans _ _ _ _ _ S1 (stack_step_trans _ _ _ _ _ S2 S3)).
Qed.

Lemma wait_operational_eq (chk : nat) (w : World) :
  wait_operational chk w =
    match chk with
    | O => attempt w
    | S c =>
        if negb (state (get_slave 0 (attempt w)) =? EC_STATE_OPERATIONAL)
        then wait_operational c (attempt w)
        else attempt w
    end.
Proof.
  destruct chk; cbn [wait_operational]; unfold attempt;
    destruct (do_receive _ _); reflexivity.
Qed.

Lemma wait_operational_spec (chk : nat) :
  forall w : World,
  exists k : nat,
    (1 <= k <= S chk)%nat
    /\ stack_step (attempts k) w (wait_operational chk w)
    /\ (state (get_slave 0 (wait_operational chk w)) <> EC_STATE_OPERATIONAL ->
        k = S chk).
Proof.
  induction chk as [|c IH]; intros w; rewrite wait_operational_eq.
  - exists 1%nat. split; [lia|]. split; [apply attempt_step | reflexivity].
  - destruct (Z.eqb_spec (state (get_slave 0 (attempt w))) EC_STATE_OPERATIONAL)
      as [E|E]; cbn [negb].
    + exists 1%nat. split; [lia|]. split; [apply attempt_step | contradiction].
    + destruct (IH (attempt w)) as (k & Hk & Hs & Hx).
      exists (S k). split; [lia|]. split.
      * rewrite attempts_S. exact (stack_step_trans _ _ _ _ _ (attempt_step w) Hs).
      * intros H. rewrite (Hx H). reflexivity.
Qed.

Lemma diagnostics_from_ext (w w' : World) (i n : nat) :
  ec_slave w' = ec_slave w -> diagnostics_from w' i n = diagnostics_from w i n.
Proof.
  intros H. unfold diagnostics_from, diagnostic_line, get_slave. rewrite H. reflexivity.
Qed.

Lemma report_slaves_S (n i : nat) (w : World) :
  report_slaves (S n) i w =
    report_slaves n (S i)
      (if negb (state (get_slave i w) =? EC_STATE_OPERATIONAL)
       then emit (diagnostic_line w i) w else w).
Proof. reflexivity. Qed.

Lemma report_slaves_spec (n : nat) :
  forall (i : nat) (w : World),
    stack_step (diagnostics_from w i n) w (report_slaves n i w)
    /\ ec_slave (report_slaves n i w) = ec_slave w.
Proof.
  induction n as [|n IH]; intros i w.
  - split; [apply stack_step_refl | reflexivity].
  - rewrite report_slaves_S.
    unfold diagnostics_from. cbn [seq List.filter].
    fold (diagnostics_from w (S i) n).
    destruct (negb (state (get_slave i w) =? EC_STATE_OPERATIONAL)).
    + destruct (IH (S i) (emit (diagnostic_line w i) w)) as (S1 & S2).
      split.
      * cbn [map]. fold (diagnostics_from w (S i) n).
        rewrite (diagnostics_from_ext w (emit (diagnostic_line w i) w)) in S1
          by reflexivity.
        exact (stack_step_trans [_] _ _ _ _ (emit_step _ w) S1).
      * rewrite S2. reflexivity.
    + apply IH.
Qed.

Lemma operational_timeout_spec (w : World) :
  let w2 := do_readstate (printf "Not all slaves reached operational state.\n" [] w) in
  stack_step ([Printf "Not all slaves reached operational state.\n" []; Call_readstate]
              ++ diagnostics w2) w (operational_timeout w).
Proof.
  intros w2. unfold operational_timeout. fold w2.
  pose proof (printf_step "Not all slaves reached operational state.\n" [] w) as S1.
  pose proof (do_readstate_step
                (printf "Not all slaves reached operational state.\n" [] w)) as S2.
  fold w2 in S2.
  destruct (report_slaves_spec (Z.to_nat (ec_slavecount w2)) 1 w2) as (S3 & _).
  exact (stack_step_trans _ _ _ _ _ (stack_step_trans [_] [_] _ _ _ S1 S2) S3).
Qed.




Lemma cyclic_phase_eq (w : World) :
  cyclic_phase w =
    set_inOP false
      (snd (cyclic_loop (Z.to_nat 10000) 1 0
              (set_inOP true (printf "Operational state reached for all slaves.\n" [] w)))).
Proof. unfold cyclic_phase. destruct (cyclic_loop _ _ _ _). reflexivity. Qed.

Lemma cyclic_phase_expectedWKC (w : World) :
  expectedWKC (cyclic_phase w) = expectedWKC w.
Proof.
  rewrite cyclic_phase_eq.
  set (w1 := set_inOP true (printf "Operational state reached for all slaves.\n" [] w)).
  destruct (cyclic_loop_frame (Z.to_nat 10000) 1 0 w1) as (H & _).
  revert H. generalize (snd (cyclic_loop (Z.to_nat 10000) 1 0 w1)) as w2.
  intros w2 H. change (expectedWKC w2 = expectedWKC w1). exact H.
Qed.

Lemma control_eq (w : World) :
  control w =
    request_init
      (if state (get_slave 0 (wait_operational 200 w)) =? EC_STATE_OPERATIONAL
       then cyclic_phase (wait_operational 200 w)
       else operational_timeout (wait_operational 200 w)).
Proof. reflexivity. Qed.

Lemma request_init_expectedWKC (w : World) :
  expectedWKC (request_init w) = expectedWKC w.
Proof. reflexivity. Qed.

Lemma control_expectedWKC (w : World) : expectedWKC (control w) = expectedWKC w.
Proof.
  rewrite control_eq, request_init_expectedWKC.
  destruct (wait_operational_spec 200 w) as (k & _ & S1 & _).
  destruct S1 as (S1 & _).
  destruct (_ =? _).
  - rewrite cyclic_phase_expectedWKC. exact S1.
  - destruct (operational_timeout_spec (wait_operational 200 w)) as (S2 & _).
    rewrite S2. exact S1.
Qed.

Lemma request_operational_expectedWKC (w : World) :
  expectedWKC (request_operational w)
  = to_int32 (outputsWKC (get_group 0 w) * 2 + inputsWKC (get_group 0 w)).
Proof.
  unfold request_operational.
  match goal with
  | |- context [do_receive ?t ?x] =>
      pose proof (do_receive_step t x) as S; destruct (do_receive t x) as [r w1]
  end.
  cbn [snd] in S. destruct S as (S & _).
  change (expectedWKC (do_writestate 0 w1)) with (expectedWKC w1).
  rewrite S. reflexivity.
Qed.

(** C4.  The expected working counter is assigned once, before the
    wait for the operational state, as twice the output count of group
    0 plus its input count, and keeps that value to the end of the
    control phase.  A cycle whose exchange returns at least that value
    is accepted (the counter advances and the status line is printed);
    one whose exchange returns less is not (counter, output image and
    printed lines stay as they were).  With counts 2 and 3 the expected
    value is 7, and a cycle returning 6 against it is not accepted. *)
Theorem expected_working_counter (w : World) :
  0 <= outputsWKC (get_group 0 w) < 65536 ->
  0 <= inputsWKC (get_group 0 w) < 65536 ->
  expectedWKC (request_operational w)
  = 2 * outputsWKC (get_group 0 w) + inputsWKC (get_group 0 w)
  /\ expectedWKC (control (request_operational w))
     = 2 * outputsWKC (get_group 0 w) + inputsWKC (get_group 0 w)
  /\ (forall (i j : Z) (w' : World),
        expectedWKC w' <= observed_wkc w' ->
        fst (cycle i j w') = to_int32 (j + 1)
        /\ length (prints (trace (snd (cycle i j w'))))
           = (length (prints (trace w')) + 7)%nat)
  /\ (forall (i j : Z) (w' : World),
        observed_wkc w' < expectedWKC w' ->
        fst (cycle i j w') = j
        /\ outputs (snd (cycle i j w')) = outputs w'
        /\ prints (trace (snd (cycle i j w'))) = prints (trace w'))
  /\ (outputsWKC (get_group 0 w) = 2 -> inputsWKC (get_group 0 w) = 3 ->
      expectedWKC (request_operational w) = 7
      /\ forall (i j : Z) (w' : World),
           expectedWKC w' = 7 -> observed_wkc w' = 6 ->
           fst (cycle i j w') = j
           /\ outputs (snd (cycle i j w')) = outputs w'
           /\ prints (trace (snd (cycle i j w'))) = prints (trace w')).
Proof.
  intros Ho Hi.
  assert (E : expectedWKC (request_operational w)
              = 2 * outputsWKC (get_group 0 w) + inputsWKC (get_group 0 w)).
  { rewrite request_operational_expectedWKC, to_int32_small; lia. }
  assert (D : forall (i j : Z) (w' : World),
             observed_wkc w' < expectedWKC w' ->
             fst (cycle i j w') = j
             /\ outputs (snd (cycle i j w')) = outputs w'
             /\ prints (trace (snd (cycle i j w'))) = prints (trace w')).
  { intros i j w' H.
    destruct (degraded_cycle_facts i j w' H) as (A & B & _ & _ & _ & C). auto. }
  split; [exact E|].
  split; [rewrite control_expectedWKC; exact E|].
  split.
  - intros i j w' H. destruct (cycle_facts i j w') as (A & _ & _ & _ & B).
    apply Z.leb_le in H. rewrite H in A, B. auto.
  - split; [exact D|].
    intros H2 H3. split; [rewrite E, H2, H3; reflexivity|].
    intros i j w' H7 H6. apply D. lia.
Qed.

End ControlPhase.

Section Supervisor.

Context {M : Master}.

Lemma slave_step_refl (i : nat) (w : World) : slave_step i (fun s => s) [] w w.
Proof.
  unfold slave_step. rewrite app_nil_r, list_alter_id by reflexivity. repeat split.
Qed.

Lemma slave_step_trans (i : nat) (f g : ec_slavet -> ec_slavet) (e1 e2 : list event)
    (w w1 w2 : World) :
  slave_step i f e1 w w1 -> slave_step i g e2 w1 w2 ->
  slave_step i (fun s => g (f s)) (e1 ++ e2) w w2.
Proof.
  unfold slave_step. intros (A1 & A2 & A3) (B1 & B2 & B3).
  rewrite B1, B2, B3, A1, A2, A3, app_assoc.
  rewrite list_alter_alter_eq. repeat split.
Qed.

Lemma slave_step_ext (i : nat) (f g : ec_slavet -> ec_slavet) (e1 e2 : list event)
    (w w' : World) :
  (forall s, f s = g s) -> e1 = e2 -> slave_step i f e1 w w' -> slave_step i g e2 w w'.
Proof.
  unfold slave_step. intros Hfg <- (A1 & A2 & A3).
  rewrite A1, A2, A3. repeat split.
  apply list_alter_ext; auto.
Qed.

Lemma slave_step_get (i : nat) (f : ec_slavet -> ec_slavet) (evs : list event)
    (w w' : World) :
  slave_step i f evs w w' -> (i < length (ec_slave w))%nat ->
  get_slave i w' = f (get_slave i w) /\ (i < length (ec_slave w'))%nat.
Proof.
  intros (A1 & _ & _) H. unfold get_slave. rewrite A1, length_alter, list_lookup_alter_eq.
  destruct (lookup_lt_is_Some_2 _ _ H) as [x ->]. split; [reflexivity | exact H].
Qed.

Lemma slave_step_other (i j : nat) (f : ec_slavet -> ec_slavet) (evs : list event)
    (w w' : World) :
  slave_step i f evs w w' -> i <> j -> get_slave j w' = get_slave j w.
Proof.
  intros (A1 & _ & _) H. unfold get_slave.
  rewrite A1, list_lookup_alter_ne by exact H. reflexivity.
Qed.

Lemma emit_slave_step (i : nat) (e : event) (w : World) :
  slave_step i (fun s => s) [e] w (emit e w).
Proof.
  unfold slave_step; cbn. rewrite list_alter_id by reflexivity. repeat split.
Qed.

Lemma upd_group_slave_step (i : nat) (g : Z) (f : ec_groupt -> ec_groupt) (w : World) :
  slave_step i (fun s => s) [] w (upd_group g f w).
Proof.
  unfold slave_step; cbn. rewrite app_nil_r, list_alter_id by reflexivity. repeat split.
Qed.

Lemma upd_slave_slave_step (i : nat) (f : ec_slavet -> ec_slavet) (w : World) :
  slave_step i f [] w (upd_slave i f w).
Proof. unfold slave_step; cbn. rewrite app_nil_r. repeat split. Qed.

Lemma do_writestate_slave_step (i : nat) (w : World) :
  slave_step i (fun s => s) [Call_writestate i (state (get_slave i w))] w
             (do_writestate i w).
Proof.
  unfold slave_step; cbn. rewrite list_alter_id by reflexivity. repeat split.
Qed.

Lemma do_statecheck_slave_step (i : nat) (w : World) :
  slave_step i (with_link (rechecked_link i w))
             [Call_statecheck i EC_STATE_OPERATIONAL EC_TIMEOUTRET] w
             (do_statecheck i EC_STATE_OPERATIONAL EC_TIMEOUTRET w).
Proof.
  unfold do_statecheck, rechecked_link.
  destruct (ec_statecheck _ _ _ _ _) as [l e]. repeat split.
Qed.

Lemma do_reconfig_slave_step (i : nat) (w : World) :
  fst (do_reconfig_slave i EC_TIMEOUTMON w) = fst (reconfig_result i w)
  /\ slave_step i (with_link (snd (reconfig_result i w)))
                [Call_reconfig_slave i EC_TIMEOUTMON] w
                (snd (do_reconfig_slave i EC_TIMEOUTMON w)).
Proof.
  unfold do_reconfig_slave, reconfig_result.
  destruct (ec_reconfig_slave _ _ _ _) as [[r l] e]. repeat split.
Qed.

Lemma do_recover_slave_step (i : nat) (w : World) :
  fst (do_recover_slave i EC_TIMEOUTMON w) = fst (recover_result i w)
  /\ slave_step i (with_link (snd (recover_result i w)))
                [Call_recover_slave i EC_TIMEOUTMON] w
                (snd (do_recover_slave i EC_TIMEOUTMON w)).
Proof.
  unfold do_recover_slave, recover_result.
  destruct (ec_recover_slave _ _ _ _) as [[r l] e]. repeat split.
Qed.

Lemma primary_action_eq (slave : nat) (w : World) :
  primary_action slave w =
    let w0 := upd_group currentgroup (with_docheckstate true) w in
    match select_recovery (get_slave slave w) with
    | Acknowledge =>
        do_writestate slave
          (upd_slave slave (with_state (to_uint16 (EC_STATE_SAFE_OP + EC_STATE_ACK)))
             (printf "ERROR : slave %d is in SAFE_OP + ERROR, attempting ack.\n"
                     [AInt (Z.of_nat slave)] w0))
    | Promote =>
        do_writestate slave
          (upd_slave slave (with_state (to_uint16 EC_STATE_OPERATIONAL))
             (printf "WARNING : slave %d is in SAFE_OP, change to OPERATIONAL.\n"
                     [AInt (Z.of_nat slave)] w0))
    | Reconfigure =>
        let rw := do_reconfig_slave slave EC_TIMEOUTMON w0 in
        if fst rw =? 0 then snd rw
        else printf "MESSAGE : slave %d reconfigured\n" [AInt (Z.of_nat slave)]
                    (upd_slave slave (with_islost false) (snd rw))
    | Reverify =>
        let w1 := do_statecheck slave EC_STATE_OPERATIONAL EC_TIMEOUTRET w0 in
        if state (get_slave slave w1) =? EC_STATE_NONE
        then printf "ERROR : slave %d lost\n" [AInt (Z.of_nat slave)]
                    (upd_slave slave (with_islost true) w1)
        else w1
    | Nothing => w0
    end.
Proof.
  unfold primary_action, select_recovery.
  change (get_slave slave (upd_group currentgroup (with_docheckstate true) w))
    with (get_slave slave w).
  destruct (state (get_slave slave w) =? EC_STATE_SAFE_OP + EC_STATE_ERROR); [reflexivity|].
  destruct (state (get_slave slave w) =? EC_STATE_SAFE_OP); [reflexivity|].
  destruct (EC_STATE_NONE <? state (get_slave slave w)).
  - cbv zeta. destruct (do_reconfig_slave _ _ _) as [r w1]. cbn [fst snd].
    destruct (r =? 0); reflexivity.
  - destruct (negb (islost (get_slave slave w))); reflexivity.
Qed.

Lemma lost_action_eq (slave : nat) (w : World) :
  lost_action slave w =
    if state (get_slave slave w) =? EC_STATE_NONE then
      let rw := do_recover_slave slave EC_TIMEOUTMON w in
      if fst rw =? 0 then snd rw
      else printf "MESSAGE : slave %d recovered\n" [AInt (Z.of_nat slave)]
                  (upd_slave slave (with_islost false) (snd rw))
    else printf "MESSAGE : slave %d found\n" [AInt (Z.of_nat slave)]
                (upd_slave slave (with_islost false) w).
Proof.
  unfold lost_action.
  destruct (state (get_slave slave w) =? EC_STATE_NONE); [|reflexivity].
  cbv zeta. destruct (do_recover_slave _ _ _) as [r w1]. cbn [fst snd].
  destruct (r =? 0); reflexivity.
Qed.

Lemma check_slave_eq (slave : nat) (w : World) :
  check_slave slave w =
    let w1 := if handled (get_slave slave w) then primary_action slave w else w in
    if islost (get_slave slave w1) then lost_action slave w1 else w1.
Proof. reflexivity. Qed.

Ltac compose_steps S :=
  refine (slave_step_ext _ _ _ _ _ _ _ _ _ S); [intros ?; reflexivity | reflexivity].

Lemma primary_action_step (slave : nat) (w : World) :
  (slave < length (ec_slave w))%nat ->
  slave_step slave (primary_update slave w) (primary_events slave w) w
             (primary_action slave w).
Proof.
  intros H. rewrite primary_action_eq; cbv zeta.
  unfold primary_update, primary_events.
  pose proof (upd_group_slave_step slave currentgroup (with_docheckstate true) w) as S0.
  change (reconfig_result slave w)
    with (reconfig_result slave (upd_group currentgroup (with_docheckstate true) w)).
  change (rechecked_link slave w)
    with (rechecked_link slave (upd_group currentgroup (with_docheckstate true) w)).
  destruct (slave_step_get _ _ _ _ _ S0 H) as (_ & H0).
  revert S0 H0.
  generalize (upd_group currentgroup (with_docheckstate true) w) as w0.
  intros w0 S0 H0.
  destruct (select_recovery (get_slave slave w)).
  - set (w1 := printf "ERROR : slave %d is in SAFE_OP + ERROR, attempting ack.\n"
                      [AInt (Z.of_nat slave)] w0).
    pose proof (emit_slave_step slave
                  (Printf "ERROR : slave %d is in SAFE_OP + ERROR, attempting ack.\n"
                          [AInt (Z.of_nat slave)]) w0) as S1.
    fold (printf "ERROR : slave %d is in SAFE_OP + ERROR, attempting ack.\n"
                 [AInt (Z.of_nat slave)] w0) in S1. fold w1 in S1.
    destruct (slave_step_get _ _ _ _ _ S1 H0) as (_ & H1).
    revert S1 H1. generalize w1 as w1'. clear w1. intros w1 S1 H1.
    pose proof (upd_slave_slave_step slave
                  (with_state (to_uint16 (EC_STATE_SAFE_OP + EC_STATE_ACK))) w1) as S2.
    pose proof (do_writestate_slave_step slave
                  (upd_slave slave
                     (with_state (to_uint16 (EC_STATE_SAFE_OP + EC_STATE_ACK))) w1)) as S3.
    rewrite (get_slave_upd_eq slave _ w1 H1) in S3. cbn [state with_state] in S3.
    compose_steps (slave_step_trans _ _ _ _ _ _ _ _ S0
                     (slave_step_trans _ _ _ _ _ _ _ _ S1
                        (slave_step_trans _ _ _ _ _ _ _ _ S2 S3))).
  - set (w1 := printf "WARNING : slave %d is in SAFE_OP, change to OPERATIONAL.\n"
                      [AInt (Z.of_nat slave)] w0).
    pose proof (emit_slave_step slave
                  (Printf "WARNING : slave %d is in SAFE_OP, change to OPERATIONAL.\n"
                          [AInt (Z.of_nat slave)]) w0) as S1.
    fold (printf "WARNING : slave %d is in SAFE_OP, change to OPERATIONAL.\n"
                 [AInt (Z.of_nat slave)] w0) in S1. fold w1 in S1.
    destruct (slave_step_get _ _ _ _ _ S1 H0) as (_ & H1).
    revert S1 H1. generalize w1 as w1'. clear w1. intros w1 S1 H1.
    pose proof (upd_slave_slave_step slave
                  (with_state (to_uint16 EC_STATE_OPERATIONAL)) w1) as S2.
    pose proof (do_writestate_slave_step slave
                  (upd_slave slave (with_state (to_uint16 EC_STATE_OPERATIONAL)) w1)) as S3.
    rewrite (get_slave_upd_eq slave _ w1 H1) in S3. cbn [state with_state] in S3.
    compose_steps (slave_step_trans _ _ _ _ _ _ _ _ S0
                     (slave_step_trans _ _ _ _ _ _ _ _ S1
                        (slave_step_trans _ _ _ _ _ _ _ _ S2 S3))).
  - destruct (do_reconfig_slave_step slave w0) as (R1 & R2).
    rewrite R1.
    revert R2. generalize (snd (do_reconfig_slave slave EC_TIMEOUTMON w0)) as w1.
    intros w1 R2.
    destruct (fst (reconfig_result slave w0) =? 0).
    + compose_steps (slave_step_trans _ _ _ _ _ _ _ _ S0 R2).
    + pose proof (upd_slave_slave_step slave (with_islost false) w1) as S2.
      pose proof (emit_slave_step slave
                    (Printf "MESSAGE : slave %d reconfigured\n" [AInt (Z.of_nat slave)])
                    (upd_slave slave (with_islost false) w1)) as S3.
      compose_steps (slave_step_trans _ _ _ _ _ _ _ _ S0
                       (slave_step_trans _ _ _ _ _ _ _ _ R2
                          (slave_step_trans _ _ _ _ _ _ _ _ S2 S3))).
  - pose proof (do_statecheck_slave_step slave w0) as S1.
    destruct (slave_step_get _ _ _ _ _ S1 H0) as (G1 & _).
    rewrite G1. cbn [state with_link].
    revert S1. generalize (do_statecheck slave EC_STATE_OPERATIONAL EC_TIMEOUTRET w0) as w1.
    intros w1 S1.
    destruct (l_state (rechecked_link slave w0) =? EC_STATE_NONE).
    + pose proof (upd_slave_slave_step slave (with_islost true) w1) as S2.
      pose proof (emit_slave_step slave
                    (Printf "ERROR : slave %d lost\n" [AInt (Z.of_nat slave)])
                    (upd_slave slave (with_islost true) w1)) as S3.
      compose_steps (slave_step_trans _ _ _ _ _ _ _ _ S0
                       (slave_step_trans _ _ _ _ _ _ _ _ S1
                          (slave_step_trans _ _ _ _ _ _ _ _ S2 S3))).
    + compose_steps (slave_step_trans _ _ _ _ _ _ _ _ S0 S1).
  - compose_steps S0.
Qed.

Lemma lost_action_step (slave : nat) (w : World) :
  slave_step slave (lost_update slave w) (lost_events slave w) w (lost_action slave w).
Proof.
  rewrite lost_action_eq; cbv zeta. unfold lost_update, lost_events.
  destruct (state (get_slave slave w) =? EC_STATE_NONE).
  - destruct (do_recover_slave_step slave w) as (R1 & R2).
    rewrite R1.
    revert R2. generalize (snd (do_recover_slave slave EC_TIMEOUTMON w)) as w1.
    intros w1 R2.
    destruct (fst (recover_result slave w) =? 0).
    + compose_steps R2.
    + pose proof (upd_slave_slave_step slave (with_islost false) w1) as S2.
      pose proof (emit_slave_step slave
                    (Printf "MESSAGE : slave %d recovered\n" [AInt (Z.of_nat slave)])
                    (upd_slave slave (with_islost false) w1)) as S3.
      compose_steps (slave_step_trans _ _ _ _ _ _ _ _ R2
                       (slave_step_trans _ _ _ _ _ _ _ _ S2 S3)).
  - pose proof (upd_slave_slave_step slave (with_islost false) w) as S2.
    pose proof (emit_slave_step slave
                  (Printf "MESSAGE : slave %d found\n" [AInt (Z.of_nat slave)])
                  (upd_slave slave (with_islost false) w)) as S3.
    compose_steps (slave_step_trans _ _ _ _ _ _ _ _ S2 S3).
Qed.

Lemma extends_refl (w : World) : extends w w.
Proof. exists []. rewrite app_nil_r. reflexivity. Qed.

Lemma extends_trans (w w1 w2 : World) : extends w w1 -> extends w1 w2 -> extends w w2.
Proof.
  intros [e1 H1] [e2 H2]. exists (e1 ++ e2). rewrite H2, H1, app_assoc. reflexivity.
Qed.

Lemma slave_step_extends (i : nat) (f : ec_slavet -> ec_slavet) (evs : list event)
    (w w' : World) :
  slave_step i f evs w w' -> extends w w'.
Proof. intros (_ & _ & H). exists evs. exact H. Qed.

Lemma primary_action_extends (slave : nat) (w : World) :
  extends w (primary_action slave w).
Proof.
  rewrite primary_action_eq; cbv zeta.
  pose proof (slave_step_extends _ _ _ _ _
                (upd_group_slave_step slave currentgroup (with_docheckstate true) w)) as E0.
  revert E0. generalize (upd_group currentgroup (with_docheckstate true) w) as w0.
  intros w0 E0.
  destruct (select_recovery (get_slave slave w)).
  - apply (extends_trans _ _ _ E0). exists
      [Printf "ERROR : slave %d is in SAFE_OP + ERROR, attempting ack.\n"
              [AInt (Z.of_nat slave)];
       Call_writestate slave
         (state (get_slave slave
                   (upd_slave slave
                      (with_state (to_uint16 (EC_STATE_SAFE_OP + EC_STATE_ACK)))
                      (printf "ERROR : slave %d is in SAFE_OP + ERROR, attempting ack.\n"
                              [AInt (Z.of_nat slave)] w0))))].
    cbn [do_writestate upd_slave printf emit trace set_ec_slave set_ext].
    rewrite <- app_assoc. reflexivity.
  - apply (extends_trans _ _ _ E0). exists
      [Printf "WARNING : slave %d is in SAFE_OP, change to OPERATIONAL.\n"
              [AInt (Z.of_nat slave)];
       Call_writestate slave
         (state (get_slave slave
                   (upd_slave slave
                      (with_state (to_uint16 EC_STATE_OPERATIONAL))
                      (printf "WARNING : slave %d is in SAFE_OP, change to OPERATIONAL.\n"
                              [AInt (Z.of_nat slave)] w0))))].
    cbn [do_writestate upd_slave printf emit trace set_ec_slave set_ext].
    rewrite <- app_assoc. reflexivity.
  - destruct (do_reconfig_slave_step slave w0) as (_ & R2).
    apply slave_step_extends in R2.
    revert R2. generalize (do_reconfig_slave slave EC_TIMEOUTMON w0) as rw.
    intros [r w1] R2. cbn [fst snd] in *.
    apply (extends_trans _ _ _ E0), (extends_trans _ _ _ R2).
    destruct (r =? 0); [apply extends_refl|].
    exists [Printf "MESSAGE : slave %d reconfigured\n" [AInt (Z.of_nat slave)]].
    reflexivity.
  - pose proof (slave_step_extends _ _ _ _ _ (do_statecheck_slave_step slave w0)) as S1.
    revert S1. generalize (do_statecheck slave EC_STATE_OPERATIONAL EC_TIMEOUTRET w0) as w1.
    intros w1 S1.
    apply (extends_trans _ _ _ E0), (extends_trans _ _ _ S1).
    destruct (_ =? _); [|apply extends_refl].
    exists [Printf "ERROR : slave %d lost\n" [AInt (Z.of_nat slave)]]. reflexivity.
  - exact E0.
Qed.

Lemma check_slave_extends (slave : nat) (w : World) : extends w (check_slave slave w).
Proof.
  rewrite check_slave_eq; cbv zeta.
  assert (E1 : extends w (if handled (get_slave slave w)
                          then primary_action slave w else w)).
  { destruct (handled _); [apply primary_action_extends | apply extends_refl]. }
  revert E1.
  generalize (if handled (get_slave slave w) then primary_action slave w else w) as w1.
  intros w1 E1.
  destruct (islost (get_slave slave w1)); [|exact E1].
  exact (extends_trans _ _ _ E1 (slave_step_extends _ _ _ _ _ (lost_action_step slave w1))).
Qed.

Lemma check_slaves_extends (n : nat) :
  forall (slave : nat) (w : World), extends w (check_slaves n slave w).
Proof.
  induction n as [|n IH]; intros slave w; cbn [check_slaves].
  - apply extends_refl.
  - exact (extends_trans _ _ _ (check_slave_extends slave w) (IH _ _)).
Qed.

Lemma sweep_eq (w : World) :
  sweep w =
    let w2 := do_readstate
                (upd_group currentgroup (with_docheckstate false)
                   (if needlf w then printf "\n" [] (set_needlf false w) else w)) in
    let w3 := check_slaves (Z.to_nat (ec_slavecount w2)) 1 w2 in
    if negb (docheckstate (get_group currentgroup w3))
    then printf "OK : all slaves resumed OPERATIONAL.\n" [] w3
    else w3.
Proof. reflexivity. Qed.

Lemma sweep_reads_states (w : World) :
  exists evs : list event,
    trace (sweep w)
    = trace w ++ (if needlf w then [Printf "\n" []] else []) ++ Call_readstate :: evs.
Proof.
  rewrite sweep_eq; cbv zeta.
  assert (T : trace (do_readstate
                       (upd_group currentgroup (with_docheckstate false)
                          (if needlf w then printf "\n" [] (set_needlf false w) else w)))
              = trace w ++ (if needlf w then [Printf "\n" []] else []) ++ [Call_readstate]).
  { unfold do_readstate. destruct (ec_readstate _) as [f e].
    destruct (needlf w); cbn [trace emit set_ec_slave set_ext upd_group set_ec_group
                              printf set_needlf app];
      rewrite <- ?app_assoc; reflexivity. }
  revert T.
  generalize (do_readstate
                (upd_group currentgroup (with_docheckstate false)
                   (if needlf w then printf "\n" [] (set_needlf false w) else w))) as w2.
  intros w2 T.
  destruct (check_slaves_extends (Z.to_nat (ec_slavecount w2)) 1 w2) as [evs E].
  revert E. generalize (check_slaves (Z.to_nat (ec_slavecount w2)) 1 w2) as w3.
  intros w3 E.
  destruct (negb (docheckstate (get_group currentgroup w3))).
  - exists (evs ++ [Printf "OK : all slaves resumed OPERATIONAL.\n" []]).
    cbn [printf emit trace]. rewrite E, T, <- !app_assoc. reflexivity.
  - exists evs. rewrite E, T, <- !app_assoc. reflexivity.
Qed.

Lemma wake_must_act (w : World) : wake w = true <-> must_act w.
Proof.
  unfold wake, must_act.
  rewrite andb_true_iff, orb_true_iff, Z.ltb_lt. reflexivity.
Qed.

(** C6.  An iteration of the supervisor runs the sweep exactly when
    [inOP] is set and either the last working counter is below the
    expected one or the group asks for a re-check.  Otherwise the
    iteration only sleeps: no call into the stack, no store into a
    device or group record, no [printf]. *)
Theorem supervisor_wake_condition (w : World) :
  (wake w = true <-> must_act w)
  /\ (~ must_act w ->
      ecatcheck_iter w = emit (Usleep 10000) w
      /\ trace (ecatcheck_iter w) = trace w ++ [Usleep 10000]
      /\ ec_slave (ecatcheck_iter w) = ec_slave w
      /\ ec_group (ecatcheck_iter w) = ec_group w
      /\ needlf (ecatcheck_iter w) = needlf w
      /\ ext (ecatcheck_iter w) = ext w)
  /\ (must_act w ->
      ecatcheck_iter w = emit (Usleep 10000) (sweep w)
      /\ exists evs : list event,
           trace (sweep w)
           = trace w ++ (if needlf w then [Printf "\n" []] else [])
                     ++ Call_readstate :: evs).
Proof.
  split; [apply wake_must_act|].
  split.
  - intros H. assert (E : wake w = false).
    { destruct (wake w) eqn:W; [|reflexivity]. apply wake_must_act in W. contradiction. }
    unfold ecatcheck_iter. rewrite E. repeat split.
  - intros H. apply wake_must_act in H.
    unfold ecatcheck_iter. rewrite H. split; [reflexivity | apply sweep_reads_states].
Qed.

End Supervisor.

Section AfterControl.

Context {M : Master}.

Lemma awake_app (t u : list event) : awake (t ++ u) = awake t ++ awake u.
Proof.
  induction t as [|e t IH]; [reflexivity|].
  destruct e; cbn [awake app]; rewrite IH; reflexivity.
Qed.

Lemma same_but_sleep_refl (w : World) : same_but_sleep w w.
Proof. repeat split. Qed.

Lemma same_but_sleep_sleep (us : Z) (w w' : World) :
  same_but_sleep w w' -> same_but_sleep w (emit (Usleep us) w').
Proof.
  unfold same_but_sleep.
  intros (A1 & A2 & A3 & A4 & A5 & A6 & A7 & A8 & A9 & A10 & A11 & A12).
  cbn [emit expectedWKC needlf wkc inOP ec_slavecount ec_slave ec_group ec_DCtime
       inputs outputs ext trace].
  rewrite awake_app, A12. cbn [awake]. rewrite app_nil_r. repeat split; assumption.
Qed.

(** Every step of [after_control] reads nothing of the trace. *)
Lemma after_control_respects (f : World -> World) (w w' : World) :
  In f after_control -> inOP w = false -> same_but_sleep w w' ->
  same_but_sleep (f w) (f w') /\ inOP (f w) = false.
Proof.
  unfold same_but_sleep.
  intros Hf Hi (A1 & A2 & A3 & A4 & A5 & A6 & A7 & A8 & A9 & A10 & A11 & A12).
  cbn [after_control In] in Hf.
  destruct Hf as [<-|[<-|[<-|[<-|[<-|[]]]]]];
    unfold printf, upd_slave, do_writestate, do_close, get_slave;
    cbn [emit set_ec_slave set_ext expectedWKC needlf wkc inOP ec_slavecount ec_slave
         ec_group ec_DCtime inputs outputs ext trace];
    rewrite ?awake_app, ?A1, ?A2, ?A3, ?A4, ?A5, ?A6, ?A7, ?A8, ?A9, ?A10, ?A11, ?A12;
    repeat split; assumption.
Qed.

Lemma ecatcheck_iter_idle (w : World) :
  inOP w = false -> ecatcheck_iter w = emit (Usleep 10000) w.
Proof. intros H. unfold ecatcheck_iter, wake. rewrite H. reflexivity. Qed.

Lemma run_respects (steps : list (World -> World)) :
  forall w w' : World,
    (forall f, In f steps -> In f after_control) ->
    inOP w = false -> same_but_sleep w w' ->
    same_but_sleep (run steps w) (run steps w') /\ inOP (run steps w) = false.
Proof.
  induction steps as [|f steps IH]; intros w w' Hs Hi Hw.
  - split; assumption.
  - unfold run; cbn [fold_left]. fold (run steps (f w)). fold (run steps (f w')).
    destruct (after_control_respects f w w') as (H1 & H2); auto using in_eq.
    apply IH; auto using in_cons.
Qed.

Lemma cyclic_phase_inOP (w : World) : inOP (cyclic_phase w) = false.
Proof. rewrite cyclic_phase_eq. reflexivity. Qed.

Lemma ecatcheck_idle (n : nat) :
  forall w : World,
    inOP w = false ->
    same_but_sleep w (ecatcheck n w) /\ inOP (ecatcheck n w) = false.
Proof.
  induction n as [|n IH]; intros w H.
  - split; [apply same_but_sleep_refl | exact H].
  - cbn [ecatcheck]. rewrite ecatcheck_iter_idle by exact H.
    destruct (IH (emit (Usleep 10000) w) H) as (A & B).
    split; [|exact B].
    destruct A as (A1 & A2 & A3 & A4 & A5 & A6 & A7 & A8 & A9 & A10 & A11 & A12).
    unfold same_but_sleep.
    rewrite A1, A2, A3, A4, A5, A6, A7, A8, A9, A10, A11, A12.
    cbn [emit trace]. rewrite awake_app. cbn [awake]. rewrite app_nil_r.
    repeat split.
Qed.

Lemma map_slaves_inOP (w : World) : inOP (map_slaves w) = inOP w.
Proof.
  unfold map_slaves, do_config_map, do_statecheck.
  destruct (ec_config_map _ _) as [c e].
  destruct (ec_statecheck _ _ _ _ _) as [l e']. reflexivity.
Qed.

Lemma request_operational_inOP (w : World) : inOP (request_operational w) = inOP w.
Proof.
  unfold request_operational.
  match goal with
  | |- context [do_receive ?t ?x] =>
      pose proof (do_receive_step t x) as S; destruct (do_receive t x) as [r w1]
  end.
  cbn [snd] in S. destruct S as (_ & S & _).
  change (inOP (do_writestate 0 w1)) with (inOP w1).
  rewrite S. reflexivity.
Qed.

Lemma control_inOP (w : World) : inOP w = false -> inOP (control w) = false.
Proof.
  intros H. rewrite control_eq.
  change (inOP (request_init ?x)) with (inOP x).
  destruct (wait_operational_spec 200 w) as (k & _ & (_ & I & _) & _).
  destruct (_ =? _).
  - apply cyclic_phase_inOP.
  - destruct (operational_timeout_spec (wait_operational 200 w)) as (_ & J & _).
    rewrite J, I. exact H.
Qed.

Lemma simpletest_inOP (ifname : string) (w : World) : inOP (simpletest ifname w) = false.
Proof.
  unfold simpletest, do_init.
  destruct (ec_init _ _) as [r e].
  destruct (negb (r =? 0)); [|reflexivity].
  unfold do_config_init. destruct (ec_config_init _ _) as [[n c] e'].
  change (inOP (do_close ?x)) with (inOP x).
  change (inOP (printf ?f ?a ?x)) with (inOP x).
  destruct (0 <? n); [|reflexivity].
  unfold configured.
  apply control_inOP. rewrite request_operational_inOP, map_slaves_inOP. reflexivity.
Qed.

End AfterControl.

Section Idempotence.

Context {M : Master}.

Variables (rep : nat -> link) (rc rv : nat -> Z).

Hypothesis Hsteady : steady rep rc rv.

Lemma steady_results (i : nat) (w : World) :
  reconfig_result i w = (rc i, rep i)
  /\ recover_result i w = (rv i, rep i)
  /\ rechecked_link i w = rep i.
Proof.
  destruct Hsteady as (_ & H2 & H3 & H4).
  unfold reconfig_result, recover_result, rechecked_link.
  rewrite H2, H3, H4. repeat split.
Qed.

Lemma primary_update_settle (i : nat) (w : World) :
  (if handled (get_slave i w) then primary_update i w (get_slave i w) else get_slave i w)
  = settle_primary rep rc i (get_slave i w).
Proof.
  unfold settle_primary, primary_update.
  destruct (steady_results i w) as (-> & _ & ->).
  destruct (handled (get_slave i w)); [|reflexivity].
  destruct (select_recovery (get_slave i w)); cbn [fst snd state with_link];
    reflexivity.
Qed.

Lemma lost_update_settle (i : nat) (w : World) :
  (if islost (get_slave i w) then lost_update i w (get_slave i w) else get_slave i w)
  = settle_lost rep rv i (get_slave i w).
Proof.
  unfold settle_lost, lost_update.
  destruct (steady_results i w) as (_ & -> & _).
  destruct (islost (get_slave i w)); [|reflexivity].
  destruct (state (get_slave i w) =? EC_STATE_NONE); cbn [fst snd]; [|reflexivity].
  destruct (rv i =? 0); reflexivity.
Qed.

Lemma primary_action_group (i : nat) (w : World) :
  ec_group (primary_action i w)
  = alter (with_docheckstate true) (Z.to_nat currentgroup) (ec_group w).
Proof.
  rewrite primary_action_eq; cbv zeta.
  destruct (select_recovery (get_slave i w)); try reflexivity.
  - unfold do_reconfig_slave. destruct (ec_reconfig_slave _ _ _ _) as [[r l] e].
    cbn [fst snd]. destruct (r =? 0); reflexivity.
  - unfold do_statecheck. destruct (ec_statecheck _ _ _ _ _) as [l e].
    destruct (_ =? _); reflexivity.
Qed.

Lemma lost_action_group (i : nat) (w : World) : ec_group (lost_action i w) = ec_group w.
Proof.
  rewrite lost_action_eq; cbv zeta.
  destruct (_ =? _); [|reflexivity].
  unfold do_recover_slave. destruct (ec_recover_slave _ _ _ _) as [[r l] e].
  cbn [fst snd]. destruct (r =? 0); reflexivity.
Qed.

Lemma select_recovery_fits (x : ec_slavet) (r : Z) :
  handled x = true ->
  (select_recovery x = Acknowledge /\ r = to_uint16 (EC_STATE_SAFE_OP + EC_STATE_ACK))
  \/ (select_recovery x = Promote /\ r = to_uint16 EC_STATE_OPERATIONAL) ->
  fitting_request x r.
Proof.
  unfold handled, select_recovery, fitting_request.
  intros H. apply andb_true_iff in H. destruct H as (_ & H).
  apply negb_true_iff, Z.eqb_neq in H.
  destruct (Z.eqb_spec (state x) (EC_STATE_SAFE_OP + EC_STATE_ERROR)) as [E1|E1].
  - intros [(_ & ->)|(D & _)]; [auto | discriminate D].
  - destruct (Z.eqb_spec (state x) EC_STATE_SAFE_OP) as [E2|E2].
    + intros [(D & _)|(_ & ->)]; [discriminate D | auto].
    + destruct (EC_STATE_NONE <? state x); [|destruct (negb (islost x))];
        intros [(D & _)|(D & _)]; discriminate D.
Qed.

Lemma primary_events_requests (i j : nat) (r : Z) (w : World) :
  In (Call_writestate j r) (primary_events i w) ->
  j = i
  /\ ((select_recovery (get_slave i w) = Acknowledge
       /\ r = to_uint16 (EC_STATE_SAFE_OP + EC_STATE_ACK))
      \/ (select_recovery (get_slave i w) = Promote
          /\ r = to_uint16 EC_STATE_OPERATIONAL)).
Proof.
  unfold primary_events.
  destruct (select_recovery (get_slave i w)); cbn [In].
  - intros [D|[E|[]]]; [discriminate D|]. injection E as -> ->. auto.
  - intros [D|[E|[]]]; [discriminate D|]. injection E as -> ->. auto.
  - destruct (_ =? _); cbn [In]; intros [D|H]; try discriminate D;
      try contradiction. destruct H as [D|[]]; discriminate D.
  - destruct (_ =? _); cbn [In]; intros [D|H]; try discriminate D;
      try contradiction. destruct H as [D|[]]; discriminate D.
  - contradiction.
Qed.

Lemma lost_events_requests (i j : nat) (r : Z) (w : World) :
  ~ In (Call_writestate j r) (lost_events i w).
Proof.
  unfold lost_events.
  destruct (_ =? _); [destruct (_ =? _)|]; cbn [In]; intros H;
    repeat (destruct H as [H|H]; [discriminate H|]); contradiction.
Qed.

(** One device, in a steady environment. *)
Lemma check_slave_steady (i : nat) (w : World) :
  (i < length (ec_slave w))%nat ->
  ec_slave (check_slave i w) = alter (settle rep rc rv i) i (ec_slave w)
  /\ ec_slavecount (check_slave i w) = ec_slavecount w
  /\ ec_group (check_slave i w)
     = (if handled (get_slave i w)
        then alter (with_docheckstate true) (Z.to_nat currentgroup) (ec_group w)
        else ec_group w)
  /\ exists evs : list event,
       trace (check_slave i w) = trace w ++ evs
       /\ forall (j : nat) (r : Z),
            In (Call_writestate j r) evs -> j = i /\ fitting_request (get_slave i w) r.
Proof.
  intros H. rewrite check_slave_eq; cbv zeta.
  pose proof (primary_update_settle i w) as U1.
  assert (S1 : slave_step i (if handled (get_slave i w)
                             then primary_update i w else fun x => x)
                          (if handled (get_slave i w) then primary_events i w else [])
                          w (if handled (get_slave i w) then primary_action i w else w)).
  { destruct (handled (get_slave i w));
      [apply primary_action_step; exact H | apply slave_step_refl]. }
  assert (G1 : ec_group (if handled (get_slave i w) then primary_action i w else w)
               = (if handled (get_slave i w)
                  then alter (with_docheckstate true) (Z.to_nat currentgroup) (ec_group w)
                  else ec_group w)).
  { destruct (handled (get_slave i w)); [apply primary_action_group | reflexivity]. }
  assert (R1 : forall j r,
             In (Call_writestate j r)
                (if handled (get_slave i w) then primary_events i w else []) ->
             j = i /\ fitting_request (get_slave i w) r).
  { intros j r. destruct (handled (get_slave i w)) eqn:Hd; [|contradiction].
    intros Hin. apply primary_events_requests in Hin. destruct Hin as (-> & Hin).
    split; [reflexivity | apply select_recovery_fits; assumption]. }
  destruct (slave_step_get _ _ _ _ _ S1 H) as (X1 & H1).
  revert S1 G1 X1 H1.
  generalize (if handled (get_slave i w) then primary_action i w else w) as w1.
  intros w1 S1 G1 X1 H1.
  pose proof (lost_update_settle i w1) as U2.
  assert (S2 : slave_step i (if islost (get_slave i w1)
                             then lost_update i w1 else fun x => x)
                          (if islost (get_slave i w1) then lost_events i w1 else [])
                          w1 (if islost (get_slave i w1) then lost_action i w1 else w1)).
  { destruct (islost (get_slave i w1)); [apply lost_action_step | apply slave_step_refl]. }
  assert (G2 : ec_group (if islost (get_slave i w1) then lost_action i w1 else w1)
               = ec_group w1).
  { destruct (islost (get_slave i w1)); [apply lost_action_group | reflexivity]. }
  assert (R2 : forall j r,
             ~ In (Call_writestate j r)
                  (if islost (get_slave i w1) then lost_events i w1 else [])).
  { intros j r. destruct (islost (get_slave i w1));
      [apply lost_events_requests | intros []]. }
  revert S2 G2.
  generalize (if islost (get_slave i w1) then lost_action i w1 else w1) as w2.
  intros w2 S2 G2.
  destruct (slave_step_trans _ _ _ _ _ _ _ _ S1 S2) as (T1 & T2 & T3).
  split.
  { rewrite T1. apply list_alter_ext; [|reflexivity].
    intros x Hx. unfold settle.
    assert (Ex : get_slave i w = x) by (unfold get_slave; rewrite Hx; reflexivity).
    subst x.
    assert (X1' : get_slave i w1
                  = if handled (get_slave i w)
                    then primary_update i w (get_slave i w) else get_slave i w).
    { rewrite X1. destruct (handled (get_slave i w)); reflexivity. }
    rewrite <- X1, <- U1, <- X1', <- U2.
    destruct (islost (get_slave i w1)); reflexivity. }
  split; [exact T2|].
  split; [rewrite G2; exact G1|].
  eexists. split; [exact T3|].
  intros j r Hin. apply in_app_or in Hin. destruct Hin as [Hin|Hin].
  - apply R1. exact Hin.
  - exfalso. exact (R2 j r Hin).
Qed.

Lemma existsb_in_ext (f g : nat -> bool) (l : list nat) :
  (forall j, In j l -> f j = g j) -> existsb f l = existsb g l.
Proof.
  induction l as [|a l IH]; intros H; [reflexivity|].
  cbn [existsb]. rewrite (H a (in_eq _ _)), IH; [reflexivity|].
  intros j Hj. apply H, in_cons, Hj.
Qed.

Lemma alter_docheckstate_twice (b : bool) (k : nat) (g : list ec_groupt) (b' : bool) :
  alter (with_docheckstate b) k (alter (with_docheckstate b') k g)
  = alter (with_docheckstate b) k g.
Proof.
  rewrite list_alter_alter_eq. apply list_alter_ext; [|reflexivity].
  intros x _. reflexivity.
Qed.

(** The loop over the devices, in a steady environment. *)
Lemma check_slaves_steady (n : nat) :
  forall (first : nat) (w : World),
    (first + n <= length (ec_slave w))%nat ->
    ec_slave (check_slaves n first w)
    = imap (fun i x => if Nat.leb first i && Nat.ltb i (first + n)
                       then settle rep rc rv i x else x) (ec_slave w)
    /\ ec_slavecount (check_slaves n first w) = ec_slavecount w
    /\ ec_group (check_slaves n first w)
       = (if any_handled (ec_slave w) first n
          then alter (with_docheckstate true) (Z.to_nat currentgroup) (ec_group w)
          else ec_group w)
    /\ exists evs : list event,
         trace (check_slaves n first w) = trace w ++ evs
         /\ forall (j : nat) (r : Z),
              In (Call_writestate j r) evs ->
              (first <= j < first + n)%nat /\ fitting_request (get_slave j w) r.
Proof.
  induction n as [|n IH]; intros first w Hlen.
  - cbn [check_slaves]. split; [|split; [reflexivity|split; [reflexivity|]]].
    + apply list_eq. intros i. rewrite list_lookup_imap.
      destruct (ec_slave w !! i); [|reflexivity]. cbn [fmap option_fmap option_map].
      destruct (Nat.leb_spec first i), (Nat.ltb_spec i (first + 0));
        try reflexivity; lia.
    + exists []. rewrite app_nil_r. split; [reflexivity | intros j r []].
  - cbn [check_slaves].
    destruct (check_slave_steady first w) as (A1 & A2 & A3 & evs1 & A4 & A5); [lia|].
    revert A1 A2 A3 A4. generalize (check_slave first w) as w'. intros w' A1 A2 A3 A4.
    destruct (IH (S first) w') as (B1 & B2 & B3 & evs2 & B4 & B5).
    { rewrite A1, length_alter. lia. }
    assert (Hget : forall j, j <> first -> get_slave j w' = get_slave j w).
    { intros j Hj. unfold get_slave. rewrite A1, list_lookup_alter_ne by auto.
      reflexivity. }
    split; [|split; [congruence|split]].
    + rewrite B1, A1. apply list_eq. intros i.
      rewrite !list_lookup_imap, list_lookup_alter.
      destruct (decide (first = i)) as [<-|Hne].
      * destruct (ec_slave w !! first); [|reflexivity].
        cbn [fmap option_fmap option_map].
        replace (Nat.leb (S first) first) with false
          by (symmetry; apply Nat.leb_gt; lia).
        replace (Nat.leb first first) with true by (symmetry; apply Nat.leb_le; lia).
        replace (Nat.ltb first (first + S n)) with true
          by (symmetry; apply Nat.ltb_lt; lia).
        reflexivity.
      * destruct (ec_slave w !! i); [|reflexivity].
        cbn [fmap option_fmap option_map].
        replace (Nat.leb (S first) i && Nat.ltb i (S first + n))
          with (Nat.leb first i && Nat.ltb i (first + S n)); [reflexivity|].
        destruct (Nat.leb_spec first i), (Nat.leb_spec (S first) i),
          (Nat.ltb_spec i (first + S n)), (Nat.ltb_spec i (S first + n));
          try reflexivity; lia.
    + rewrite B3, A3.
      assert (E : any_handled (ec_slave w') (S first) n
                  = any_handled (ec_slave w) (S first) n).
      { unfold any_handled. apply existsb_in_ext. intros j Hj.
        apply in_seq in Hj. rewrite A1, list_lookup_alter_ne by lia. reflexivity. }
      rewrite E.
      assert (U : any_handled (ec_slave w) first (S n)
                  = handled (get_slave first w) || any_handled (ec_slave w) (S first) n)
        by reflexivity.
      rewrite U.
      destruct (handled (get_slave first w)), (any_handled (ec_slave w) (S first) n);
        cbn [orb]; try reflexivity.
      apply alter_docheckstate_twice.
    + exists (evs1 ++ evs2). split; [rewrite B4, A4, app_assoc; reflexivity|].
      intros j r Hin. apply in_app_or in Hin. destruct Hin as [Hin|Hin].
      * destruct (A5 j r Hin) as (-> & F). split; [lia | exact F].
      * destruct (B5 j r Hin) as (R & F). split; [lia|].
        rewrite <- Hget by lia. exact F.
Qed.

Lemma do_readstate_steady (w : World) :
  ec_slave (do_readstate w) = imap (refresh rep (ec_slavecount w)) (ec_slave w)
  /\ ec_slavecount (do_readstate w) = ec_slavecount w
  /\ ec_group (do_readstate w) = ec_group w
  /\ trace (do_readstate w) = trace w ++ [Call_readstate].
Proof.
  destruct Hsteady as (H1 & _).
  unfold do_readstate. specialize (H1 (ext w)).
  destruct (ec_readstate (ext w)) as [f e]. cbn [fst] in H1.
  cbn [emit set_ec_slave set_ext ec_slave ec_slavecount ec_group trace].
  split; [|repeat split].
  apply imap_ext. intros i x _. unfold refresh. rewrite H1. reflexivity.
Qed.

Ltac split_if :=
  match goal with
  | |- context [if ?c then _ else _] =>
      lazymatch c with
      | context [if _ then _ else _] => fail
      | _ => destruct c eqn:?
      end
  end.

Lemma group_settle (i : nat) (y : ec_slavet) : group (settle rep rc rv i y) = group y.
Proof.
  unfold settle, settle_lost, settle_primary.
  destruct (handled y); [destruct (select_recovery y)|];
    repeat (cbn [state islost group with_link with_state with_islost]; split_if);
    reflexivity.
Qed.

Lemma group_refresh (n : Z) (i : nat) (y : ec_slavet) : group (refresh rep n i y) = group y.
Proof. unfold refresh. destruct (_ <=? _); reflexivity. Qed.

Lemma group_swept (n : Z) (i : nat) (y : ec_slavet) :
  group (swept rep rc rv n i y) = group y.
Proof.
  unfold swept. destruct (_ && _); rewrite ?group_settle, group_refresh; reflexivity.
Qed.

Hypothesis Hack : to_uint16 (EC_STATE_SAFE_OP + EC_STATE_ACK) <> EC_STATE_NONE.

Hypothesis Hop : to_uint16 EC_STATE_OPERATIONAL <> EC_STATE_NONE.

Lemma settle_refresh_idempotent (i : nat) (x : ec_slavet) :
  settle rep rc rv i (with_link (rep i) (settle rep rc rv i (with_link (rep i) x)))
  = settle rep rc rv i (with_link (rep i) x).
Proof.
  pose proof Hack as Ha. pose proof Hop as Ho. apply Z.eqb_neq in Ha, Ho.
  destruct x as [st al g l].
  unfold settle, settle_lost, settle_primary, handled, select_recovery.
  destruct (rep i) as [r al'].
  repeat (cbn [negb andb state islost group ALstatuscode with_link with_state
               with_islost l_state l_ALstatuscode];
          rewrite ?Ha, ?Ho;
          split_if);
    cbn [negb andb state islost group ALstatuscode with_link with_state
         with_islost l_state l_ALstatuscode];
    try reflexivity; try discriminate.
Qed.

Lemma swept_idempotent (n : Z) (i : nat) (x : ec_slavet) :
  swept rep rc rv n i (swept rep rc rv n i x) = swept rep rc rv n i x.
Proof.
  unfold swept, refresh.
  destruct (Nat.leb 1 i && Nat.leb i (Z.to_nat n)) eqn:C.
  - apply andb_true_iff in C. destruct C as (C1 & C2).
    apply Nat.leb_le in C1, C2.
    replace (Z.of_nat i <=? n) with true by (symmetry; apply Z.leb_le; lia).
    apply settle_refresh_idempotent.
  - destruct (Z.of_nat i <=? n); reflexivity.
Qed.

(** The whole sweep, in a steady environment. *)
Lemma sweep_steady (w : World) :
  (Z.to_nat (ec_slavecount w) < length (ec_slave w))%nat ->
  ec_slave (sweep w) = imap (swept rep rc rv (ec_slavecount w)) (ec_slave w)
  /\ ec_slavecount (sweep w) = ec_slavecount w
  /\ ec_group (sweep w)
     = alter (with_docheckstate
                (any_handled (imap (refresh rep (ec_slavecount w)) (ec_slave w)) 1
                             (Z.to_nat (ec_slavecount w))))
             (Z.to_nat currentgroup) (ec_group w)
  /\ exists evs : list event,
       trace (sweep w) = trace w ++ evs
       /\ forall (j : nat) (r : Z),
            In (Call_writestate j r) evs ->
            l_state (rep j) <> EC_STATE_OPERATIONAL
            /\ ((l_state (rep j) = EC_STATE_SAFE_OP + EC_STATE_ERROR
                 /\ r = to_uint16 (EC_STATE_SAFE_OP + EC_STATE_ACK))
                \/ (l_state (rep j) = EC_STATE_SAFE_OP
                    /\ r = to_uint16 EC_STATE_OPERATIONAL)).
Proof.
  intros Hlen. rewrite sweep_eq; cbv zeta.
  set (w1 := upd_group currentgroup (with_docheckstate false)
               (if needlf w then printf "\n" [] (set_needlf false w) else w)).
  assert (P : ec_slave w1 = ec_slave w
              /\ ec_slavecount w1 = ec_slavecount w
              /\ ec_group w1
                 = alter (with_docheckstate false) (Z.to_nat currentgroup) (ec_group w)
              /\ trace w1 = trace w ++ (if needlf w then [Printf "\n" []] else [])).
  { subst w1. destruct (needlf w); cbn; rewrite ?app_nil_r; repeat split. }
  destruct P as (P1 & P2 & P3 & P4).
  destruct (do_readstate_steady w1) as (Q1 & Q2 & Q3 & Q4).
  rewrite P1, P2 in Q1. rewrite P2 in Q2. rewrite P3 in Q3. rewrite P4 in Q4.
  revert Q1 Q2 Q3 Q4. generalize (do_readstate w1) as w2. clear w1 P1 P2 P3 P4.
  intros w2 Q1 Q2 Q3 Q4. rewrite Q2.
  destruct (check_slaves_steady (Z.to_nat (ec_slavecount w)) 1 w2)
    as (R1 & R2 & R3 & evs & R4 & R5).
  { rewrite Q1, length_imap. lia. }
  assert (Hget : forall j, (j < length (ec_slave w))%nat ->
                           get_slave j w2 = refresh rep (ec_slavecount w) j (get_slave j w)).
  { intros j Hj. unfold get_slave. rewrite Q1, list_lookup_imap.
    destruct (lookup_lt_is_Some_2 _ _ Hj) as [x ->]. reflexivity. }
  rewrite Q1 in R1. rewrite Q2 in R2. rewrite Q1, Q3 in R3. rewrite Q4 in R4.
  revert R1 R2 R3 R4.
  generalize (check_slaves (Z.to_nat (ec_slavecount w)) 1 w2) as w3.
  intros w3 R1 R2 R3 R4.
  assert (F : ec_slave (if negb (docheckstate (get_group currentgroup w3))
                        then printf "OK : all slaves resumed OPERATIONAL.\n" [] w3
                        else w3) = ec_slave w3
              /\ ec_slavecount (if negb (docheckstate (get_group currentgroup w3))
                                then printf "OK : all slaves resumed OPERATIONAL.\n" [] w3
                                else w3) = ec_slavecount w3
              /\ ec_group (if negb (docheckstate (get_group currentgroup w3))
                           then printf "OK : all slaves resumed OPERATIONAL.\n" [] w3
                           else w3) = ec_group w3
              /\ exists tl,
                   trace (if negb (docheckstate (get_group currentgroup w3))
                          then printf "OK : all slaves resumed OPERATIONAL.\n" [] w3
                          else w3) = trace w3 ++ tl
                   /\ forall j r, ~ In (Call_writestate j r) tl).
  { destruct (negb _).
    - repeat split. eexists. split; [reflexivity|].
      intros j r [D|[]]. discriminate D.
    - repeat split. exists []. rewrite app_nil_r. split; [reflexivity | intros j r []]. }
  destruct F as (F1 & F2 & F3 & tl & F4 & F5).
  rewrite F1, F2, F3, F4, R1, R2, R3, R4.
  split; [|split; [reflexivity|split]].
  - apply list_eq. intros i. rewrite !list_lookup_imap.
    destruct (ec_slave w !! i); [|reflexivity]. cbn [fmap option_fmap option_map].
    unfold swept.
    replace (Nat.ltb i (1 + Z.to_nat (ec_slavecount w)))
      with (Nat.leb i (Z.to_nat (ec_slavecount w))); [reflexivity|].
    destruct (Nat.leb_spec i (Z.to_nat (ec_slavecount w))),
      (Nat.ltb_spec i (1 + Z.to_nat (ec_slavecount w))); try reflexivity; lia.
  - destruct (any_handled _ _ _).
    + apply alter_docheckstate_twice.
    + reflexivity.
  - exists ((if needlf w then [Printf "\n" []] else []) ++ [Call_readstate] ++ evs ++ tl).
    split; [rewrite <- !app_assoc; reflexivity|].
    intros j r Hin.
    assert (Hin' : In (Call_writestate j r) evs).
    { apply in_app_or in Hin. destruct Hin as [Hin|Hin].
      - revert Hin. destruct (needlf w); intros Hin;
          [destruct Hin as [D|[]]; discriminate D | destruct Hin].
      - cbn [app] in Hin. destruct Hin as [D|Hin]; [discriminate D|].
        apply in_app_or in Hin. destruct Hin as [Hin|Hin]; [exact Hin|].
        exfalso. exact (F5 j r Hin). }
    destruct (R5 j r Hin') as (Hj & Hfit).
    rewrite Hget in Hfit by lia.
    unfold refresh in Hfit.
    replace (Z.of_nat j <=? ec_slavecount w) with true in Hfit
      by (symmetry; apply Z.leb_le; lia).
    exact Hfit.
Qed.

(** C8.  In a steady environment (no device changes the link state it
    reports, the recovery calls keep their outcomes), with the
    acknowledge and operational request values different from NONE and
    a device table that holds every device, a second sweep leaves the
    device records (state, lost flag) and the group record (needs
    re-check flag) as the first sweep left them; and the second sweep
    sends a state request only to a device that still reports the
    state the request is meant to leave (the acknowledge to a device
    in SAFE_OP + ERROR, the promotion to a device in SAFE_OP), never
    to a device that reports operational. *)
Theorem sweep_idempotent (w : World) :
  (Z.to_nat (ec_slavecount w) < length (ec_slave w))%nat ->
  ec_slave (sweep (sweep w)) = ec_slave (sweep w)
  /\ ec_group (sweep (sweep w)) = ec_group (sweep w)
  /\ forall evs : list event,
       trace (sweep (sweep w)) = trace (sweep w) ++ evs ->
       forall (j : nat) (r : Z),
         In (Call_writestate j r) evs ->
         l_state (rep j) <> EC_STATE_OPERATIONAL
         /\ ((l_state (rep j) = EC_STATE_SAFE_OP + EC_STATE_ERROR
              /\ r = to_uint16 (EC_STATE_SAFE_OP + EC_STATE_ACK))
             \/ (l_state (rep j) = EC_STATE_SAFE_OP
                 /\ r = to_uint16 EC_STATE_OPERATIONAL)).
Proof.
  intros Hlen.
  destruct (sweep_steady w Hlen) as (A1 & A2 & A3 & _).
  assert (Hlen2 : (Z.to_nat (ec_slavecount (sweep w)) < length (ec_slave (sweep w)))%nat).
  { rewrite A1, A2, length_imap. exact Hlen. }
  destruct (sweep_steady (sweep w) Hlen2) as (B1 & _ & B3 & evs0 & B4 & B5).
  revert Hlen2 B1 B3 B4 A1 A2 A3.
  generalize (sweep (sweep w)) as w''. generalize (sweep w) as w'.
  intros w' w'' Hlen2 B1 B3 B4 A1 A2 A3.
  rewrite A2 in B1, B3.
  split; [|split].
  - rewrite B1, A1. apply list_eq. intros i. rewrite !list_lookup_imap.
    destruct (ec_slave w !! i); [|reflexivity]. cbn [fmap option_fmap option_map].
    rewrite swept_idempotent. reflexivity.
  - rewrite B3, A3, alter_docheckstate_twice. f_equal. f_equal.
    unfold any_handled. apply existsb_in_ext. intros j Hj. apply in_seq in Hj.
    rewrite A1, !list_lookup_imap.
    destruct (ec_slave w !! j); [|reflexivity]. cbn [fmap option_fmap option_map default].
    unfold refresh.
    replace (Z.of_nat j <=? ec_slavecount w) with true
      by (symmetry; apply Z.leb_le; lia).
    unfold handled, id. cbn [group state with_link]. rewrite group_swept. reflexivity.
  - intros evs Hevs j r Hin. rewrite B4 in Hevs. apply app_inv_head in Hevs. subst evs0.
    exact (B5 j r Hin).
Qed.

End Idempotence.

(** * Further properties of the program *)

Section Startup.

Context {M : Master}.

Lemma stack_step_extends (evs : list event) (w w' : World) :
  stack_step evs w w' -> extends w w'.
Proof. intros (_ & _ & _ & _ & _ & _ & _ & H). exists evs. exact H. Qed.

Lemma emit_extends (e : event) (w : World) : extends w (emit e w).
Proof. exists [e]. reflexivity. Qed.

Lemma accepted_extends (i j : Z) (w : World) : extends w (snd (accepted i j w)).
Proof.
  rewrite accepted_eq. cbn [snd].
  set (w1 := if to_int32 (j + 1) =? 1 then store_OpMode 9 w else w).
  assert (E1 : extends w w1).
  { subst w1. destruct (_ =? _); [eexists; reflexivity | apply extends_refl]. }
  assert (E2 : extends w1 (DriveStateMachine w1)).
  { eexists. apply DriveStateMachine_trace. }
  assert (E3 : extends (DriveStateMachine w1)
                       (set_needlf true (print_status i (DriveStateMachine w1)))).
  { destruct (print_status_frame i (DriveStateMachine w1)) as (_ & _ & _ & _ & P).
    destruct P as (l1 & l2 & l3 & l4 & l5 & l6 & l7 & P).
    destruct (set_needlf_frame true (print_status i (DriveStateMachine w1)))
      as (_ & _ & _ & N).
    eexists. rewrite N. exact P. }
  exact (extends_trans _ _ _ E1 (extends_trans _ _ _ E2 E3)).
Qed.

Lemma cycle_extends (i j : Z) (w : World) : extends w (snd (cycle i j w)).
Proof.
  rewrite cycle_exchanged.
  assert (E0 : extends w (exchanged w)).
  { eexists. apply exchanged_facts. }
  pose proof (accepted_extends i j (exchanged w)) as E1.
  revert E0 E1. generalize (exchanged w) as we. intros we E0.
  generalize (accepted i j we) as a. intros [ja wa] E1. cbn [fst snd] in *.
  destruct (_ <=? _); cbn [snd].
  - exact (extends_trans _ _ _ E0 (extends_trans _ _ _ E1 (emit_extends _ _))).
  - exact (extends_trans _ _ _ E0 (emit_extends _ _)).
Qed.

Lemma cyclic_loop_extends (n : nat) :
  forall (i j : Z) (w : World), extends w (snd (cyclic_loop n i j w)).
Proof.
  induction n as [|n IH]; intros i j w.
  - apply extends_refl.
  - rewrite cyclic_loop_S.
    exact (extends_trans _ _ _ (cycle_extends i j w) (IH _ _ _)).
Qed.

Lemma cyclic_phase_extends (w : World) : extends w (cyclic_phase w).
Proof.
  rewrite cyclic_phase_eq.
  set (w0 := set_inOP true (printf "Operational state reached for all slaves.\n" [] w)).
  assert (E0 : extends w w0) by (eexists; reflexivity).
  pose proof (cyclic_loop_extends (Z.to_nat 10000) 1 0 w0) as E1.
  revert E1. generalize (snd (cyclic_loop (Z.to_nat 10000) 1 0 w0)) as w1. intros w1 E1.
  destruct E1 as [evs E1]. destruct E0 as [ev0 E0].
  exists (ev0 ++ evs). change (trace (set_inOP false w1)) with (trace w1).
  rewrite E1, E0, app_assoc. reflexivity.
Qed.

Lemma request_init_extends (w : World) : extends w (request_init w).
Proof.
  eexists. unfold request_init, do_writestate, upd_slave, printf.
  cbn [emit set_ext set_ec_slave trace]. rewrite <- app_assoc. reflexivity.
Qed.

Lemma control_extends (w : World) : extends w (control w).
Proof.
  rewrite control_eq.
  destruct (wait_operational_spec 200 w) as (k & _ & S1 & _).
  apply stack_step_extends in S1.
  revert S1. generalize (wait_operational 200 w) as w1. intros w1 S1.
  apply (extends_trans _ _ _ S1).
  destruct (_ =? _).
  - exact (extends_trans _ _ _ (cyclic_phase_extends w1) (request_init_extends _)).
  - exact (extends_trans _ _ _ (stack_step_extends _ _ _ (operational_timeout_spec w1))
             (request_init_extends _)).
Qed.

Lemma map_slaves_extends (w : World) : extends w (map_slaves w).
Proof.
  unfold map_slaves.
  set (w1 := printf "%d slaves found and configured.\n" [AInt (ec_slavecount w)] w).
  assert (E1 : extends w w1) by apply emit_extends.
  assert (E2 : extends w1 (do_config_map w1)).
  { unfold do_config_map. destruct (ec_config_map _ _) as [c e]. eexists. reflexivity. }
  revert E1 E2. generalize w1 as w1'. clear w1. intros w1 E1.
  generalize (do_config_map w1) as w2. intros w2 E2.
  assert (E3 : extends w2 (printf "Slaves mapped, state to SAFE_OP.\n" [] (do_configdc w2))).
  { eexists. unfold printf, do_configdc. cbn [emit set_ext trace].
    rewrite <- app_assoc. reflexivity. }
  revert E3. generalize (printf "Slaves mapped, state to SAFE_OP.\n" [] (do_configdc w2)) as w3.
  intros w3 E3.
  pose proof (stack_step_extends _ _ _
                (do_statecheck_step 0 EC_STATE_SAFE_OP (EC_TIMEOUTSTATE * 4) w3)) as E4.
  revert E4.
  generalize (do_statecheck 0 EC_STATE_SAFE_OP (EC_TIMEOUTSTATE * 4) w3) as w4.
  intros w4 E4.
  exact (extends_trans _ _ _ E1
           (extends_trans _ _ _ E2
              (extends_trans _ _ _ E3
                 (extends_trans _ _ _ E4 (emit_extends _ _))))).
Qed.

Lemma request_operational_extends (w : World) : extends w (request_operational w).
Proof.
  unfold request_operational.
  match goal with
  | |- context [do_receive ?t ?x] =>
      pose proof (do_receive_step t x) as S;
      assert (E0 : extends w x)
        by (eexists; unfold do_send, upd_slave, printf;
            cbn [emit set_ext set_ec_slave set_expectedWKC trace];
            rewrite <- !app_assoc; reflexivity);
      revert S E0; generalize x as w0; intros w0 S E0;
      destruct (do_receive t w0) as [r w1]
  end.
  cbn [snd] in S. apply stack_step_extends in S.
  exact (extends_trans _ _ _ E0
           (extends_trans _ _ _ S
              (stack_step_extends _ _ _ (do_writestate_step 0 w1)))).
Qed.

Lemma configured_extends (w : World) : extends w (configured w).
Proof.
  unfold configured.
  exact (extends_trans _ _ _ (map_slaves_extends w)
           (extends_trans _ _ _ (request_operational_extends _) (control_extends _))).
Qed.

(** X1.  When [ec_init] fails, [simpletest] prints its two messages
    around the one call and returns: no configuration, no exchange, no
    [ec_close]; tables, process images and counters are as they were. *)
Theorem simpletest_without_socket (ifname : string) (w : World) :
  fst (ec_init ifname (ext w)) = 0 ->
  trace (simpletest ifname w)
  = trace w ++ [Printf "Starting simple test\n" []; Call_init ifname;
                Printf "No socket connection on %s\nExcecute as root\n" [AStr ifname]]
  /\ same_tables w (simpletest ifname w)
  /\ outputs (simpletest ifname w) = outputs w
  /\ inputs (simpletest ifname w) = inputs w
  /\ expectedWKC (simpletest ifname w) = expectedWKC w
  /\ needlf (simpletest ifname w) = false
  /\ inOP (simpletest ifname w) = false.
Proof.
  intros H. unfold simpletest, do_init.
  change (ext (printf "Starting simple test\n" [] (set_inOP false (set_needlf false w))))
    with (ext w).
  destruct (ec_init ifname (ext w)) as [r e]. cbn [fst] in H. subst r.
  change (negb (0 =? 0)) with false. cbv iota.
  unfold same_tables, printf.
  cbn [emit set_ext set_inOP set_needlf trace ec_slave ec_group ec_slavecount outputs
       inputs expectedWKC needlf inOP].
  rewrite <- !app_assoc. repeat split.
Qed.

(** X2.  When the socket opens but [ec_config_init] finds no slave,
    [simpletest] reports it and closes the socket: nothing is mapped,
    no process data is exchanged, no state is requested, the output
    image and [expectedWKC] are as they were. *)
Theorem simpletest_without_slaves (ifname : string) (w : World) :
  fst (ec_init ifname (ext w)) <> 0 ->
  fst (fst (ec_config_init false (snd (ec_init ifname (ext w))))) <= 0 ->
  trace (simpletest ifname w)
  = trace w ++ [Printf "Starting simple test\n" []; Call_init ifname;
                Printf "ec_init on %s succeeded.\n" [AStr ifname];
                Call_config_init;
                Printf "No slaves found!\n" [];
                Printf "End simple test, close socket\n" [];
                Call_close]
  /\ outputs (simpletest ifname w) = outputs w
  /\ expectedWKC (simpletest ifname w) = expectedWKC w
  /\ inOP (simpletest ifname w) = false.
Proof.
  intros H1 H2. unfold simpletest, do_init.
  change (ext (printf "Starting simple test\n" [] (set_inOP false (set_needlf false w))))
    with (ext w).
  destruct (ec_init ifname (ext w)) as [r e]. cbn [fst snd] in H1, H2.
  apply Z.eqb_neq in H1. rewrite H1. cbn [negb]. cbv iota.
  unfold do_config_init.
  match goal with
  | |- context [ec_config_init false ?x] => change x with e
  end.
  destruct (ec_config_init false e) as [[n c] e']. cbn [fst] in H2.
  replace (0 <? n) with false by (symmetry; apply Z.ltb_ge; exact H2).
  unfold printf, do_close.
  cbn [emit set_ext set_inOP set_needlf set_config trace outputs expectedWKC inOP].
  rewrite <- !app_assoc. repeat split.
Qed.

(** X3.  Whenever [ec_init] succeeds, whatever the stack does next, the
    last two events of [simpletest] are the closing notice and
    [ec_close]. *)
Theorem simpletest_closes_socket (ifname : string) (w : World) :
  fst (ec_init ifname (ext w)) <> 0 ->
  exists evs : list event,
    trace (simpletest ifname w)
    = trace w ++ [Printf "Starting simple test\n" []; Call_init ifname;
                  Printf "ec_init on %s succeeded.\n" [AStr ifname];
                  Call_config_init]
              ++ evs
              ++ [Printf "End simple test, close socket\n" []; Call_close].
Proof.
  intros H1. unfold simpletest, do_init.
  change (ext (printf "Starting simple test\n" [] (set_inOP false (set_needlf false w))))
    with (ext w).
  destruct (ec_init ifname (ext w)) as [r e]. cbn [fst] in H1.
  apply Z.eqb_neq in H1. rewrite H1. cbn [negb]. cbv iota.
  unfold do_config_init.
  match goal with
  | |- context [ec_config_init false ?x] => change x with e
  end.
  destruct (ec_config_init false e) as [[n c] e'].
  match goal with
  | |- context [emit Call_config_init ?x] =>
      assert (T : trace (emit Call_config_init x)
                  = trace w ++ [Printf "Starting simple test\n" []; Call_init ifname;
                                Printf "ec_init on %s succeeded.\n" [AStr ifname];
                                Call_config_init])
        by (unfold printf;
            cbn [emit set_ext set_inOP set_needlf set_config trace];
            rewrite <- !app_assoc; reflexivity);
      revert T; generalize (emit Call_config_init x) as w3; intros w3 T
  end.
  assert (E : extends w3 (if 0 <? n then configured w3
                          else printf "No slaves found!\n" [] w3)).
  { destruct (0 <? n); [apply configured_extends | apply emit_extends]. }
  revert E.
  generalize (if 0 <? n then configured w3 else printf "No slaves found!\n" [] w3) as w4.
  intros w4 [evs E]. exists evs.
  unfold do_close, printf. cbn [emit set_ext trace].
  rewrite E, T, <- !app_assoc. reflexivity.
Qed.

End Startup.

Section OperationalWait.

Context {M : Master}.





End OperationalWait.

Section Cycles.

Context {M : Master}.

Lemma calls_app (t u : list event) : calls (t ++ u) = calls t ++ calls u.
Proof. apply List.filter_app. Qed.

Lemma exchanges_app (t u : list event) : exchanges (t ++ u) = exchanges t ++ exchanges u.
Proof. apply List.filter_app. Qed.

Lemma machine_stores_silent (sw : Z) :
  calls (machine_stores sw) = [] /\ prints (machine_stores sw) = []
  /\ exchanges (machine_stores sw) = [].
Proof.
  unfold machine_stores.
  destruct (first_match sw) as [[[m p] c]|]; [destruct c|]; repeat split.
Qed.

Lemma print_status_trace (i : Z) (w : World) :
  trace (print_status i w)
  = trace w ++ status_line i {| rx_wkc := wkc w; rx_inputs := inputs w;
                                rx_DCtime := ec_DCtime w |}.
Proof.
  unfold print_status, printf, status_line.
  cbn [emit trace wkc inputs ec_DCtime rx_wkc rx_inputs rx_DCtime].
  rewrite <- !app_assoc. reflexivity.
Qed.

Lemma print_status_fields (i : Z) (w : World) :
  same_tables w (print_status i w)
  /\ inputs (print_status i w) = inputs w
  /\ wkc (print_status i w) = wkc w
  /\ ec_DCtime (print_status i w) = ec_DCtime w.
Proof. repeat split. Qed.

Lemma DriveStateMachine_fields (w : World) :
  same_tables w (DriveStateMachine w)
  /\ inputs (DriveStateMachine w) = inputs w
  /\ wkc (DriveStateMachine w) = wkc w
  /\ ec_DCtime (DriveStateMachine w) = ec_DCtime w.
Proof.
  unfold DriveStateMachine.
  repeat match goal with
         | |- context [Z.eqb ?x ?y] => destruct (Z.eqb x y)
         end; repeat split.
Qed.

Lemma exchanged_delivers (w : World) :
  same_tables w (exchanged w)
  /\ inputs (exchanged w) = rx_inputs (received w)
  /\ wkc (exchanged w) = rx_wkc (received w)
  /\ ec_DCtime (exchanged w) = rx_DCtime (received w).
Proof.
  unfold exchanged, received, do_receive, do_send.
  change (inputs (emit Call_send_processdata
                    (set_ext (ec_send_processdata (outputs w) (ext w)) w)))
    with (inputs w).
  change (ext (emit Call_send_processdata
                 (set_ext (ec_send_processdata (outputs w) (ext w)) w)))
    with (ec_send_processdata (outputs w) (ext w)).
  destruct (ec_receive_processdata _ _ _) as [r e]. repeat split.
Qed.

Lemma accepted_report (i j : Z) (w : World) :
  same_tables w (snd (accepted i j w))
  /\ inputs (snd (accepted i j w)) = inputs w
  /\ wkc (snd (accepted i j w)) = wkc w
  /\ needlf (snd (accepted i j w)) = true
  /\ calls (trace (snd (accepted i j w))) = calls (trace w)
  /\ prints (trace (snd (accepted i j w)))
     = prints (trace w)
       ++ status_line i {| rx_wkc := wkc w; rx_inputs := inputs w;
                           rx_DCtime := ec_DCtime w |}.
Proof.
  rewrite accepted_eq. cbn [snd].
  set (w1 := if to_int32 (j + 1) =? 1 then store_OpMode 9 w else w).
  assert (W : same_tables w w1 /\ inputs w1 = inputs w /\ wkc w1 = wkc w
              /\ ec_DCtime w1 = ec_DCtime w
              /\ calls (trace w1) = calls (trace w)
              /\ prints (trace w1) = prints (trace w)).
  { subst w1. destruct (_ =? _).
    - unfold store_OpMode. cbn [emit set_outputs trace inputs wkc ec_DCtime].
      rewrite calls_app, prints_app. cbn. rewrite !app_nil_r. repeat split.
    - repeat split. }
  revert W. generalize w1 as w1'. clear w1.
  intros w1 ((T1 & T2 & T3) & W2 & W3 & W4 & W5 & W6).
  destruct (DriveStateMachine_fields w1) as ((D1 & D2 & D3) & D4 & D5 & D6).
  pose proof (DriveStateMachine_trace w1) as D7.
  destruct (machine_stores_silent (Statusword (inputs w1))) as (Q1 & Q2 & _).
  revert D1 D2 D3 D4 D5 D6 D7. generalize (DriveStateMachine w1) as w2.
  intros w2 D1 D2 D3 D4 D5 D6 D7.
  destruct (print_status_fields i w2) as ((P1 & P2 & P3) & P4 & P5 & P6).
  pose proof (print_status_trace i w2) as P7.
  revert P1 P2 P3 P4 P5 P6 P7. generalize (print_status i w2) as w3.
  intros w3 P1 P2 P3 P4 P5 P6 P7.
  unfold same_tables.
  cbn [set_needlf ec_slave ec_group ec_slavecount inputs wkc needlf trace].
  rewrite P1, P2, P3, P4, P5, P7, D1, D2, D3, D4, D5, D6, D7.
  rewrite !calls_app, !prints_app, Q1, Q2.
  rewrite T1, T2, T3, W2, W3, W4, W5, W6.
  cbn [calls prints List.filter is_call status_line]. rewrite !app_nil_r.
  repeat split.
Qed.

Lemma cycle_report (i j : Z) (w : World) :
  same_tables w (snd (cycle i j w))
  /\ calls (trace (snd (cycle i j w)))
     = calls (trace w) ++ [Call_send_processdata; Call_receive_processdata EC_TIMEOUTRET]
  /\ inputs (snd (cycle i j w)) = rx_inputs (received w)
  /\ wkc (snd (cycle i j w)) = rx_wkc (received w)
  /\ (expectedWKC w <= observed_wkc w ->
      needlf (snd (cycle i j w)) = true
      /\ prints (trace (snd (cycle i j w))) = prints (trace w) ++ status_line i (received w)).
Proof.
  rewrite cycle_exchanged.
  destruct (exchanged_delivers w) as ((X1 & X2 & X3) & X4 & X5 & X6).
  destruct (exchanged_facts w) as (_ & _ & _ & _ & _ & X7).
  destruct (accepted_report i j (exchanged w)) as ((A1 & A2 & A3) & A4 & A5 & A6 & A7 & A8).
  rewrite X4, X5, X6 in A8. rewrite X7, prints_app in A8. cbn [prints] in A8.
  rewrite app_nil_r in A8.
  assert (R : {| rx_wkc := rx_wkc (received w); rx_inputs := rx_inputs (received w);
                 rx_DCtime := rx_DCtime (received w) |} = received w)
    by (destruct (received w); reflexivity).
  rewrite R in A8. clear R.
  rewrite X7, calls_app in A7. cbn [calls List.filter is_call] in A7.
  revert A1 A2 A3 A4 A5 A6 A7 A8.
  generalize (accepted i j (exchanged w)) as a. intros [ja wa]. cbn [fst snd].
  intros A1 A2 A3 A4 A5 A6 A7 A8.
  revert X1 X2 X3 X4 X5 X6 X7 A1 A2 A3 A4 A5. generalize (exchanged w) as we.
  intros we X1 X2 X3 X4 X5 X6 X7 A1 A2 A3 A4 A5.
  unfold same_tables.
  destruct (expectedWKC w <=? observed_wkc w) eqn:C;
    cbn [snd emit ec_slave ec_group ec_slavecount inputs wkc needlf trace].
  - rewrite calls_app, prints_app, A1, A2, A3, A4, A5, A6, A7, A8, X1, X2, X3, X4, X5.
    cbn [calls prints List.filter is_call]. rewrite !app_nil_r.
    repeat split.
  - rewrite calls_app, X1, X2, X3, X4, X5, X7, calls_app.
    cbn [calls List.filter is_call]. rewrite !app_nil_r.
    split; [repeat split|]. split; [reflexivity|]. split; [reflexivity|].
    split; [reflexivity|].
    intros H. apply Z.leb_le in H. rewrite H in C. discriminate C.
Qed.

Lemma cyclic_loop_calls (n : nat) :
  forall (i j : Z) (w : World),
    calls (trace (snd (cyclic_loop n i j w)))
    = calls (trace w)
      ++ concat (replicate n [Call_send_processdata;
                              Call_receive_processdata EC_TIMEOUTRET])
    /\ same_tables w (snd (cyclic_loop n i j w)).
Proof.
  induction n as [|n IH]; intros i j w.
  - cbn [cyclic_loop snd replicate concat]. rewrite app_nil_r. repeat split.
  - rewrite cyclic_loop_S.
    destruct (cycle_report i j w) as ((C1 & C2 & C3) & C4 & _).
    destruct (IH (i + 1) (fst (cycle i j w)) (snd (cycle i j w)))
      as (I1 & I2 & I3 & I4).
    unfold same_tables. rewrite I1, I2, I3, I4, C1, C2, C3, C4.
    cbn [replicate concat]. rewrite <- !app_assoc. repeat split.
Qed.

(** X4.  Every cycle of the loop, accepted or degraded, calls the stack
    exactly twice, to send and to receive with [EC_TIMEOUTRET]: [n]
    cycles make [n] exchanges and no other call (no state request, no
    recovery), and leave the device and group tables as they were. *)
Theorem cyclic_loop_exchanges (n : nat) (i j : Z) (w : World) :
  calls (trace (snd (cyclic_loop n i j w)))
  = calls (trace w)
    ++ concat (replicate n [Call_send_processdata;
                            Call_receive_processdata EC_TIMEOUTRET])
  /\ same_tables w (snd (cyclic_loop n i j w)).
Proof. exact (cyclic_loop_calls n i j w). Qed.

(** X5.  An accepted cycle prints one status line, made of the cycle
    index and of what the exchange of that very cycle delivered: its
    working counter, status word, mode display, actual position and
    velocity, demand velocity and the DC time; it also sets [needlf]. *)
Theorem accepted_cycle_status_line (i j : Z) (w : World) :
  expectedWKC w <= observed_wkc w ->
  prints (trace (snd (cycle i j w))) = prints (trace w) ++ status_line i (received w)
  /\ needlf (snd (cycle i j w)) = true
  /\ wkc (snd (cycle i j w)) = rx_wkc (received w)
  /\ inputs (snd (cycle i j w)) = rx_inputs (received w).
Proof.
  intros H. destruct (cycle_report i j w) as (_ & _ & A & B & C).
  destruct (C H) as (D & E). auto.
Qed.

End Cycles.

Section SupervisorSide.

Context {M : Master}.

Lemma kept_refl (w : World) : recovery_step_kept w w.
Proof. repeat split. Qed.

Lemma side_trans (w w1 w2 : World) :
  cyclic_side_kept w w1 -> cyclic_side_kept w1 w2 -> cyclic_side_kept w w2.
Proof.
  unfold cyclic_side_kept.
  intros (A1 & A2 & A3 & A4 & A5 & A6 & A7 & A8 & A9)
         (B1 & B2 & B3 & B4 & B5 & B6 & B7 & B8 & B9).
  rewrite B1, B2, B3, B4, B5, B6, B7, B8, B9.
  repeat split; assumption.
Qed.

Lemma kept_trans (w w1 w2 : World) :
  recovery_step_kept w w1 -> recovery_step_kept w1 w2 -> recovery_step_kept w w2.
Proof.
  intros (A & A') (B & B').
  split; [exact (side_trans _ _ _ A B) | rewrite B'; exact A'].
Qed.

Lemma emit_kept (e : event) (w : World) :
  stores [e] = [] -> exchanges [e] = [] -> recovery_step_kept w (emit e w).
Proof.
  intros Hs Hx. unfold recovery_step_kept, cyclic_side_kept.
  cbn [emit expectedWKC wkc inOP inputs outputs ec_DCtime ec_slavecount trace needlf].
  rewrite stores_app, exchanges_app, Hs, Hx, !app_nil_r. repeat split.
Qed.

Lemma upd_group_kept (g : Z) (f : ec_groupt -> ec_groupt) (w : World) :
  recovery_step_kept w (upd_group g f w).
Proof. repeat split. Qed.

Lemma upd_slave_kept (i : nat) (f : ec_slavet -> ec_slavet) (w : World) :
  recovery_step_kept w (upd_slave i f w).
Proof. repeat split. Qed.

Lemma do_writestate_kept (i : nat) (w : World) : recovery_step_kept w (do_writestate i w).
Proof.
  unfold do_writestate, recovery_step_kept, cyclic_side_kept.
  cbn [emit set_ext expectedWKC wkc inOP inputs outputs ec_DCtime ec_slavecount trace
       needlf].
  rewrite stores_app, exchanges_app. cbn. rewrite !app_nil_r. repeat split.
Qed.

Lemma do_statecheck_kept (i : nat) (r t : Z) (w : World) :
  recovery_step_kept w (do_statecheck i r t w).
Proof.
  unfold do_statecheck. destruct (ec_statecheck _ _ _ _ _) as [l e].
  unfold recovery_step_kept, cyclic_side_kept, upd_slave.
  cbn [emit set_ext set_ec_slave expectedWKC wkc inOP inputs outputs ec_DCtime
       ec_slavecount trace needlf].
  rewrite stores_app, exchanges_app. cbn. rewrite !app_nil_r. repeat split.
Qed.

Lemma do_readstate_kept (w : World) : recovery_step_kept w (do_readstate w).
Proof.
  unfold do_readstate. destruct (ec_readstate _) as [f e].
  unfold recovery_step_kept, cyclic_side_kept.
  cbn [emit set_ext set_ec_slave expectedWKC wkc inOP inputs outputs ec_DCtime
       ec_slavecount trace needlf].
  rewrite stores_app, exchanges_app. cbn. rewrite !app_nil_r. repeat split.
Qed.

Lemma do_reconfig_slave_kept (i : nat) (t : Z) (w : World) :
  recovery_step_kept w (snd (do_reconfig_slave i t w)).
Proof.
  unfold do_reconfig_slave. destruct (ec_reconfig_slave _ _ _ _) as [[r l] e].
  unfold recovery_step_kept, cyclic_side_kept, upd_slave.
  cbn [snd emit set_ext set_ec_slave expectedWKC wkc inOP inputs outputs ec_DCtime
       ec_slavecount trace needlf].
  rewrite stores_app, exchanges_app. cbn. rewrite !app_nil_r. repeat split.
Qed.

Lemma do_recover_slave_kept (i : nat) (t : Z) (w : World) :
  recovery_step_kept w (snd (do_recover_slave i t w)).
Proof.
  unfold do_recover_slave. destruct (ec_recover_slave _ _ _ _) as [[r l] e].
  unfold recovery_step_kept, cyclic_side_kept, upd_slave.
  cbn [snd emit set_ext set_ec_slave expectedWKC wkc inOP inputs outputs ec_DCtime
       ec_slavecount trace needlf].
  rewrite stores_app, exchanges_app. cbn. rewrite !app_nil_r. repeat split.
Qed.

Lemma printf_kept (f : string) (a : list arg) (w : World) :
  recovery_step_kept w (printf f a w).
Proof. apply emit_kept; reflexivity. Qed.

Lemma primary_action_kept (slave : nat) (w : World) :
  recovery_step_kept w (primary_action slave w).
Proof.
  rewrite primary_action_eq; cbv zeta.
  pose proof (upd_group_kept currentgroup (with_docheckstate true) w) as K0.
  revert K0. generalize (upd_group currentgroup (with_docheckstate true) w) as w0.
  intros w0 K0. apply (kept_trans _ _ _ K0).
  destruct (select_recovery (get_slave slave w)).
  - exact (kept_trans _ _ _ (printf_kept _ _ w0)
             (kept_trans _ _ _ (upd_slave_kept slave _ _) (do_writestate_kept slave _))).
  - exact (kept_trans _ _ _ (printf_kept _ _ w0)
             (kept_trans _ _ _ (upd_slave_kept slave _ _) (do_writestate_kept slave _))).
  - pose proof (do_reconfig_slave_kept slave EC_TIMEOUTMON w0) as K1.
    revert K1. generalize (do_reconfig_slave slave EC_TIMEOUTMON w0) as rw.
    intros [r w1] K1. cbn [fst snd] in *.
    apply (kept_trans _ _ _ K1).
    destruct (r =? 0); [apply kept_refl|].
    exact (kept_trans _ _ _ (upd_slave_kept slave _ w1) (printf_kept _ _ _)).
  - pose proof (do_statecheck_kept slave EC_STATE_OPERATIONAL EC_TIMEOUTRET w0) as K1.
    revert K1. generalize (do_statecheck slave EC_STATE_OPERATIONAL EC_TIMEOUTRET w0) as w1.
    intros w1 K1. apply (kept_trans _ _ _ K1).
    destruct (_ =? _); [|apply kept_refl].
    exact (kept_trans _ _ _ (upd_slave_kept slave _ w1) (printf_kept _ _ _)).
  - apply kept_refl.
Qed.

Lemma lost_action_kept (slave : nat) (w : World) :
  recovery_step_kept w (lost_action slave w).
Proof.
  rewrite lost_action_eq; cbv zeta.
  destruct (_ =? _).
  - pose proof (do_recover_slave_kept slave EC_TIMEOUTMON w) as K1.
    revert K1. generalize (do_recover_slave slave EC_TIMEOUTMON w) as rw.
    intros [r w1] K1. cbn [fst snd] in *.
    apply (kept_trans _ _ _ K1).
    destruct (r =? 0); [apply kept_refl|].
    exact (kept_trans _ _ _ (upd_slave_kept slave _ w1) (printf_kept _ _ _)).
  - exact (kept_trans _ _ _ (upd_slave_kept slave _ w) (printf_kept _ _ _)).
Qed.

Lemma check_slave_kept (slave : nat) (w : World) :
  recovery_step_kept w (check_slave slave w).
Proof.
  rewrite check_slave_eq; cbv zeta.
  assert (K1 : recovery_step_kept w (if handled (get_slave slave w)
                                      then primary_action slave w else w)).
  { destruct (handled _); [apply primary_action_kept | apply kept_refl]. }
  revert K1.
  generalize (if handled (get_slave slave w) then primary_action slave w else w) as w1.
  intros w1 K1. apply (kept_trans _ _ _ K1).
  destruct (islost _); [apply lost_action_kept | apply kept_refl].
Qed.

Lemma check_slaves_kept (n : nat) :
  forall (slave : nat) (w : World), recovery_step_kept w (check_slaves n slave w).
Proof.
  induction n as [|n IH]; intros slave w; cbn [check_slaves].
  - apply kept_refl.
  - exact (kept_trans _ _ _ (check_slave_kept slave w) (IH _ _)).
Qed.

Lemma sweep_kept (w : World) :
  cyclic_side_kept w (sweep w) /\ needlf (sweep w) = false.
Proof.
  rewrite sweep_eq; cbv zeta.
  set (w0 := if needlf w then printf "\n" [] (set_needlf false w) else w).
  assert (K0 : cyclic_side_kept w w0 /\ needlf w0 = false).
  { subst w0. destruct (needlf w) eqn:N.
    - destruct (printf_kept "\n" [] (set_needlf false w)) as (K & _).
      split; [exact K | reflexivity].
    - split; [apply (kept_refl w) | exact N]. }
  assert (K1 : recovery_step_kept w0
                 (do_readstate (upd_group currentgroup (with_docheckstate false) w0))).
  { exact (kept_trans _ _ _ (upd_group_kept _ _ w0) (do_readstate_kept _)). }
  revert K0 K1. generalize w0 as w0'. clear w0. intros w0 K0.
  generalize (do_readstate (upd_group currentgroup (with_docheckstate false) w0)) as w2.
  intros w2 K1.
  pose proof (check_slaves_kept (Z.to_nat (ec_slavecount w2)) 1 w2) as K2.
  revert K2. generalize (check_slaves (Z.to_nat (ec_slavecount w2)) 1 w2) as w3.
  intros w3 K2.
  assert (K3 : recovery_step_kept w3
                 (if negb (docheckstate (get_group currentgroup w3))
                  then printf "OK : all slaves resumed OPERATIONAL.\n" [] w3 else w3)).
  { destruct (negb _); [apply printf_kept | apply kept_refl]. }
  destruct (kept_trans _ _ _ K1 (kept_trans _ _ _ K2 K3)) as (K & N).
  destruct K0 as (K0 & N0).
  split; [exact (side_trans _ _ _ K0 K) | rewrite N; exact N0].
Qed.

Lemma ecatcheck_iter_kept (w : World) : cyclic_side_kept w (ecatcheck_iter w).
Proof.
  unfold ecatcheck_iter.
  assert (K : cyclic_side_kept w (if wake w then sweep w else w)).
  { destruct (wake w); [apply sweep_kept | apply (kept_refl w)]. }
  revert K. generalize (if wake w then sweep w else w) as w1. intros w1 K.
  destruct (emit_kept (Usleep 10000) w1 eq_refl eq_refl) as (E & _).
  exact (side_trans _ _ _ K E).
Qed.

(** X7.  The supervisor keeps its hands off the cyclic side: however
    many iterations it makes, [expectedWKC], [wkc], [inOP], both
    process images and the DC time are as they were, it stores nothing
    into the output image and exchanges no process data. *)
Theorem supervisor_keeps_cyclic_side (n : nat) (w : World) :
  cyclic_side_kept w (ecatcheck n w).
Proof.
  revert w. induction n as [|n IH]; intros w; cbn [ecatcheck].
  - apply kept_refl.
  - exact (side_trans _ _ _ (ecatcheck_iter_kept w) (IH (ecatcheck_iter w))).
Qed.

End SupervisorSide.

Section Verdict.

Context {M : Master}.

Lemma check_slave_tables (i : nat) (w : World) :
  (i < length (ec_slave w))%nat ->
  (exists f, ec_slave (check_slave i w) = alter f i (ec_slave w))
  /\ ec_group (check_slave i w)
     = (if handled (get_slave i w)
        then alter (with_docheckstate true) (Z.to_nat currentgroup) (ec_group w)
        else ec_group w).
Proof.
  intros H. rewrite check_slave_eq; cbv zeta.
  assert (S1 : slave_step i (if handled (get_slave i w)
                             then primary_update i w else fun x => x)
                          (if handled (get_slave i w) then primary_events i w else [])
                          w (if handled (get_slave i w) then primary_action i w else w)).
  { destruct (handled (get_slave i w));
      [apply primary_action_step; exact H | apply slave_step_refl]. }
  assert (G1 : ec_group (if handled (get_slave i w) then primary_action i w else w)
               = (if handled (get_slave i w)
                  then alter (with_docheckstate true) (Z.to_nat currentgroup) (ec_group w)
                  else ec_group w)).
  { destruct (handled (get_slave i w)); [apply primary_action_group | reflexivity]. }
  revert S1 G1.
  generalize (if handled (get_slave i w) then primary_action i w else w) as w1.
  intros w1 S1 G1.
  assert (S2 : slave_step i (if islost (get_slave i w1)
                             then lost_update i w1 else fun x => x)
                          (if islost (get_slave i w1) then lost_events i w1 else [])
                          w1 (if islost (get_slave i w1) then lost_action i w1 else w1)).
  { destruct (islost (get_slave i w1)); [apply lost_action_step | apply slave_step_refl]. }
  assert (G2 : ec_group (if islost (get_slave i w1) then lost_action i w1 else w1)
               = ec_group w1).
  { destruct (islost (get_slave i w1)); [apply lost_action_group | reflexivity]. }
  revert S2 G2.
  generalize (if islost (get_slave i w1) then lost_action i w1 else w1) as w2.
  intros w2 S2 G2.
  destruct (slave_step_trans _ _ _ _ _ _ _ _ S1 S2) as (T1 & _).
  split; [eexists; exact T1 | rewrite G2; exact G1].
Qed.

Lemma check_slaves_tables (n : nat) :
  forall (first : nat) (w : World),
    (first + n <= length (ec_slave w))%nat ->
    length (ec_slave (check_slaves n first w)) = length (ec_slave w)
    /\ (forall j, (j < first \/ first + n <= j)%nat ->
                  ec_slave (check_slaves n first w) !! j = ec_slave w !! j)
    /\ ec_group (check_slaves n first w)
       = (if any_handled (ec_slave w) first n
          then alter (with_docheckstate true) (Z.to_nat currentgroup) (ec_group w)
          else ec_group w).
Proof.
  induction n as [|n IH]; intros first w Hlen.
  - cbn [check_slaves]. repeat split.
  - cbn [check_slaves].
    destruct (check_slave_tables first w) as ((f & A1) & A3); [lia|].
    revert A1 A3. generalize (check_slave first w) as w'. intros w' A1 A3.
    destruct (IH (S first) w') as (B1 & B2 & B3).
    { rewrite A1, length_alter. lia. }
    split; [rewrite B1, A1, length_alter; reflexivity|].
    split.
    + intros j Hj. rewrite B2 by lia. rewrite A1.
      apply list_lookup_alter_ne. lia.
    + rewrite B3, A3.
      assert (E : any_handled (ec_slave w') (S first) n
                  = any_handled (ec_slave w) (S first) n).
      { unfold any_handled. apply existsb_in_ext. intros j Hj.
        apply in_seq in Hj. rewrite A1, list_lookup_alter_ne by lia. reflexivity. }
      rewrite E.
      assert (U : any_handled (ec_slave w) first (S n)
                  = handled (get_slave first w) || any_handled (ec_slave w) (S first) n)
        by reflexivity.
      rewrite U.
      destruct (handled (get_slave first w)), (any_handled (ec_slave w) (S first) n);
        cbn [orb]; try reflexivity.
      apply alter_docheckstate_twice.
Qed.

Lemma any_handled_false (l : list ec_slavet) (first n : nat) :
  any_handled l first n = false
  <-> forall i, (first <= i < first + n)%nat -> handled (default slave0 (l !! i)) = false.
Proof.
  unfold any_handled. split.
  - intros H i Hi.
    destruct (handled (default slave0 (l !! i))) eqn:E; [|reflexivity].
    assert (X : existsb (fun i => handled (default slave0 (l !! i))) (seq first n) = true).
    { apply existsb_exists. exists i. split; [apply in_seq; lia | exact E]. }
    rewrite H in X. discriminate X.
  - intros H. destruct (existsb _ _) eqn:E; [|reflexivity].
    apply existsb_exists in E. destruct E as (i & Hi & E).
    apply in_seq in Hi. rewrite (H i) in E by lia. discriminate E.
Qed.

Lemma sweep_refreshed (w : World) :
  let w2 := do_readstate
              (upd_group currentgroup (with_docheckstate false)
                 (if needlf w then printf "\n" [] (set_needlf false w) else w)) in
  ec_slave w2 = ec_slave (do_readstate w)
  /\ ec_slavecount w2 = ec_slavecount w
  /\ ec_group w2 = alter (with_docheckstate false) (Z.to_nat currentgroup) (ec_group w).
Proof.
  cbv zeta. unfold do_readstate.
  assert (E : ext (upd_group currentgroup (with_docheckstate false)
                     (if needlf w then printf "\n" [] (set_needlf false w) else w))
              = ext w) by (destruct (needlf w); reflexivity).
  rewrite E. destruct (ec_readstate (ext w)) as [f e].
  destruct (needlf w); repeat split.
Qed.

(** X8.  With a device table that holds every device and a group table
    that holds the current group, a sweep ends with the re-check flag
    set exactly when, at its refresh of the device states, some device
    of the group among 1 .. [ec_slavecount] is not operational, and it
    prints the all-resumed notice, as its last event, exactly when the
    flag ends clear.  If then the working counter is not below the
    expected one, the next supervisor iteration only sleeps. *)
Theorem sweep_verdict (w : World) :
  (Z.to_nat (ec_slavecount w) < length (ec_slave w))%nat ->
  (Z.to_nat currentgroup < length (ec_group w))%nat ->
  let verdict :=
    any_handled (ec_slave (do_readstate w)) 1 (Z.to_nat (ec_slavecount w)) in
  let checked :=
    check_slaves (Z.to_nat (ec_slavecount w)) 1
      (do_readstate
         (upd_group currentgroup (with_docheckstate false)
            (if needlf w then printf "\n" [] (set_needlf false w) else w))) in
  docheckstate (get_group currentgroup (sweep w)) = verdict
  /\ (verdict = false <->
      forall i, (1 <= i <= Z.to_nat (ec_slavecount w))%nat ->
                handled (get_slave i (do_readstate w)) = false)
  /\ sweep w = (if verdict then checked
                else printf "OK : all slaves resumed OPERATIONAL.\n" [] checked)
  /\ (verdict = false -> expectedWKC w <= wkc w ->
      ecatcheck_iter (sweep w) = emit (Usleep 10000) (sweep w)).
Proof.
  intros Hs Hg verdict checked.
  destruct (sweep_refreshed w) as (R1 & R2 & R3). cbv zeta in R1, R2, R3.
  assert (D : docheckstate (get_group currentgroup checked) = verdict
              /\ sweep w = (if verdict then checked
                            else printf "OK : all slaves resumed OPERATIONAL.\n" []
                                        checked)).
  { rewrite sweep_eq; cbv zeta. rewrite R2. fold checked.
    subst checked verdict. rewrite <- R1.
    revert R1 R2 R3.
    generalize (do_readstate
                  (upd_group currentgroup (with_docheckstate false)
                     (if needlf w then printf "\n" [] (set_needlf false w) else w))) as w2.
    intros w2 R1 R2 R3.
    destruct (check_slaves_tables (Z.to_nat (ec_slavecount w)) 1 w2) as (_ & _ & G).
    { rewrite R1. unfold do_readstate. destruct (ec_readstate _) as [f e].
      cbn [emit set_ec_slave ec_slave]. rewrite length_imap. lia. }
    assert (V : docheckstate
                  (get_group currentgroup
                     (check_slaves (Z.to_nat (ec_slavecount w)) 1 w2))
                = any_handled (ec_slave w2) 1 (Z.to_nat (ec_slavecount w))).
    { unfold get_group. rewrite G, R3.
      destruct (lookup_lt_is_Some_2 _ _ Hg) as [x Hx].
      destruct (any_handled _ _ _).
      - rewrite alter_docheckstate_twice, list_lookup_alter_eq, Hx. reflexivity.
      - rewrite list_lookup_alter_eq, Hx. reflexivity. }
    split; [exact V|]. rewrite V.
    destruct (any_handled _ _ _); reflexivity. }
  destruct D as (D1 & D2).
  assert (D3 : docheckstate (get_group currentgroup (sweep w)) = verdict).
  { rewrite D2. destruct verdict eqn:V; [exact D1|].
    change (get_group currentgroup (printf ?f ?a ?x)) with (get_group currentgroup x).
    exact D1. }
  split; [exact D3|].
  split.
  { subst verdict. rewrite any_handled_false. unfold get_slave.
    split; intros Q i Hi; apply Q; lia. }
  split; [exact D2|].
  intros V Hw.
  destruct (sweep_kept w) as ((K1 & K2 & _) & _).
  unfold ecatcheck_iter, wake. rewrite D3, V, K1, K2.
  replace (wkc w <? expectedWKC w) with false by (symmetry; apply Z.ltb_ge; exact Hw).
  rewrite andb_false_r. reflexivity.
Qed.

(** X9.  A device is still marked lost after the sweep has dealt with it
    only if, once its primary action was done, it was marked lost with
    state NONE and [ec_recover_slave], called then, returned 0; that
    call is the last event of the device's turn. *)
Theorem lost_only_after_failed_recovery (slave : nat) (w : World) :
  (slave < length (ec_slave w))%nat ->
  islost (get_slave slave (check_slave slave w)) = true ->
  let w1 := if handled (get_slave slave w) then primary_action slave w else w in
  islost (get_slave slave w1) = true
  /\ state (get_slave slave w1) = EC_STATE_NONE
  /\ fst (recover_result slave w1) = 0
  /\ trace (check_slave slave w) = trace w1 ++ [Call_recover_slave slave EC_TIMEOUTMON].
Proof.
  intros H L w1.
  assert (S1 : slave_step slave (if handled (get_slave slave w)
                                 then primary_update slave w else fun x => x)
                          (if handled (get_slave slave w)
                           then primary_events slave w else []) w w1).
  { subst w1. destruct (handled (get_slave slave w));
      [apply primary_action_step; exact H | apply slave_step_refl]. }
  destruct (slave_step_get _ _ _ _ _ S1 H) as (_ & H1).
  rewrite check_slave_eq in L |- *. cbv zeta in L |- *. fold w1 in L |- *.
  clear S1. revert H1 L. generalize w1 as w1'. clear w1. intros w1 H1 L.
  destruct (islost (get_slave slave w1)) eqn:L1.
  - pose proof (lost_action_step slave w1) as S2.
    destruct (slave_step_get _ _ _ _ _ S2 H1) as (G2 & _).
    destruct S2 as (_ & _ & T2).
    rewrite G2 in L. rewrite T2. clear G2 T2.
    unfold lost_update, lost_events in *.
    destruct (Z.eqb_spec (state (get_slave slave w1)) EC_STATE_NONE) as [E|E].
    + destruct (fst (recover_result slave w1) =? 0) eqn:R.
      * apply Z.eqb_eq in R. repeat split; assumption.
      * discriminate L.
    + discriminate L.
  - rewrite L1 in L. discriminate L.
Qed.

End Verdict.

Section Recovery.

Context {M : Master}.

Lemma primary_action_ext (slave : nat) (w : World) :
  (slave < length (ec_slave w))%nat ->
  ext (primary_action slave w) = primary_ext slave w.
Proof.
  intros H. rewrite primary_action_eq; cbv zeta. unfold primary_ext.
  assert (L : (slave < length (ec_slave (upd_group currentgroup
                                           (with_docheckstate true) w)))%nat)
    by exact H.
  assert (G : get_slave slave (upd_group currentgroup (with_docheckstate true) w)
              = get_slave slave w) by reflexivity.
  assert (X : ext (upd_group currentgroup (with_docheckstate true) w) = ext w)
    by reflexivity.
  revert L G X.
  generalize (upd_group currentgroup (with_docheckstate true) w) as w0.
  intros w0 L G X.
  destruct (select_recovery (get_slave slave w)).
  - unfold do_writestate. cbn [emit set_ext ext].
    rewrite get_slave_upd_eq by exact L. rewrite <- X. reflexivity.
  - unfold do_writestate. cbn [emit set_ext ext].
    rewrite get_slave_upd_eq by exact L. rewrite <- X. reflexivity.
  - unfold do_reconfig_slave. rewrite G, X.
    destruct (ec_reconfig_slave _ _ _ _) as [[r l] e].
    cbn [fst snd]. destruct (r =? 0); reflexivity.
  - unfold do_statecheck. rewrite G, X.
    destruct (ec_statecheck _ _ _ _ _) as [l e].
    destruct (_ =? _); reflexivity.
  - exact X.
Qed.

Lemma lost_action_ext (slave : nat) (w : World) :
  ext (lost_action slave w) = lost_ext slave w.
Proof.
  rewrite lost_action_eq; cbv zeta. unfold lost_ext.
  destruct (_ =? _); [|reflexivity].
  unfold do_recover_slave. destruct (ec_recover_slave _ _ _ _) as [[r l] e].
  cbn [fst snd]. destruct (r =? 0); reflexivity.
Qed.

(** The turn of one device (lines 249-298), from any world. *)
Lemma check_slave_turn (slave : nat) (w : World) :
  (slave < length (ec_slave w))%nat ->
  let s := get_slave slave w in
  let w1 := if handled s then primary_action slave w else w in
  let s1 := get_slave slave w1 in
  let w2 := check_slave slave w in
  w2 = (if islost s1 then lost_action slave w1 else w1)
  /\ trace w1 = trace w ++ (if handled s then primary_events slave w else [])
  /\ s1 = (if handled s then primary_update slave w s else s)
  /\ ext w1 = (if handled s then primary_ext slave w else ext w)
  /\ ec_group w1
     = (if handled s
        then alter (with_docheckstate true) (Z.to_nat currentgroup) (ec_group w)
        else ec_group w)
  /\ trace w2 = trace w1 ++ (if islost s1 then lost_events slave w1 else [])
  /\ get_slave slave w2 = (if islost s1 then lost_update slave w1 s1 else s1)
  /\ ext w2 = (if islost s1 then lost_ext slave w1 else ext w1)
  /\ ec_group w2 = ec_group w1
  /\ (forall j : nat, j <> slave -> get_slave j w2 = get_slave j w).
Proof.
  intros H s w1 s1 w2.
  assert (S1 : slave_step slave (if handled s then primary_update slave w else fun x => x)
                          (if handled s then primary_events slave w else []) w w1).
  { subst w1. destruct (handled s);
      [apply primary_action_step; exact H | apply slave_step_refl]. }
  destruct (slave_step_get _ _ _ _ _ S1 H) as (G1 & H1). fold s s1 in G1.
  assert (X1 : ext w1 = (if handled s then primary_ext slave w else ext w)).
  { subst w1. destruct (handled s); [apply primary_action_ext; exact H | reflexivity]. }
  assert (Y1 : ec_group w1
               = (if handled s
                  then alter (with_docheckstate true) (Z.to_nat currentgroup) (ec_group w)
                  else ec_group w)).
  { subst w1. destruct (handled s); [apply primary_action_group | reflexivity]. }
  assert (E2 : w2 = (if islost s1 then lost_action slave w1 else w1)) by reflexivity.
  clearbody w2.
  revert S1 G1 H1 X1 Y1 E2. subst s1. generalize w1 as w1'. clear w1.
  intros w1 S1 G1 H1 X1 Y1 E2.
  assert (S2 : slave_step slave
                 (if islost (get_slave slave w1) then lost_update slave w1 else fun x => x)
                 (if islost (get_slave slave w1) then lost_events slave w1 else [])
                 w1 w2).
  { rewrite E2. destruct (islost (get_slave slave w1));
      [apply lost_action_step | apply slave_step_refl]. }
  destruct (slave_step_get _ _ _ _ _ S2 H1) as (G2 & _).
  split; [exact E2|].
  split; [apply S1|].
  split; [rewrite G1; destruct (handled s); reflexivity|].
  split; [exact X1|].
  split; [exact Y1|].
  split; [apply S2|].
  split; [rewrite G2; destruct (islost (get_slave slave w1)); reflexivity|].
  split.
  { rewrite E2. destruct (islost (get_slave slave w1));
      [apply lost_action_ext | reflexivity]. }
  split.
  { rewrite E2. destruct (islost (get_slave slave w1));
      [apply lost_action_group | reflexivity]. }
  intros j Hj.
  rewrite (slave_step_other _ _ _ _ _ _ S2) by auto.
  apply (slave_step_other _ _ _ _ _ _ S1). auto.
Qed.

Lemma check_slaves_split (a : nat) :
  forall (b first : nat) (w : World),
    check_slaves (a + b) first w = check_slaves b (first + a) (check_slaves a first w).
Proof.
  induction a as [|a IH]; intros b first w.
  - cbn [plus check_slaves]. rewrite Nat.add_0_r. reflexivity.
  - cbn [plus check_slaves]. rewrite IH. f_equal. lia.
Qed.

(** The loop of line 247 reaches device [slave], runs its turn there,
    and goes on with the devices after it. *)
Lemma check_slaves_reach (n slave : nat) (w : World) :
  (1 <= slave <= n)%nat ->
  check_slaves n 1 w
  = check_slaves (n - slave) (S slave) (check_slave slave (check_slaves (slave - 1) 1 w)).
Proof.
  intros H.
  replace n with ((slave - 1) + S (n - slave))%nat at 1 by lia.
  rewrite check_slaves_split. cbn [check_slaves].
  replace (1 + (slave - 1))%nat with slave by lia. reflexivity.
Qed.

Lemma refreshed_facts (w : World) :
  let w0 := do_readstate
              (upd_group currentgroup (with_docheckstate false)
                 (if needlf w then printf "\n" [] (set_needlf false w) else w)) in
  length (ec_slave w0) = length (ec_slave w)
  /\ ec_slavecount w0 = ec_slavecount w
  /\ trace w0 = trace w ++ (if needlf w then [Printf "\n" []] else []) ++ [Call_readstate].
Proof.
  cbv zeta. unfold do_readstate.
  assert (E : ext (upd_group currentgroup (with_docheckstate false)
                     (if needlf w then printf "\n" [] (set_needlf false w) else w))
              = ext w) by (destruct (needlf w); reflexivity).
  rewrite E. destruct (ec_readstate (ext w)) as [f e].
  cbn [emit set_ec_slave ec_slave ec_slavecount trace]. rewrite length_imap.
  destruct (needlf w); cbn [upd_group set_ec_group set_ext printf emit set_needlf
                            ec_slave ec_slavecount trace app];
    rewrite <- ?app_assoc; repeat split.
Qed.

(** C7.  The sweep gives every device 1 .. [ec_slavecount] its turn, in
    order: when the loop reaches the device its record is still the one
    the refresh by [ec_readstate] left, the turn is run on it, and the
    record it leaves is the one the sweep ends with; the events of the
    turn are part of the trace of the sweep.  In the turn, a device of
    the active group that is not operational gets the one action
    selected by priority (acknowledge for SAFE_OP + ERROR, promote for
    SAFE_OP, reconfigure for any other state above NONE, re-verify when
    not yet marked lost, nothing otherwise): the events, the effect on
    the record and the call made to the stack are those that
    [primary_events], [primary_update] and [primary_ext] list, and the
    re-check flag of the group is set; then, whatever came before, a
    device marked lost is handled as [lost_events], [lost_update] and
    [lost_ext] list (recover when its state is NONE, clearing the flag
    on success; otherwise clear the flag).  No other record changes in
    the turn. *)
Theorem recovery_by_priority (slave : nat) (w : World) :
  (Z.to_nat (ec_slavecount w) < length (ec_slave w))%nat ->
  (1 <= slave <= Z.to_nat (ec_slavecount w))%nat ->
  let n := Z.to_nat (ec_slavecount w) in
  let w0 := do_readstate
              (upd_group currentgroup (with_docheckstate false)
                 (if needlf w then printf "\n" [] (set_needlf false w) else w)) in
  let wi := check_slaves (slave - 1) 1 w0 in
  let s := get_slave slave wi in
  let w1 := if handled s then primary_action slave wi else wi in
  let s1 := get_slave slave w1 in
  let w2 := check_slave slave wi in
  let w3 := check_slaves (n - slave) (S slave) w2 in
  s = get_slave slave w0
  /\ sweep w = (if negb (docheckstate (get_group currentgroup w3))
                then printf "OK : all slaves resumed OPERATIONAL.\n" [] w3
                else w3)
  /\ get_slave slave (sweep w) = get_slave slave w2
  /\ (exists before after : list event,
        trace (sweep w)
        = trace w ++ before
          ++ (if handled s then primary_events slave wi else [])
          ++ (if islost s1 then lost_events slave w1 else [])
          ++ after)
  /\ trace w1 = trace wi ++ (if handled s then primary_events slave wi else [])
  /\ s1 = (if handled s then primary_update slave wi s else s)
  /\ ext w1 = (if handled s then primary_ext slave wi else ext wi)
  /\ ec_group w1
     = (if handled s
        then alter (with_docheckstate true) (Z.to_nat currentgroup) (ec_group wi)
        else ec_group wi)
  /\ trace w2 = trace w1 ++ (if islost s1 then lost_events slave w1 else [])
  /\ get_slave slave w2 = (if islost s1 then lost_update slave w1 s1 else s1)
  /\ ext w2 = (if islost s1 then lost_ext slave w1 else ext w1)
  /\ (forall j : nat, j <> slave -> get_slave j w2 = get_slave j wi).
Proof.
  intros Hlen Hs n w0 wi s w1 s1 w2 w3.
  destruct (refreshed_facts w) as (L0 & C0 & T0). fold w0 in L0, C0, T0.
  assert (Sw : sweep w = (if negb (docheckstate (get_group currentgroup w3))
                          then printf "OK : all slaves resumed OPERATIONAL.\n" [] w3
                          else w3)).
  { rewrite sweep_eq; cbv zeta. fold w0. rewrite C0. fold n.
    rewrite (check_slaves_reach n slave w0) by (subst n; lia). reflexivity. }
  clearbody w0.
  destruct (check_slaves_tables (slave - 1) 1 w0) as (Li & Oi & _); [lia|].
  destruct (check_slaves_extends (slave - 1) 1 w0) as [ei Ei].
  fold wi in Li, Oi, Ei.
  assert (Gi : get_slave slave wi = get_slave slave w0).
  { unfold get_slave. rewrite Oi by lia. reflexivity. }
  clearbody wi.
  assert (Hi : (slave < length (ec_slave wi))%nat) by lia.
  destruct (check_slave_turn slave wi Hi)
    as (P1 & P2 & P3 & P4 & P5 & P6 & P7 & P8 & _ & P10).
  fold s w1 s1 w2 in P1, P2, P3, P4, P5, P6, P7, P8, P10.
  destruct (check_slave_tables slave wi Hi) as ((f & A2) & _). fold w2 in A2.
  clearbody w2. clearbody w1.
  destruct (check_slaves_tables (n - slave) (S slave) w2) as (_ & O3 & _).
  { rewrite A2, length_alter. subst n. lia. }
  destruct (check_slaves_extends (n - slave) (S slave) w2) as [e3 E3].
  fold w3 in O3, E3.
  assert (G3 : get_slave slave w3 = get_slave slave w2).
  { unfold get_slave. rewrite O3 by lia. reflexivity. }
  clearbody w3.
  split; [exact Gi|].
  split; [exact Sw|].
  split.
  { rewrite Sw. destruct (negb _); [|exact G3].
    change (get_slave slave (printf ?a ?b w3)) with (get_slave slave w3). exact G3. }
  split.
  { exists ((if needlf w then [Printf "\n" []] else []) ++ [Call_readstate] ++ ei).
    exists (e3 ++ (if negb (docheckstate (get_group currentgroup w3))
                   then [Printf "OK : all slaves resumed OPERATIONAL.\n" []] else [])).
    rewrite Sw.
    assert (T : trace (if negb (docheckstate (get_group currentgroup w3))
                       then printf "OK : all slaves resumed OPERATIONAL.\n" [] w3
                       else w3)
                = trace w3 ++ (if negb (docheckstate (get_group currentgroup w3))
                               then [Printf "OK : all slaves resumed OPERATIONAL.\n" []]
                               else [])).
    { destruct (negb _); [reflexivity | rewrite app_nil_r; reflexivity]. }
    rewrite T, E3, P6, P2, Ei, T0, <- !app_assoc. reflexivity. }
  split; [exact P2|].
  split; [exact P3|].
  split; [exact P4|].
  split; [exact P5|].
  split; [exact P6|].
  split; [exact P7|].
  split; [exact P8 | exact P10].
Qed.

End Recovery.

Section WholeRun.

Context {M : Master}.

Lemma simpletest_starts (ifname : string) (w : World) :
  exists evs : list event,
    trace (simpletest ifname w)
    = trace w ++ [Printf "Starting simple test\n" []; Call_init ifname] ++ evs.
Proof.
  unfold simpletest, do_init.
  change (ext (printf "Starting simple test\n" [] (set_inOP false (set_needlf false w))))
    with (ext w).
  destruct (ec_init ifname (ext w)) as [r e].
  destruct (negb (r =? 0)).
  - unfold do_config_init.
    match goal with
    | |- context [ec_config_init false ?x] => change x with e
    end.
    destruct (ec_config_init false e) as [[n c] e'].
    match goal with
    | |- context [emit Call_config_init ?x] =>
        assert (T : trace (emit Call_config_init x)
                    = trace w ++ [Printf "Starting simple test\n" []; Call_init ifname;
                                  Printf "ec_init on %s succeeded.\n" [AStr ifname];
                                  Call_config_init])
          by (unfold printf;
              cbn [emit set_ext set_inOP set_needlf set_config trace];
              rewrite <- !app_assoc; reflexivity);
        revert T; generalize (emit Call_config_init x) as w3; intros w3 T
    end.
    assert (E : extends w3 (if 0 <? n then configured w3
                            else printf "No slaves found!\n" [] w3)).
    { destruct (0 <? n); [apply configured_extends | apply emit_extends]. }
    revert E.
    generalize (if 0 <? n then configured w3 else printf "No slaves found!\n" [] w3) as w4.
    intros w4 [evs E].
    eexists. unfold do_close, printf. cbn [emit set_ext trace].
    rewrite E, T, <- !app_assoc. cbn [app]. reflexivity.
  - eexists. unfold printf.
    cbn [emit set_ext set_inOP set_needlf trace].
    rewrite <- !app_assoc. cbn [app]. reflexivity.
Qed.

(** X11.  [main] returns 0 in every case and its last print is the end
    notice.  Without an interface argument it prints the usage, calls
    nothing of the stack and creates no supervisor thread.  With one, it
    creates the thread and runs [simpletest] on the first argument: that
    name is the one handed to [ec_init], and [inOP] is clear at the
    end. *)
Theorem main_outline (argv : list string) (w : World) :
  exit_status (main argv w) = 0
  /\ ((length argv <= 1)%nat ->
      thread_created (main argv w) = false
      /\ trace (exit_world (main argv w))
         = trace w ++ [Printf "SOEM (Simple Open EtherCAT Master)\nSimple test\n" [];
                       Printf "Usage: simple_test ifname1\nifname = eth0 for example\n" [];
                       Printf "End program\n" []])
  /\ ((1 < length argv)%nat ->
      thread_created (main argv w) = true
      /\ inOP (exit_world (main argv w)) = false
      /\ exists evs : list event,
           trace (exit_world (main argv w))
           = trace w ++ [Printf "SOEM (Simple Open EtherCAT Master)\nSimple test\n" [];
                         Printf "Starting simple test\n" [];
                         Call_init (nth 1 argv EmptyString)]
                     ++ evs ++ [Printf "End program\n" []]).
Proof.
  unfold main.
  destruct (Z.ltb_spec 1 (Z.of_nat (length argv))) as [H|H];
    cbn [exit_status thread_created exit_world].
  - split; [reflexivity|]. split; [intros H'; lia|]. intros _.
    split; [reflexivity|].
    pose proof (simpletest_inOP (nth 1 argv EmptyString)
                  (printf "SOEM (Simple Open EtherCAT Master)\nSimple test\n" [] w)) as I.
    destruct (simpletest_starts (nth 1 argv EmptyString)
                (printf "SOEM (Simple Open EtherCAT Master)\nSimple test\n" [] w))
      as [evs E].
    revert I E.
    generalize (simpletest (nth 1 argv EmptyString)
                  (printf "SOEM (Simple Open EtherCAT Master)\nSimple test\n" [] w)) as w1.
    intros w1 I E.
    split; [exact I|]. exists evs.
    unfold printf in *. cbn [emit trace] in *. rewrite E, <- !app_assoc. reflexivity.
  - split; [reflexivity|]. split; [|intros H'; lia]. intros _.
    split; [reflexivity|].
    unfold printf. cbn [emit trace]. rewrite <- !app_assoc. reflexivity.
Qed.

End WholeRun.

Section Mapping.

Context {M : Master}.






End Mapping.

Section OutputImage.

Context {M : Master}.

Lemma commanded_refl (o : out_somanet_42t) : commanded o o.
Proof. unfold commanded. repeat split; left; reflexivity. Qed.

Lemma commanded_trans (o o1 o2 : out_somanet_42t) :
  commanded o o1 -> commanded o1 o2 -> commanded o o2.
Proof.
  unfold commanded.
  intros (A1 & A2 & A3 & A4 & A5 & A6 & A7 & A8 & A9 & A10 & A11 & A12 & A13)
         (B1 & B2 & B3 & B4 & B5 & B6 & B7 & B8 & B9 & B10 & B11 & B12 & B13).
  rewrite B4, B5, B6, B7, B8, B9, B10, B11, B12, B13.
  repeat split; try assumption.
  - destruct B1 as [B1|B1]; [rewrite B1; exact A1 | right; exact B1].
  - destruct B2 as [B2|B2]; [rewrite B2; exact A2 | right; exact B2].
  - destruct B3 as [B3|B3]; [rewrite B3; exact A3 | right; exact B3].
Qed.

Lemma DriveStateMachine_commanded (w : World) :
  commanded (outputs w) (outputs (DriveStateMachine w)).
Proof.
  unfold DriveStateMachine.
  repeat match goal with
         | |- context [Z.eqb ?x ?y] => destruct (Z.eqb x y)
         end;
    try apply commanded_refl;
    unfold commanded, store_Controlword, store_TargetVelocity;
    cbn [emit set_outputs outputs with_Controlword with_TargetVelocity
         OpMode Controlword TargetVelocity TargetTorque TargetPosition TorqueOffset
         TuningCommand DigitalOutput1 DigitalOutput2 DigitalOutput3 DigitalOutput4
         UserMOSI VelocityOffset In];
    repeat split; auto 10.
Qed.

Lemma accepted_commanded (i j : Z) (w : World) :
  commanded (outputs w) (outputs (snd (accepted i j w))).
Proof.
  rewrite accepted_eq. cbn [snd].
  assert (C1 : commanded (outputs w)
                 (outputs (if to_int32 (j + 1) =? 1 then store_OpMode 9 w else w))).
  { destruct (_ =? _); [|apply commanded_refl].
    unfold commanded, store_OpMode.
    cbn [emit set_outputs outputs with_OpMode
         OpMode Controlword TargetVelocity TargetTorque TargetPosition TorqueOffset
         TuningCommand DigitalOutput1 DigitalOutput2 DigitalOutput3 DigitalOutput4
         UserMOSI VelocityOffset].
    repeat split; auto. }
  revert C1. generalize (if to_int32 (j + 1) =? 1 then store_OpMode 9 w else w) as w1.
  intros w1 C1.
  pose proof (DriveStateMachine_commanded w1) as C2.
  revert C2. generalize (DriveStateMachine w1) as w2. intros w2 C2.
  destruct (set_needlf_frame true (print_status i w2)) as (_ & _ & N & _).
  destruct (print_status_frame i w2) as (_ & _ & P & _).
  rewrite N, P. exact (commanded_trans _ _ _ C1 C2).
Qed.

Lemma cycle_commanded (i j : Z) (w : World) :
  commanded (outputs w) (outputs (snd (cycle i j w))).
Proof.
  rewrite cycle_exchanged.
  destruct (exchanged_facts w) as (_ & _ & O & _).
  pose proof (accepted_commanded i j (exchanged w)) as A.
  rewrite O in A. revert A O.
  generalize (accepted i j (exchanged w)) as a. generalize (exchanged w) as w1.
  intros w1 a A O.
  destruct (_ <=? _); cbn [snd].
  - destruct (emit_frame (Usleep 5000) (snd a)) as (_ & _ & E & _).
    rewrite E. exact A.
  - destruct (emit_frame (Usleep 5000) w1) as (_ & _ & E & _).
    rewrite E, O. apply commanded_refl.
Qed.

(** X13.  Whatever the devices answer, the cyclic loop changes the
    output image only in three members: [OpMode], to 9; [Controlword],
    to one of 0x80, 6, 7 and 15; [TargetVelocity], to 100.  The target
    torque and position, the offsets, the tuning command, the digital
    outputs and the user word keep the values they had before the
    loop. *)
Theorem cyclic_loop_output_image (n : nat) (i j : Z) (w : World) :
  commanded (outputs w) (outputs (snd (cyclic_loop n i j w))).
Proof.
  revert i j w. induction n as [|n IH]; intros i j w.
  - apply commanded_refl.
  - rewrite cyclic_loop_S.
    exact (commanded_trans _ _ _ (cycle_commanded i j w)
             (IH (i + 1) (fst (cycle i j w)) (snd (cycle i j w)))).
Qed.

End OutputImage.

Section Threads.

Context {M : Master}.

Lemma sup_steps_app (a : nat) :
  forall (b : nat) (p : sup_pc * World),
    sup_steps (a + b) p = sup_steps b (sup_steps a p).
Proof.
  induction a as [|a IH]; intros b p; cbn [plus sup_steps]; [reflexivity | apply IH].
Qed.

Lemma sup_step_device (slave : nat) (w : World) :
  sup_step (AtDevice slave, w)
  = (if Z.of_nat slave <=? ec_slavecount w
     then (AtDevice (S slave), check_slave slave w)
     else (AtVerdict, w)).
Proof. reflexivity. Qed.

Lemma sup_step_test (w : World) :
  sup_step (AtTest, w) = (if wake w then AtLinefeed else AtSleep, w).
Proof. reflexivity. Qed.

(** The [for] of line 247, step by step, is [check_slaves]. *)
Lemma devices_run (m : nat) :
  forall (slave : nat) (w : World),
    Z.of_nat slave + Z.of_nat m = ec_slavecount w + 1 ->
    sup_steps (S m) (AtDevice slave, w) = (AtVerdict, check_slaves m slave w).
Proof.
  induction m as [|m IH]; intros slave w H.
  - cbn [sup_steps check_slaves]. rewrite sup_step_device.
    replace (Z.of_nat slave <=? ec_slavecount w) with false
      by (symmetry; apply Z.leb_gt; lia).
    reflexivity.
  - change (sup_steps (S (S m)) (AtDevice slave, w))
      with (sup_steps (S m) (sup_step (AtDevice slave, w))).
    rewrite sup_step_device.
    replace (Z.of_nat slave <=? ec_slavecount w) with true
      by (symmetry; apply Z.leb_le; lia).
    cbn [check_slaves]. apply IH.
    destruct (check_slave_kept slave w) as ((_ & _ & _ & _ & _ & _ & C & _) & _).
    rewrite C. lia.
Qed.

Lemma devices_run_all (w : World) :
  sup_steps (S (Z.to_nat (ec_slavecount w))) (AtDevice 1, w)
  = (AtVerdict, check_slaves (Z.to_nat (ec_slavecount w)) 1 w).
Proof.
  destruct (Z.le_gt_cases 0 (ec_slavecount w)) as [H|H].
  - apply devices_run. rewrite Z2Nat.id by exact H. lia.
  - replace (Z.to_nat (ec_slavecount w)) with 0%nat by lia.
    cbn [sup_steps check_slaves]. rewrite sup_step_device.
    replace (Z.of_nat 1 <=? ec_slavecount w) with false
      by (symmetry; apply Z.leb_gt; lia).
    reflexivity.
Qed.

(** The steps of the supervisor, from one test of line 237 to the
    next, make up one iteration of its loop. *)
Lemma sup_iteration (w : World) :
  sup_steps (if wake w then 7 + Z.to_nat (ec_slavecount w) else 2) (AtTest, w)
  = (AtTest, ecatcheck_iter w).
Proof.
  unfold ecatcheck_iter. destruct (wake w) eqn:W.
  - rewrite sweep_eq; cbv zeta.
    destruct (refreshed_facts w) as (_ & C0 & _). cbv zeta in C0.
    assert (S4 : sup_steps 4 (AtTest, w)
                 = (AtDevice 1,
                    do_readstate
                      (upd_group currentgroup (with_docheckstate false)
                         (if needlf w then printf "\n" [] (set_needlf false w) else w)))).
    { cbn [sup_steps]. rewrite sup_step_test, W. reflexivity. }
    revert S4 C0.
    generalize (do_readstate
                  (upd_group currentgroup (with_docheckstate false)
                     (if needlf w then printf "\n" [] (set_needlf false w) else w)))
      as w0.
    intros w0 S4 C0. rewrite C0.
    replace (7 + Z.to_nat (ec_slavecount w))%nat
      with (4 + (S (Z.to_nat (ec_slavecount w)) + 2))%nat by lia.
    rewrite sup_steps_app, S4, sup_steps_app, <- C0, devices_run_all.
    generalize (check_slaves (Z.to_nat (ec_slavecount w0)) 1 w0) as w3. intros w3.
    reflexivity.
  - cbn [sup_steps]. rewrite sup_step_test, W. reflexivity.
Qed.

(** No step of the supervisor writes what the cyclic side owns, and
    only the line feed writes [needlf]. *)
Lemma sup_step_kept (pc : sup_pc) (w : World) :
  cyclic_side_kept w (snd (sup_step (pc, w)))
  /\ (pc <> AtLinefeed -> needlf (snd (sup_step (pc, w))) = needlf w).
Proof.
  destruct pc; unfold sup_step; cbn [fst snd].
  - split; [apply (kept_refl w) | reflexivity].
  - split; [|intros H; contradiction].
    destruct (needlf w); [|apply (kept_refl w)].
    apply (printf_kept "\n" [] (set_needlf false w)).
  - split; [apply upd_group_kept | reflexivity].
  - split; [apply do_readstate_kept | intros _; apply do_readstate_kept].
  - destruct (_ <=? _); cbn [snd].
    + split; [apply check_slave_kept | intros _; apply check_slave_kept].
    + split; [apply (kept_refl w) | reflexivity].
  - destruct (negb _).
    + split; [apply printf_kept | reflexivity].
    + split; [apply (kept_refl w) | reflexivity].
  - split; [apply emit_kept; reflexivity | reflexivity].
Qed.

Lemma sup_step_inOP (p : sup_pc * World) : inOP (snd (sup_step p)) = inOP (snd p).
Proof.
  destruct p as [pc w].
  destruct (sup_step_kept pc w) as ((_ & _ & I & _) & _). exact I.
Qed.

(** With [inOP] clear the test of line 237 fails, and a supervisor that
    is not inside a sweep only sleeps. *)
Lemma sup_step_idle (pc : sup_pc) (w : World) :
  inOP w = false -> idle pc = true ->
  idle (fst (sup_step (pc, w))) = true
  /\ same_but_sleep w (snd (sup_step (pc, w))).
Proof.
  intros H I. destruct pc; try discriminate I; unfold sup_step; cbn [fst snd].
  - unfold wake. rewrite H. split; [reflexivity | apply same_but_sleep_refl].
  - split; [reflexivity|]. apply same_but_sleep_sleep, same_but_sleep_refl.
Qed.

Lemma same_but_sleep_trans (w w1 w2 : World) :
  same_but_sleep w w1 -> same_but_sleep w1 w2 -> same_but_sleep w w2.
Proof.
  unfold same_but_sleep.
  intros (A1 & A2 & A3 & A4 & A5 & A6 & A7 & A8 & A9 & A10 & A11 & A12)
         (B1 & B2 & B3 & B4 & B5 & B6 & B7 & B8 & B9 & B10 & B11 & B12).
  rewrite B1, B2, B3, B4, B5, B6, B7, B8, B9, B10, B11, B12.
  repeat split; assumption.
Qed.

Lemma interleave_inOP (sched : list bool) :
  forall (steps : list (World -> World)) (p : sup_pc * World),
    (forall f, In f steps -> In f after_control) ->
    inOP (snd p) = false ->
    inOP (snd (interleave sched steps p)) = false.
Proof.
  induction sched as [|[|] sched IH]; intros steps p Hs Hi.
  - cbn [interleave snd].
    exact (proj2 (run_respects steps (snd p) (snd p) Hs Hi (same_but_sleep_refl _))).
  - cbn [interleave]. apply IH; [exact Hs|]. rewrite sup_step_inOP. exact Hi.
  - cbn [interleave]. destruct steps as [|f steps].
    + apply IH; assumption.
    + apply IH; [intros g Hg; apply Hs, in_cons, Hg|]. cbn [snd].
      exact (proj2 (after_control_respects f (snd p) (snd p)
                      (Hs f (in_eq f steps)) Hi (same_but_sleep_refl _))).
Qed.

(** Once line 196 has run, [inOP] stays clear whatever the schedule. *)
Lemma interleave_closing_inOP (sched : list bool) :
  forall p : sup_pc * World, inOP (snd (interleave sched closing p)) = false.
Proof.
  induction sched as [|[|] sched IH]; intros p.
  - cbn [interleave snd]. unfold closing, run. cbn [fold_left].
    exact (proj2 (run_respects after_control (set_inOP false (snd p))
                    (set_inOP false (snd p)) (fun f H => H) eq_refl
                    (same_but_sleep_refl _))).
  - cbn [interleave]. apply IH.
  - unfold closing. cbn [interleave].
    apply interleave_inOP; [intros f H; exact H | reflexivity].
Qed.

Lemma interleave_idle (sched : list bool) :
  forall (steps : list (World -> World)) (w : World) (p : sup_pc * World),
    (forall f, In f steps -> In f after_control) ->
    inOP w = false -> idle (fst p) = true -> same_but_sleep w (snd p) ->
    same_but_sleep (run steps w) (snd (interleave sched steps p))
    /\ idle (fst (interleave sched steps p)) = true.
Proof.
  induction sched as [|[|] sched IH]; intros steps w p Hs Hi Hp Hw.
  - cbn [interleave fst snd]. split; [|exact Hp].
    apply run_respects; assumption.
  - cbn [interleave].
    assert (Hi' : inOP (snd p) = false).
    { destruct Hw as (_ & _ & _ & -> & _). exact Hi. }
    destruct p as [pc w']. cbn [fst snd] in *.
    destruct (sup_step_idle pc w' Hi' Hp) as (I & S).
    apply IH; auto. exact (same_but_sleep_trans _ _ _ Hw S).
  - cbn [interleave]. destruct steps as [|f steps].
    + apply IH; auto.
    + unfold run; cbn [fold_left]. fold (run steps (f w)).
      destruct (after_control_respects f w (snd p)) as (H1 & H2); auto using in_eq.
      apply IH; auto using in_cons.
Qed.

Lemma primary_action_set_inOP (b : bool) (slave : nat) (w : World) :
  primary_action slave (set_inOP b w) = set_inOP b (primary_action slave w).
Proof.
  rewrite !primary_action_eq; cbv zeta.
  change (get_slave slave (set_inOP b w)) with (get_slave slave w).
  destruct (select_recovery (get_slave slave w)).
  - reflexivity.
  - reflexivity.
  - unfold do_reconfig_slave.
    change (ext (upd_group currentgroup (with_docheckstate true) (set_inOP b w)))
      with (ext (upd_group currentgroup (with_docheckstate true) w)).
    change (get_slave slave (upd_group currentgroup (with_docheckstate true)
                               (set_inOP b w)))
      with (get_slave slave (upd_group currentgroup (with_docheckstate true) w)).
    destruct (ec_reconfig_slave _ _ _ _) as [[r l] e].
    cbn [fst snd]. destruct (r =? 0); reflexivity.
  - unfold do_statecheck.
    change (ext (upd_group currentgroup (with_docheckstate true) (set_inOP b w)))
      with (ext (upd_group currentgroup (with_docheckstate true) w)).
    change (get_slave slave (upd_group currentgroup (with_docheckstate true)
                               (set_inOP b w)))
      with (get_slave slave (upd_group currentgroup (with_docheckstate true) w)).
    destruct (ec_statecheck _ _ _ _ _) as [l e].
    match goal with
    | |- (if ?c then _ else _) = set_inOP b (if ?d then _ else _) =>
        change c with d; destruct d
    end; reflexivity.
  - reflexivity.
Qed.

Lemma lost_action_set_inOP (b : bool) (slave : nat) (w : World) :
  lost_action slave (set_inOP b w) = set_inOP b (lost_action slave w).
Proof.
  rewrite !lost_action_eq; cbv zeta.
  change (get_slave slave (set_inOP b w)) with (get_slave slave w).
  destruct (_ =? _); [|reflexivity].
  unfold do_recover_slave.
  change (ext (set_inOP b w)) with (ext w).
  change (get_slave slave (set_inOP b w)) with (get_slave slave w).
  destruct (ec_recover_slave _ _ _ _) as [[r l] e].
  cbn [fst snd]. destruct (r =? 0); reflexivity.
Qed.

(** The turn of a device does not read [inOP]. *)
Lemma check_slave_set_inOP (b : bool) (slave : nat) (w : World) :
  check_slave slave (set_inOP b w) = set_inOP b (check_slave slave w).
Proof.
  rewrite !check_slave_eq; cbv zeta.
  change (get_slave slave (set_inOP b w)) with (get_slave slave w).
  assert (E : (if handled (get_slave slave w)
               then primary_action slave (set_inOP b w) else set_inOP b w)
              = set_inOP b (if handled (get_slave slave w)
                            then primary_action slave w else w)).
  { destruct (handled _); [apply primary_action_set_inOP | reflexivity]. }
  rewrite E.
  generalize (if handled (get_slave slave w) then primary_action slave w else w) as w1.
  intros w1.
  change (get_slave slave (set_inOP b w1)) with (get_slave slave w1).
  destruct (islost _); [apply lost_action_set_inOP | reflexivity].
Qed.



(** C10.  [inOP] is still clear when the wait for the operational state
    returns; the cyclic phase sets it before the loop, it is set after
    any number of cycles (so the test of line 237 then passes exactly
    when the working counter is low or the re-check flag is set), and
    line 196 clears it right after the loop, so it is clear when
    [simpletest] returns.  The supervisor never writes it.  From line
    196 on, however the steps of the supervisor are interleaved with
    the rest of [simpletest] and wherever the supervisor stands in its
    loop, [inOP] stays clear and every test of line 237 fails: no sweep
    is started any more.  A sweep whose test passed before line 196 is
    not stopped by it: no later step of the sweep reads [inOP].  When
    the supervisor is not inside a sweep at that point, it only sleeps
    from then on: the final world is the one [simpletest] reaches
    alone, up to the sleeps in the trace. *)
Theorem inOP_clear_after_cyclic_phase (ifname : string) (w w' : World)
    (pc : sup_pc) (sched : list bool) (n : nat) :
  (inOP w = false -> inOP (wait_operational 200 w) = false)
  /\ inOP (cyclic_prefix n w) = true
  /\ wake (cyclic_prefix n w)
     = (wkc (cyclic_prefix n w) <? expectedWKC (cyclic_prefix n w))
       || docheckstate (get_group currentgroup (cyclic_prefix n w))
  /\ cyclic_phase w = set_inOP false (cyclic_prefix (Z.to_nat 10000) w)
  /\ inOP (cyclic_phase w) = false
  /\ inOP (simpletest ifname w) = false
  /\ do_close (printf "End simple test, close socket\n" [] (request_init (cyclic_phase w)))
     = run after_control (cyclic_phase w)
  /\ sup_steps (if wake w' then 7 + Z.to_nat (ec_slavecount w') else 2) (AtTest, w')
     = (AtTest, ecatcheck_iter w')
  /\ inOP (snd (sup_step (pc, w'))) = inOP w'
  /\ inOP (snd (interleave sched closing (pc, w'))) = false
  /\ (inOP w' = false ->
      sup_step (AtTest, w') = (AtSleep, w')
      /\ inOP (snd (interleave sched after_control (pc, w'))) = false)
  /\ (pc <> AtTest -> sup_step (pc, set_inOP false w')
                      = (fst (sup_step (pc, w')), set_inOP false (snd (sup_step (pc, w')))))
  /\ (inOP w' = false -> idle pc = true ->
      idle (fst (sup_step (pc, w'))) = true
      /\ same_but_sleep w' (snd (sup_step (pc, w')))
      /\ same_but_sleep (run after_control w')
                        (snd (interleave sched after_control (pc, w')))
      /\ idle (fst (interleave sched after_control (pc, w'))) = true).
Proof.
  assert (P : inOP (cyclic_prefix n w) = true).
  { unfold cyclic_prefix.
    destruct (cyclic_loop_frame n 1 0
                (set_inOP true
                   (printf "Operational state reached for all slaves.\n" [] w)))
      as (_ & I).
    rewrite I. reflexivity. }
  split.
  { intros H. destruct (wait_operational_spec 200 w) as (k & _ & (_ & I & _) & _).
    rewrite I. exact H. }
  split; [exact P|].
  split; [unfold wake; rewrite P; reflexivity|].
  split; [apply cyclic_phase_eq|].
  split; [apply cyclic_phase_inOP|].
  split; [apply simpletest_inOP|].
  split; [reflexivity|].
  split; [apply sup_iteration|].
  split; [apply (sup_step_inOP (pc, w'))|].
  split; [apply interleave_closing_inOP|].
  split.
  { intros H. split.
    - unfold sup_step, wake. cbn [fst snd]. rewrite H. reflexivity.
    - apply interleave_inOP; [intros f Hf; exact Hf | exact H]. }
  split.
  { intros H. destruct pc; try contradiction; unfold sup_step; cbn [fst snd].
    - change (needlf (set_inOP false w')) with (needlf w').
      destruct (needlf w'); reflexivity.
    - reflexivity.
    - unfold do_readstate. change (ext (set_inOP false w')) with (ext w').
      destruct (ec_readstate (ext w')) as [f e]. reflexivity.
    - change (ec_slavecount (set_inOP false w')) with (ec_slavecount w').
      destruct (_ <=? _); cbn [fst snd]; [rewrite check_slave_set_inOP|]; reflexivity.
    - change (get_group currentgroup (set_inOP false w'))
        with (get_group currentgroup w').
      destruct (negb _); reflexivity.
    - reflexivity. }
  intros H I.
  destruct (sup_step_idle pc w' H I) as (I1 & S1).
  destruct (interleave_idle sched after_control w' (pc, w')
              (fun f Hf => Hf) H I (same_but_sleep_refl w')) as (S2 & I2).
  split; [exact I1|]. split; [exact S1|]. split; [exact S2 | exact I2].
Qed.

End Threads.

Section ThreadsSide.

Context {M : Master}.

(** X6.  The supervisor touches [needlf] in one step only, the line
    feed at the head of a sweep (lines 239-243): that step prints a
    line feed exactly when it finds [needlf] set and leaves it clear;
    no other step of the supervisor changes it.  The cyclic side sets
    it in every accepted cycle and leaves it alone in a degraded one.
    So a sweep that no cycle interrupts begins with a line feed exactly
    when [needlf] was set on entry, then refreshes the device states,
    and ends with [needlf] clear. *)
Theorem needlf_handshake (i j : Z) (pc : sup_pc) (w : World) :
  (pc <> AtLinefeed -> needlf (snd (sup_step (pc, w))) = needlf w)
  /\ needlf (snd (sup_step (AtLinefeed, w))) = false
  /\ trace (snd (sup_step (AtLinefeed, w)))
     = trace w ++ (if needlf w then [Printf "\n" []] else [])
  /\ (expectedWKC w <= observed_wkc w -> needlf (snd (cycle i j w)) = true)
  /\ (observed_wkc w < expectedWKC w -> needlf (snd (cycle i j w)) = needlf w)
  /\ needlf (sweep w) = false
  /\ (exists evs : list event,
        trace (sweep w)
        = trace w ++ (if needlf w then [Printf "\n" []] else []) ++ Call_readstate :: evs).
Proof.
  split; [apply sup_step_kept|].
  split.
  { unfold sup_step. cbn [fst snd]. destruct (needlf w) eqn:N; [reflexivity | exact N]. }
  split.
  { unfold sup_step. cbn [fst snd].
    destruct (needlf w); [reflexivity | rewrite app_nil_r; reflexivity]. }
  split.
  { intros H. destruct (cycle_report i j w) as (_ & _ & _ & _ & C).
    exact (proj1 (C H)). }
  split.
  { intros H. destruct (degraded_cycle_facts i j w H) as (_ & _ & N & _). exact N. }
  split; [apply sweep_kept | apply sweep_reads_states].
Qed.




End ThreadsSide.

(** * The properties on concrete worlds *)

Lemma DriveStateMachine_first_match_witness :
  Controlword (outputs (DriveStateMachine w_fault)) = 0x0080
  /\ Controlword (outputs (DriveStateMachine w_disabled)) = 0x0006
  /\ Controlword (outputs (DriveStateMachine w_switched_on)) = 0x000f
  /\ TargetVelocity (outputs (DriveStateMachine w_enabled)) = 100.
Proof.
  split.
  { destruct (DriveStateMachine_first_match 1 0 w_fault) as (_ & _ & _ & _ & H & _).
    apply H. reflexivity. }
  split.
  { destruct (DriveStateMachine_first_match 1 0 w_disabled)
      as (_ & _ & _ & _ & _ & H & _).
    apply H. reflexivity. }
  split.
  { destruct (DriveStateMachine_first_match 1 0 w_switched_on)
      as (_ & _ & _ & _ & _ & _ & _ & H & _).
    apply H. reflexivity. }
  destruct (DriveStateMachine_first_match 1 0 w_enabled)
    as (_ & _ & _ & _ & _ & _ & _ & _ & H & _).
  apply H. reflexivity.
Defined.

Lemma degraded_cycle_untouched_witness :
  observed_wkc w_low < expectedWKC w_low
  /\ outputs (snd (cycle 1 0 w_low)) = outputs w_low
  /\ fst (cycle 1 0 w_low) = 0.
Proof.
  assert (H : observed_wkc w_low < expectedWKC w_low) by reflexivity.
  split; [exact H|].
  destruct (degraded_cycle_untouched 1 0 w_low H) as (A & B & _).
  split; [exact A | exact B].
Defined.

Lemma OpMode_stored_once_witness :
  Z.of_nat 1 < 10000
  /\ fst (cyclic_loop 1 1 0 w_fault) = Z.of_nat (accepted_cycles 1 1 0 w_fault)
  /\ OpMode (outputs w_fault) = 0
  /\ OpMode (outputs (snd (cycle 1 0 w_fault))) = 9
  /\ opmode_stores (trace (snd (cycle 1 0 w_fault))) = [9]
  /\ opmode_stores (trace (snd (cycle 2 1 (snd (cycle 1 0 w_fault))))) = [9].
Proof.
  assert (H0 : Z.of_nat 0 < 10000) by reflexivity.
  assert (H1 : Z.of_nat 1 < 10000) by reflexivity.
  split; [exact H1|].
  pose proof (OpMode_stored_once w_fault 0 H0) as T0. cbv zeta in T0.
  pose proof (OpMode_stored_once w_fault 1 H1) as T1. cbv zeta in T1.
  destruct T0 as (_ & _ & S0 & O0 & _).
  destruct T1 as (_ & J1 & S1 & _).
  split; [exact J1|].
  split; [reflexivity|].
  split; [exact O0|].
  split; [exact S0 | exact S1].
Defined.

Lemma expected_working_counter_witness :
  expectedWKC (request_operational w_low) = 7
  /\ fst (cycle 1 0 w_low) = 0.
Proof.
  assert (Ho : 0 <= outputsWKC (get_group 0 w_low) < 65536)
    by (split; [discriminate | reflexivity]).
  assert (Hi : 0 <= inputsWKC (get_group 0 w_low) < 65536)
    by (split; [discriminate | reflexivity]).
  destruct (expected_working_counter w_low Ho Hi) as (_ & _ & _ & _ & H).
  destruct (H eq_refl eq_refl) as (E & D).
  split; [exact E|].
  destruct (D 1 0 w_low eq_refl eq_refl) as (J & _). exact J.
Defined.


Lemma supervisor_wake_condition_witness :
  ecatcheck_iter (set_inOP false w_fault) = emit (Usleep 10000) (set_inOP false w_fault)
  /\ ecatcheck_iter w_fault = emit (Usleep 10000) (sweep w_fault).
Proof.
  split.
  - destruct (supervisor_wake_condition (set_inOP false w_fault)) as (_ & H & _).
    apply H. intros [A _]. discriminate A.
  - destruct (supervisor_wake_condition w_fault) as (_ & _ & H).
    apply H. split; [reflexivity | left; reflexivity].
Defined.

Lemma recovery_by_priority_witness :
  (Z.to_nat (ec_slavecount w_stuck) < length (ec_slave w_stuck))%nat
  /\ (1 <= 1 <= Z.to_nat (ec_slavecount w_stuck))%nat
  /\ get_slave 1 (sweep w_stuck)
     = {| state := 0x08; ALstatuscode := 0; group := 0; islost := false |}
  /\ exists before after : list event,
       trace (sweep w_stuck)
       = trace w_stuck ++ before
         ++ [Printf "WARNING : slave %d is in SAFE_OP, change to OPERATIONAL.\n" [AInt 1];
             Call_writestate 1 0x08]
         ++ [] ++ after.
Proof.
  assert (H1 : (Z.to_nat (ec_slavecount w_stuck) < length (ec_slave w_stuck))%nat)
    by (vm_compute; lia).
  assert (H2 : (1 <= 1 <= Z.to_nat (ec_slavecount w_stuck))%nat) by (vm_compute; lia).
  split; [exact H1|]. split; [exact H2|].
  pose proof (recovery_by_priority 1 w_stuck H1 H2) as T. cbv zeta in T.
  destruct T as (_ & _ & G & E & _).
  split; [exact G | exact E].
Defined.

Lemma sweep_idempotent_witness :
  @steady sim_stuck (fun _ => safeop_link) (fun _ => 0) (fun _ => 0)
  /\ (Z.to_nat (ec_slavecount w_stuck) < length (ec_slave w_stuck))%nat
  /\ ec_slave (sweep (sweep w_stuck)) = ec_slave (sweep w_stuck)
  /\ ec_group (sweep (sweep w_stuck)) = ec_group (sweep w_stuck).
Proof.
  assert (S : @steady sim_stuck (fun _ => safeop_link) (fun _ => 0) (fun _ => 0))
    by (repeat split).
  assert (Ha : to_uint16 (@EC_STATE_SAFE_OP sim_stuck + @EC_STATE_ACK sim_stuck)
               <> @EC_STATE_NONE sim_stuck) by (vm_compute; discriminate).
  assert (Ho : to_uint16 (@EC_STATE_OPERATIONAL sim_stuck) <> @EC_STATE_NONE sim_stuck)
    by (vm_compute; discriminate).
  assert (L : (Z.to_nat (ec_slavecount w_stuck) < length (ec_slave w_stuck))%nat)
    by (cbn; lia).
  destruct (@sweep_idempotent sim_stuck _ _ _ S Ha Ho w_stuck L) as (A & B & _).
  split; [exact S|]. split; [exact L|]. split; [exact A | exact B].
Defined.

(** Runs of the embedded code on the simulated stack. *)

Example run_check_slave_error :
  trace (check_slave 1 w_error)
  = [Printf "ERROR : slave %d is in SAFE_OP + ERROR, attempting ack.\n" [AInt 1];
     Call_writestate 1 0x14;
     Printf "MESSAGE : slave %d found\n" [AInt 1]]
  /\ get_slave 1 (check_slave 1 w_error)
     = {| state := 0x14; ALstatuscode := 0; group := 0; islost := false |}.
Proof. vm_compute. split; reflexivity. Qed.

Example run_sweep_stuck :
  trace (sweep w_stuck)
  = [Call_readstate;
     Printf "WARNING : slave %d is in SAFE_OP, change to OPERATIONAL.\n" [AInt 1];
     Call_writestate 1 0x08]
  /\ trace (sweep (sweep w_stuck)) = trace (sweep w_stuck) ++ trace (sweep w_stuck)
  /\ docheckstate (get_group currentgroup (sweep w_stuck)) = true.
Proof. vm_compute. repeat split; reflexivity. Qed.

Example run_wait_stuck :
  length (trace (wait_operational 200 w_stuck)) = (3 * 201)%nat
  /\ trace (control w_stuck)
     = trace (wait_operational 200 w_stuck)
       ++ [Printf "Not all slaves reached operational state.\n" [];
           Call_readstate;
           Printf "Slave %d State=0x%2.2x StatusCode=0x%4.4x : %s\n"
                  [AInt 1; AInt 0x04; AInt 0; AStr EmptyString];
           Printf "\nRequest init state for all slaves\n" [];
           Call_writestate 0 0x01].
Proof. vm_compute. split; reflexivity. Qed.

Example run_cycles_fault :
  fst (cyclic_loop 3 1 0 w_fault) = 3
  /\ stores (trace (snd (cyclic_loop 3 1 0 w_fault)))
     = [Store_OpMode 9; Store_Controlword 0x80; Store_Controlword 0x80;
        Store_Controlword 0x80]
  /\ fst (cyclic_loop 3 1 0 w_low) = 0
  /\ stores (trace (snd (cyclic_loop 3 1 0 w_low))) = [].
Proof. vm_compute. repeat split; reflexivity. Qed.

Lemma simpletest_without_socket_witness :
  fst (@ec_init (sim_startup 0 0) "eth0" tt) = 0
  /\ trace (simpletest "eth0" w_closed)
     = [Printf "Starting simple test\n" []; Call_init "eth0";
        Printf "No socket connection on %s\nExcecute as root\n" [AStr "eth0"]].
Proof.
  split; [reflexivity|].
  destruct (simpletest_without_socket "eth0" w_closed eq_refl) as (T & _).
  exact T.
Defined.

Lemma simpletest_without_slaves_witness :
  fst (@ec_init (sim_startup 1 0) "eth0" tt) <> 0
  /\ fst (fst (@ec_config_init (sim_startup 1 0) false tt)) <= 0
  /\ trace (simpletest "eth0" w_empty)
     = [Printf "Starting simple test\n" []; Call_init "eth0";
        Printf "ec_init on %s succeeded.\n" [AStr "eth0"];
        Call_config_init;
        Printf "No slaves found!\n" [];
        Printf "End simple test, close socket\n" [];
        Call_close].
Proof.
  assert (H1 : fst (ec_init "eth0" (ext w_empty)) <> 0) by (vm_compute; discriminate).
  assert (H2 : fst (fst (ec_config_init false (snd (ec_init "eth0" (ext w_empty))))) <= 0)
    by (vm_compute; discriminate).
  split; [exact H1|]. split; [exact H2|].
  destruct (simpletest_without_slaves "eth0" w_empty H1 H2) as (T & _).
  exact T.
Defined.

Lemma simpletest_closes_socket_witness :
  fst (@ec_init sim_ok "eth0" tt) <> 0
  /\ exists evs : list event,
       trace (simpletest "eth0" w_fault)
       = trace w_fault
         ++ [Printf "Starting simple test\n" []; Call_init "eth0";
             Printf "ec_init on %s succeeded.\n" [AStr "eth0"];
             Call_config_init]
         ++ evs
         ++ [Printf "End simple test, close socket\n" []; Call_close].
Proof.
  assert (H1 : fst (ec_init "eth0" (ext w_fault)) <> 0) by (vm_compute; discriminate).
  split; [exact H1|].
  exact (simpletest_closes_socket "eth0" w_fault H1).
Defined.

Lemma accepted_cycle_status_line_witness :
  expectedWKC w_fault <= observed_wkc w_fault
  /\ needlf (snd (cycle 1 0 w_fault)) = true.
Proof.
  assert (H : expectedWKC w_fault <= observed_wkc w_fault) by (vm_compute; discriminate).
  split; [exact H|].
  destruct (accepted_cycle_status_line 1 0 w_fault H) as (_ & N & _).
  exact N.
Defined.

Lemma sweep_verdict_witness :
  (Z.to_nat (ec_slavecount w_stuck) < length (ec_slave w_stuck))%nat
  /\ (Z.to_nat currentgroup < length (ec_group w_stuck))%nat
  /\ docheckstate (get_group currentgroup (sweep w_stuck))
     = @any_handled sim_stuck (ec_slave (do_readstate w_stuck)) 1
         (Z.to_nat (ec_slavecount w_stuck)).
Proof.
  assert (H1 : (Z.to_nat (ec_slavecount w_stuck) < length (ec_slave w_stuck))%nat)
    by (vm_compute; lia).
  assert (H2 : (Z.to_nat currentgroup < length (ec_group w_stuck))%nat)
    by (vm_compute; lia).
  split; [exact H1|]. split; [exact H2|].
  destruct (sweep_verdict w_stuck H1 H2) as (D & _). exact D.
Defined.

Lemma lost_only_after_failed_recovery_witness :
  (1 < length (ec_slave w_gone))%nat
  /\ islost (get_slave 1 (check_slave 1 w_gone)) = true
  /\ fst (recover_result 1 (if @handled sim_gone (get_slave 1 w_gone)
                            then primary_action 1 w_gone else w_gone)) = 0.
Proof.
  assert (H1 : (1 < length (ec_slave w_gone))%nat) by (vm_compute; lia).
  assert (H2 : islost (get_slave 1 (check_slave 1 w_gone)) = true)
    by (vm_compute; reflexivity).
  split; [exact H1|]. split; [exact H2|].
  destruct (lost_only_after_failed_recovery 1 w_gone H1 H2) as (_ & _ & R & _).
  exact R.
Defined.

Lemma main_outline_witness :
  (length ["simple_test"] <= 1)%nat
  /\ (1 < length ["simple_test"; "eth0"])%nat
  /\ thread_created (main ["simple_test"] w_fault) = false
  /\ thread_created (main ["simple_test"; "eth0"] w_fault) = true.
Proof.
  assert (H1 : (length ["simple_test"] <= 1)%nat) by (vm_compute; lia).
  assert (H2 : (1 < length ["simple_test"; "eth0"])%nat) by (vm_compute; lia).
  split; [exact H1|]. split; [exact H2|].
  destruct (main_outline ["simple_test"] w_fault) as (_ & A & _).
  destruct (main_outline ["simple_test"; "eth0"] w_fault) as (_ & _ & B).
  split; [exact (proj1 (A H1)) | exact (proj1 (B H2))].
Defined.


(** C10 in the words of the specification fails on [w_gone]: the supervisor passes the test of line 237 while
    [inOP] is set, [simpletest] clears [inOP] at line 196, and the
    sweep goes on all the same: it refreshes the states, re-verifies
    device 1, prints that it is lost, marks it lost and tries to
    recover it. *)
Lemma inOP_clear_after_cyclic_phase_counterexample :
  let p1 := sup_step (AtTest, w_gone) in
  let p2 := (fst p1, set_inOP false (snd p1)) in
  let p3 := sup_steps 4 p2 in
  let sched := [true; false; true; true; true; true] in
  fst p1 = AtLinefeed
  /\ inOP (snd p2) = false
  /\ wake (snd p2) = false
  /\ trace (snd p3)
     = trace (snd p2)
       ++ [Call_readstate; Call_statecheck 1 0x08 2000;
           Printf "ERROR : slave %d lost\n" [AInt 1];
           Call_recover_slave 1 500]
  /\ islost (get_slave 1 (snd p2)) = false
  /\ islost (get_slave 1 (snd p3)) = true
  /\ interleave sched closing (AtTest, w_gone) = (fst p3, run after_control (snd p3))
  /\ ~ same_but_sleep (run closing w_gone)
                      (snd (interleave sched closing (AtTest, w_gone))).
Proof.
  cbv zeta.
  split; [vm_compute; reflexivity|].
  split; [vm_compute; reflexivity|].
  split; [vm_compute; reflexivity|].
  split; [vm_compute; reflexivity|].
  split; [vm_compute; reflexivity|].
  split; [vm_compute; reflexivity|].
  split; [vm_compute; reflexivity|].
  intros (_ & _ & _ & _ & _ & H & _).
  vm_compute in H. discriminate H.
Qed.

Lemma inOP_clear_after_cyclic_phase_witness :
  inOP (set_inOP false w_stuck) = false
  /\ idle AtSleep = true
  /\ inOP (wait_operational 200 (set_inOP false w_stuck)) = false
  /\ sup_step (AtTest, set_inOP false w_stuck) = (AtSleep, set_inOP false w_stuck)
  /\ same_but_sleep (run after_control (set_inOP false w_stuck))
       (snd (interleave [true; false; true; true] after_control
               (AtSleep, set_inOP false w_stuck)))
  /\ sup_step (AtRead, set_inOP false w_stuck)
     = (AtDevice 1, set_inOP false (do_readstate w_stuck)).
Proof.
  assert (H : inOP (set_inOP false w_stuck) = false) by reflexivity.
  assert (I : idle AtSleep = true) by reflexivity.
  assert (N : AtRead <> AtTest) by discriminate.
  split; [exact H|]. split; [exact I|].
  destruct (inOP_clear_after_cyclic_phase EmptyString (set_inOP false w_stuck)
              (set_inOP false w_stuck) AtSleep [true; false; true; true] 0)
    as (A & _ & _ & _ & _ & _ & _ & _ & _ & _ & B & _ & C).
  destruct (inOP_clear_after_cyclic_phase EmptyString w_stuck w_stuck AtRead [] 0)
    as (_ & _ & _ & _ & _ & _ & _ & _ & _ & _ & _ & D & _).
  split; [exact (A H)|].
  split; [exact (proj1 (B H))|].
  split; [exact (proj1 (proj2 (proj2 (C H I))))|].
  exact (D N).
Defined.

Lemma needlf_handshake_witness :
  expectedWKC w_fault <= observed_wkc w_fault
  /\ observed_wkc w_low < expectedWKC w_low
  /\ AtRead <> AtLinefeed
  /\ needlf (snd (cycle 1 0 w_fault)) = true
  /\ needlf (snd (cycle 1 0 w_low)) = needlf w_low
  /\ needlf (snd (sup_step (AtRead, snd (cycle 1 0 w_fault))))
     = needlf (snd (cycle 1 0 w_fault)).
Proof.
  assert (H1 : expectedWKC w_fault <= observed_wkc w_fault) by (vm_compute; discriminate).
  assert (H2 : observed_wkc w_low < expectedWKC w_low) by reflexivity.
  assert (H3 : AtRead <> AtLinefeed) by discriminate.
  split; [exact H1|]. split; [exact H2|]. split; [exact H3|].
  destruct (needlf_handshake 1 0 AtTest w_fault) as (_ & _ & _ & A & _).
  destruct (needlf_handshake 1 0 AtTest w_low) as (_ & _ & _ & _ & B & _).
  destruct (needlf_handshake 1 0 AtRead (snd (cycle 1 0 w_fault))) as (C & _).
  split; [exact (A H1)|]. split; [exact (B H2) | exact (C H3)].
Defined.


(** A sweep in progress at line 196 can change what line 214 requests:
    here the refresh by [ec_readstate] falls between lines 212 and 214
    and the request sent for all devices is SAFE_OP, not INIT. *)
Example run_closing_race :
  trace (snd (interleave [true; false; false; false; true; true; true; false; true]
                closing (AtTest, w_stuck)))
  = [Printf "\nRequest init state for all slaves\n" [];
     Call_readstate;
     Call_writestate 0 0x04;
     Printf "WARNING : slave %d is in SAFE_OP, change to OPERATIONAL.\n" [AInt 1];
     Call_writestate 1 0x08;
     Printf "End simple test, close socket\n" [];
     Call_close].
Proof. vm_compute. reflexivity. Qed.
